(** * EVALUX code practice: answer validation, answer comparison and the
      restricted runner

    A shallow embedding of three functions of [main.py]:
    - [validate_and_fix_problem] (lines 390-481), the post-generation check
      that re-derives the expected answer of an average, range-sum or
      list-extremum problem from its description;
    - [compare_answers] (lines 503-553), the ordered answer comparison;
    - [execute_code_no_input] (lines 792-961), the runner that finds a
      zero-parameter function in a submission, defines it, calls it and
      judges what it returned.

    Conventions of the embedding.
    - A Python [str] is a [string] whose characters are read as code points
      below 256 (the Latin-1 block); the character classes of [str.strip],
      [str.lower], [\s], [\d] and [\w] are the interpreter's on that block.
    - A Python [int] is a [Z]; the interpreter's optional cap on the number
      of decimal digits of a conversion is not modelled.
    - A Python [float] is an IEEE 754 binary64 value, a [spec_float] with
      precision 53 and maximal exponent 1024, rounded to nearest, ties to
      even; [sum] adds from left to right, and [x ** 0.5] is taken as the
      correctly rounded square root.
    - A Python [dict] with text keys is a [gmap string _].
    - The interpreter that [exec]s a submission and calls its entry point is
      a parameter ([Interpreter]): it answers with a value or with a raised
      [Exception] and its message.  Runs that never end and exceptions that
      are no [Exception] are outside the embedding. *)

From Stdlib Require Import ZArith Lia List Bool Ascii String.
From Stdlib Require Import SpecFloat DecimalString DecimalZ.
From stdpp Require Import gmap strings sorting.

Local Open Scope string_scope.

(** Concatenation computes under [simpl], as the proofs on texts expect. *)
#[local] Arguments String.append !s1 s2 : simpl nomatch.

(** ** Text *)

Module Text.

(** The code point of a character. *)
Definition code (c : ascii) : N := N_of_ascii c.

Definition between (lo hi : N) (c : ascii) : bool :=
  (lo <=? code c)%N && (code c <=? hi)%N.

(** [str.isspace] on one character; also the class [\s]. *)
Definition is_space (c : ascii) : bool :=
  between 9 13 c || between 28 32 c || (code c =? 133)%N || (code c =? 160)%N.

(** The class [\d]: the decimal digits. *)
Definition is_digit (c : ascii) : bool := between 48 57 c.

(** [str.isalpha] on one character. *)
Definition is_alpha (c : ascii) : bool :=
  between 65 90 c || between 97 122 c
  || (code c =? 170)%N || (code c =? 181)%N || (code c =? 186)%N
  || between 192 214 c || between 216 246 c || between 248 255 c.

(** The characters that are numeric without being decimal digits:
    superscript digits and vulgar fractions. *)
Definition is_other_numeric (c : ascii) : bool :=
  (code c =? 178)%N || (code c =? 179)%N || (code c =? 185)%N
  || between 188 190 c.

(** The class [\w]: alphanumeric characters and the underscore. *)
Definition is_word (c : ascii) : bool :=
  is_alpha c || is_digit c || is_other_numeric c || (code c =? 95)%N.

(** [str.lower] on one character. *)
Definition lower_char (c : ascii) : ascii :=
  if between 65 90 c || (between 192 222 c && negb (code c =? 215)%N)
  then ascii_of_N (code c + 32)
  else c.

Fixpoint lower (s : string) : string :=
  match s with
  | EmptyString => EmptyString
  | String c s' => String (lower_char c) (lower s')
  end.

Fixpoint all_chars (p : ascii -> bool) (s : string) : bool :=
  match s with
  | EmptyString => true
  | String c s' => p c && all_chars p s'
  end.

(** The longest prefix of [s] whose characters satisfy [p], and the rest. *)
Fixpoint span (p : ascii -> bool) (s : string) : string * string :=
  match s with
  | EmptyString => (EmptyString, EmptyString)
  | String c s' =>
      if p c then let '(u, r) := span p s' in (String c u, r)
      else (EmptyString, s)
  end.

Fixpoint lstrip (s : string) : string :=
  match s with
  | EmptyString => EmptyString
  | String c s' => if is_space c then lstrip s' else s
  end.

Fixpoint rstrip (s : string) : string :=
  match s with
  | EmptyString => EmptyString
  | String c s' =>
      match rstrip s' with
      | EmptyString => if is_space c then EmptyString else String c EmptyString
      | r => String c r
      end
  end.

(** [s.strip()]. *)
Definition strip (s : string) : string := rstrip (lstrip s).

(** The whitespace [int()] and [float()] skip around a numeral: that of
    [str.strip] without the four separators U+001C to U+001F. *)
Definition is_blank (c : ascii) : bool :=
  is_space c && negb (between 28 31 c).

Fixpoint ltrim (s : string) : string :=
  match s with
  | EmptyString => EmptyString
  | String c s' => if is_blank c then ltrim s' else s
  end.

Fixpoint rtrim (s : string) : string :=
  match s with
  | EmptyString => EmptyString
  | String c s' =>
      match rtrim s' with
      | EmptyString => if is_blank c then EmptyString else String c EmptyString
      | r => String c r
      end
  end.

(** A numeral without the whitespace around it. *)
Definition trim (s : string) : string := rtrim (ltrim s).

(** [s.replace(c, "")] for a one-character [c]. *)
Fixpoint remove_char (c : ascii) (s : string) : string :=
  match s with
  | EmptyString => EmptyString
  | String d s' =>
      if Ascii.eqb c d then remove_char c s' else String d (remove_char c s')
  end.

(** [s.startswith(p)], giving what follows the prefix. *)
Fixpoint strip_prefix (p s : string) : option string :=
  match p, s with
  | EmptyString, _ => Some s
  | String a p', String b s' =>
      if Ascii.eqb a b then strip_prefix p' s' else None
  | String _ _, EmptyString => None
  end.

(** [needle in hay]. *)
Fixpoint contains (needle hay : string) : bool :=
  match strip_prefix needle hay with
  | Some _ => true
  | None =>
      match hay with
      | EmptyString => false
      | String _ hay' => contains needle hay'
      end
  end.

(** [s.split(c)] for a one-character separator: never an empty list. *)
Fixpoint split (c : ascii) (s : string) : list string :=
  match s with
  | EmptyString => [EmptyString]
  | String d s' =>
      if Ascii.eqb c d then EmptyString :: split c s'
      else match split c s' with
           | x :: xs => String d x :: xs
           | [] => [String d EmptyString]
           end
  end.

(** The value of a decimal digit. *)
Definition digit_value (c : ascii) : Z := Z.of_N (code c) - 48.

(** The number a run of decimal digits denotes. *)
Fixpoint digits_value_from (acc : Z) (s : string) : Z :=
  match s with
  | EmptyString => acc
  | String c s' => digits_value_from (10 * acc + digit_value c) s'
  end.

Definition digits_value (s : string) : Z := digits_value_from 0 s.

(** [str(n)] for an [int]. *)
Definition str_of_int (n : Z) : string := NilZero.string_of_int (Z.to_int n).

(** The rule of [int()] and [float()] on underscores: one may stand only
    between two digits.  The text without its underscores, when the rule is
    kept. *)
Fixpoint drop_underscores_from (prev : ascii) (s : string) : option string :=
  match s with
  | EmptyString => if Ascii.eqb prev "_" then None else Some EmptyString
  | String c s' =>
      if Ascii.eqb c "_" then
        if is_digit prev then drop_underscores_from c s' else None
      else if Ascii.eqb prev "_" && negb (is_digit c) then None
      else option_map (String c) (drop_underscores_from c s')
  end.

Definition drop_underscores (s : string) : option string :=
  drop_underscores_from "000" s.

(** An optional sign at the head of a numeral: whether it is a minus, and
    the rest. *)
Definition take_sign (s : string) : bool * string :=
  match s with
  | String c r =>
      if Ascii.eqb c "-" then (true, r)
      else if Ascii.eqb c "+" then (false, r)
      else (false, s)
  | EmptyString => (false, s)
  end.

(** [int(s)] on a text, base ten: [None] stands for [ValueError]. *)
Definition py_int (s : string) : option Z :=
  match drop_underscores s with
  | None => None
  | Some t =>
      let '(neg, ds) := take_sign (trim t) in
      if negb (String.eqb ds "") && all_chars is_digit ds
      then Some (if neg then - digits_value ds else digits_value ds)%Z
      else None
  end.

(** A character that is no underscore; a character that is no whitespace. *)
Definition plain (c : ascii) : bool := negb (Ascii.eqb c "_").
Definition solid (c : ascii) : bool := negb (is_space c).

(** The text [r] does not start with a character of the class [p]. *)
Definition head_fails (p : ascii -> bool) (r : string) : Prop :=
  match r with
  | EmptyString => True
  | String c _ => p c = false
  end.

End Text.

(** ** Binary64 floating point *)

Module Float64.

Definition prec : Z := 53.
Definition emax : Z := 1024.

Definition add : spec_float -> spec_float -> spec_float := SFadd prec emax.
Definition sub : spec_float -> spec_float -> spec_float := SFsub prec emax.
Definition div : spec_float -> spec_float -> spec_float := SFdiv prec emax.
Definition abs : spec_float -> spec_float := SFabs.
Definition ltb : spec_float -> spec_float -> bool := SFltb.

(** [float(n)] for an [int] (the conversion [x / n] performs on [n]). *)
Definition of_int (n : Z) : spec_float := binary_normalize prec emax n 0 false.

(** [float(n)] where it may fail: [None] stands for the [OverflowError] of
    an integer too large for a float. *)
Definition of_int_checked (n : Z) : option spec_float :=
  match of_int n with
  | S754_infinity _ => None
  | x => Some x
  end.

(** [x ** 0.5], taken as the correctly rounded square root. *)
Definition sqrt : spec_float -> spec_float := SFsqrt prec emax.

(** [int(x)], the integer part: [None] stands for the [OverflowError] on
    an infinity and the [ValueError] on a NaN. *)
Definition to_int (x : spec_float) : option Z :=
  match x with
  | S754_zero _ => Some 0%Z
  | S754_finite s m e =>
      Some (cond_Zopp s
              match e with
              | Zneg p => (Zpos m / 2 ^ Zpos p)%Z
              | _ => (Zpos m * 2 ^ e)%Z
              end)
  | _ => None
  end.

(** The binary64 value nearest to [m * 10 ^ e], for [0 <= m], with the
    sign [neg]: what the interpreter's decimal-to-binary conversion gives.
    A negative exponent is a division of integers, rounded once from the
    quotient and the position of the remainder. *)
Definition of_decimal (neg : bool) (m e : Z) : spec_float :=
  match m with
  | Zpos _ =>
      if (0 <=? e)%Z
      then binary_normalize prec emax (cond_Zopp neg (m * 10 ^ e)) 0 false
      else
        let '(q, e', l) := SFdiv_core_binary prec emax m 0 (10 ^ (- e)) 0 in
        binary_round_aux prec emax neg q e' l
  | _ => S754_zero neg
  end.

(** The literal [0.01]. *)
Definition tolerance : spec_float := of_decimal false 1 (-2).

Definition is_exponent_mark (c : ascii) : bool :=
  Ascii.eqb c "e" || Ascii.eqb c "E".

(** A decimal numeral: sign, digits with an optional point (a digit on one
    side at least), an optional exponent; nothing may follow. *)
Definition parse_decimal (body : string) : option spec_float :=
  let '(neg, r) := Text.take_sign body in
  let '(ip, r1) := Text.span Text.is_digit r in
  let '(fp, r2) :=
    match Text.strip_prefix "." r1 with
    | Some r' => Text.span Text.is_digit r'
    | None => (EmptyString, r1)
    end in
  let mantissa := Text.digits_value (ip +:+ fp) in
  let scale := Z.of_nat (String.length fp) in
  if String.eqb ip "" && String.eqb fp "" then None
  else match r2 with
       | EmptyString => Some (of_decimal neg mantissa (- scale))
       | String c r3 =>
           if is_exponent_mark c then
             let '(eneg, r4) := Text.take_sign r3 in
             let '(ed, r5) := Text.span Text.is_digit r4 in
             if String.eqb ed "" then None
             else if String.eqb r5 "" then
               Some (of_decimal neg mantissa
                       (cond_Zopp eneg (Text.digits_value ed) - scale))
             else None
           else None
       end.

(** [inf], [infinity] and [nan], in any letter case, with an optional sign. *)
Definition parse_special (body : string) : option spec_float :=
  let '(neg, r) := Text.take_sign body in
  let l := Text.lower r in
  if String.eqb l "inf" || String.eqb l "infinity" then Some (S754_infinity neg)
  else if String.eqb l "nan" then Some S754_nan
  else None.

(** [float(s)] on a text: [None] stands for [ValueError]. *)
Definition py_float (s : string) : option spec_float :=
  match Text.drop_underscores s with
  | None => None
  | Some t =>
      let body := Text.trim t in
      match parse_decimal body with
      | Some x => Some x
      | None => parse_special body
      end
  end.

(** [n / d] rounded to the nearest integer, ties to the even one, for
    [0 <= n] and [0 < d]. *)
Definition div_round_half_even (n d : Z) : Z :=
  let q := (n / d)%Z in
  let r := (n mod d)%Z in
  match (2 * r ?= d)%Z with
  | Lt => q
  | Gt => (q + 1)%Z
  | Eq => if Z.even q then q else (q + 1)%Z
  end.

(** Two decimal digits, zero padded. *)
Definition two_digits (n : Z) : string :=
  if (n <? 10)%Z then "0" +:+ Text.str_of_int n else Text.str_of_int n.

(** [f"{x:.2f}"]: the exact value of [x] rounded to hundredths. *)
Definition format_2f (x : spec_float) : string :=
  match x with
  | S754_nan => "nan"
  | S754_infinity s => if s then "-inf" else "inf"
  | S754_zero s => if s then "-0.00" else "0.00"
  | S754_finite s m e =>
      let hundredths :=
        match e with
        | Zneg p => div_round_half_even (Zpos m * 100) (2 ^ Zpos p)
        | _ => (Zpos m * 100 * 2 ^ e)%Z
        end in
      (if s then "-" else "") +:+ Text.str_of_int (hundredths / 100)
        +:+ "." +:+ two_digits (hundredths mod 100)
  end.

(** [sum(xs)]: the start value is the integer [0], and adding the first
    float to it gives a float. *)
Definition sum (xs : list spec_float) : spec_float :=
  fold_left add xs (S754_zero false).

End Float64.

(** ** The answer comparison: [compare_answers] *)

(** [str(s).strip().replace(" ", "").replace("\n", "").replace("\r", "")]. *)
Definition clean (s : string) : string :=
  Text.remove_char "013" (Text.remove_char "010" (Text.remove_char " " (Text.strip s))).

Definition true_vals : list string := ["true"; "1"; "yes"].
Definition false_vals : list string := ["false"; "0"; "no"].

(** [s in l] for a list of texts. *)
Definition in_list (s : string) (l : list string) : bool :=
  existsb (String.eqb s) l.

(** [abs(a - b) < 0.01]. *)
Definition is_close (a b : spec_float) : bool :=
  Float64.ltb (Float64.abs (Float64.sub a b)) Float64.tolerance.

Definition compare_answers (actual expected : string) : bool :=
  let actual_clean := clean actual in
  let expected_clean := clean expected in
  if String.eqb (Text.lower actual_clean) (Text.lower expected_clean) then true
  else
    match Float64.py_float actual_clean, Float64.py_float expected_clean with
    | Some actual_num, Some expected_num => is_close actual_num expected_num
    | _, _ =>
        if in_list (Text.lower actual_clean) true_vals
           && in_list (Text.lower expected_clean) true_vals then true
        else if in_list (Text.lower actual_clean) false_vals
                && in_list (Text.lower expected_clean) false_vals then true
        else if Text.contains expected_clean actual_clean then true
        else false
    end.

(** *** The comparison as the specification words it *)

Module ComparatorSpec.

(** Trim, then drop every space, newline and carriage return. *)
Fixpoint drop_blanks (s : string) : string :=
  match s with
  | EmptyString => EmptyString
  | String c s' =>
      if Ascii.eqb c " " || Ascii.eqb c "010" || Ascii.eqb c "013"
      then drop_blanks s'
      else String c (drop_blanks s')
  end.

Definition normalize (s : string) : string := drop_blanks (Text.strip s).

(** A rule looks at the two normalized texts and either decides or does
    not apply. *)
Definition rule : Type := string -> string -> option bool.

Definition rule_exact : rule := fun a e =>
  if String.eqb (Text.lower a) (Text.lower e) then Some true else None.

(** The bound 0.01 as a float: 5764607523034235 / 2 ^ 59, the binary64
    number nearest to 1/100. *)
Definition hundredth : spec_float :=
  S754_finite false 5764607523034235 (-59).

(** [|x - y| < 0.01]. *)
Definition within_hundredth (x y : spec_float) : bool :=
  Float64.ltb (Float64.abs (Float64.sub x y)) hundredth.

Definition rule_numeric : rule := fun a e =>
  match Float64.py_float a, Float64.py_float e with
  | Some x, Some y => Some (within_hundredth x y)
  | _, _ => None
  end.

(** The two sets of synonyms, [{true, 1, yes}] and [{false, 0, no}]. *)
Definition says_true (s : string) : bool :=
  String.eqb s "true" || String.eqb s "1" || String.eqb s "yes".

Definition says_false (s : string) : bool :=
  String.eqb s "false" || String.eqb s "0" || String.eqb s "no".

Definition rule_boolean : rule := fun a e =>
  if (says_true (Text.lower a) && says_true (Text.lower e))
     || (says_false (Text.lower a) && says_false (Text.lower e))
  then Some true else None.

Definition rule_containment : rule := fun a e =>
  if Text.contains e a then Some true else None.

(** The first rule that applies decides; with none, there is no match. *)
Fixpoint first_applicable (rules : list rule) (a e : string) : bool :=
  match rules with
  | [] => false
  | r :: rest =>
      match r a e with
      | Some verdict => verdict
      | None => first_applicable rest a e
      end
  end.

Definition compare (actual expected : string) : bool :=
  first_applicable [rule_exact; rule_numeric; rule_boolean; rule_containment]
    (normalize actual) (normalize expected).

End ComparatorSpec.

(** ** Regular-expression searches

    Each pattern of the source is matched by a function of its own.  In all
    of them a greedy run is followed by a character outside the run's class,
    so the longest run is the only one a match can take. *)

Module Regex.

(** [re.search]: the match at the leftmost position that has one. *)
Fixpoint search {A : Type} (match_here : string -> option A) (s : string) : option A :=
  match match_here s with
  | Some a => Some a
  | None =>
      match s with
      | EmptyString => None
      | String _ s' => search match_here s'
      end
  end.

(** A run of one or more characters of a class, and what follows it. *)
Definition run1 (p : ascii -> bool) (s : string) : option (string * string) :=
  let '(u, r) := Text.span p s in
  match u with
  | EmptyString => None
  | _ => Some (u, r)
  end.

(** [def\s+(\w+)\s*\(\s*\)] at the head of [s]: the group. *)
Definition match_def (s : string) : option string :=
  r0 ← Text.strip_prefix "def" s;
  '(_, r1) ← run1 Text.is_space r0;
  '(name, r2) ← run1 Text.is_word r1;
  let '(_, r3) := Text.span Text.is_space r2 in
  r4 ← Text.strip_prefix "(" r3;
  let '(_, r5) := Text.span Text.is_space r4 in
  _ ← Text.strip_prefix ")" r5;
  Some name.

(** The classes [[\d\s.,]] and [[\d\s.,\-]]. *)
Definition is_list_char (c : ascii) : bool :=
  Text.is_digit c || Text.is_space c || Ascii.eqb c "." || Ascii.eqb c ",".

Definition is_signed_list_char (c : ascii) : bool :=
  is_list_char c || Ascii.eqb c "-".

(** [\[(CLASS+)\]] at the head of [s]: the group. *)
Definition match_list (class : ascii -> bool) (s : string) : option string :=
  r0 ← Text.strip_prefix "[" s;
  '(group, r1) ← run1 class r0;
  _ ← Text.strip_prefix "]" r1;
  Some group.

(** One of two literal alternatives, the first tried first. *)
Definition either (a b s : string) : option string :=
  match Text.strip_prefix a s with
  | Some r => Some r
  | None => Text.strip_prefix b s
  end.

(** [(?:between|from)\s+(\d+)\s+(?:and|to)\s+(\d+)] at the head of [s]:
    the two groups. *)
Definition match_range (s : string) : option (string * string) :=
  r0 ← either "between" "from" s;
  '(_, r1) ← run1 Text.is_space r0;
  '(lo, r2) ← run1 Text.is_digit r1;
  '(_, r3) ← run1 Text.is_space r2;
  r4 ← either "and" "to" r3;
  '(_, r5) ← run1 Text.is_space r4;
  '(hi, _) ← run1 Text.is_digit r5;
  Some (lo, hi).

End Regex.

(** ** The answer validator: [validate_and_fix_problem] *)

(** [range(a, b)]. *)
Definition py_range (a b : Z) : list Z :=
  map (fun i => (a + Z.of_nat i)%Z) (seq 0 (Z.to_nat (b - a))).

(** [sum] over integers. *)
Definition sum_int (l : list Z) : Z := fold_left Z.add l 0%Z.

(** [int(n ** 0.5)]: the power converts [n] to a float first. *)
Definition int_root (n : Z) : option Z :=
  x ← Float64.of_int_checked n;
  Float64.to_int (Float64.sqrt x).

(** The loop of [is_prime]: no [i] from 2 to [root] divides [n]. *)
Definition no_divisor (n root : Z) : bool :=
  forallb (fun i => negb (n mod i =? 0)%Z) (py_range 2 (root + 1)).

(** The local [is_prime] of the range-sum branch: [None] stands for the
    [OverflowError] of [n ** 0.5]. *)
Definition is_prime (n : Z) : option bool :=
  if (n <? 2)%Z then Some false
  else
    root ← int_root n;
    Some (no_divisor n root).

(** [[i for i in numbers if is_prime(i)]]: the first exception ends it. *)
Fixpoint keep_primes (numbers : list Z) : option (list Z) :=
  match numbers with
  | [] => Some []
  | i :: rest =>
      verdict ← is_prime i;
      primes ← keep_primes rest;
      Some (if verdict : bool then i :: primes else primes)
  end.

(** [max(l)] and [min(l)]: [None] stands for the [ValueError] on []. *)
Definition py_max (l : list Z) : option Z :=
  match l with
  | [] => None
  | x :: xs => Some (fold_left Z.max xs x)
  end.

Definition py_min (l : list Z) : option Z :=
  match l with
  | [] => None
  | x :: xs => Some (fold_left Z.min xs x)
  end.

(** The order of [sorted(..., reverse=True)]. *)
Definition descending (x y : Z) : Prop := (y <= x)%Z.

#[global] Instance descending_dec (x y : Z) : Decision (descending x y).
Proof. unfold descending. apply _. Defined.

(** [sorted(set(l), reverse=True)]. *)
Definition sorted_distinct_desc (l : list Z) : list Z :=
  merge_sort descending (remove_dups l).

(** [d.get(k, "")]. *)
Definition get (k : string) (d : gmap string string) : string :=
  default "" (d !! k).

(** [d["expected_answer"] = v], done only when [differs]. *)
Definition fix_answer (differs : bool) (correct_answer : string)
    (problem_data : gmap string string) : gmap string string :=
  if differs then <["expected_answer" := correct_answer]> problem_data
  else problem_data.

(** The [try] blocks of the three branches: [None] stands for a raised
    exception, which the [except] clause answers by leaving the problem as
    it is. *)

(** [numbers_match[0].replace(' ', '').split(',')]. *)
Definition list_items (group : string) : list string :=
  Text.split "," (Text.remove_char " " group).

(** The average, formatted: the [correct_answer] of the first branch. *)
Definition average_answer (group : string) : option string :=
  numbers ← mapM (fun x => Float64.py_float (Text.strip x)) (list_items group);
  let correct_avg :=
    Float64.div (Float64.sum numbers) (Float64.of_int (Z.of_nat (length numbers))) in
  Some (Float64.format_2f correct_avg).

(** [abs(float(correct_answer) - float(expected)) > 0.01]. *)
Definition beyond_tolerance (correct_answer expected : string) : option bool :=
  a ← Float64.py_float correct_answer;
  e ← Float64.py_float expected;
  Some (Float64.ltb Float64.tolerance (Float64.abs (Float64.sub a e))).

Definition try_average (group expected : string)
    (problem_data : gmap string string) : option (gmap string string) :=
  correct_answer ← average_answer group;
  differs ← beyond_tolerance correct_answer expected;
  Some (fix_answer differs correct_answer problem_data).

(** The description asks for the primes of its range: the third test of
    the chain is the one that holds. *)
Definition sums_primes (d : string) : bool :=
  negb (Text.contains "even" d) && negb (Text.contains "odd" d)
  && Text.contains "prime" d.

(** The sum the range-sum branch recomputes; [d] is the lower-cased
    description. *)
Definition range_sum (d : string) (start stop : Z) : option Z :=
  let numbers := py_range start (stop + 1) in
  if Text.contains "even" d then
    Some (sum_int (List.filter (fun i => (i mod 2 =? 0)%Z) numbers))
  else if Text.contains "odd" d then
    Some (sum_int (List.filter (fun i => (i mod 2 =? 1)%Z) numbers))
  else if Text.contains "prime" d then
    primes ← keep_primes numbers;
    Some (sum_int primes)
  else Some (sum_int numbers).

Definition try_range_sum (d : string) (groups : string * string)
    (expected : string) (problem_data : gmap string string)
    : option (gmap string string) :=
  start ← Text.py_int (fst groups);
  stop ← Text.py_int (snd groups);
  correct_sum ← range_sum d start stop;
  let correct_answer := Text.str_of_int correct_sum in
  Some (fix_answer (negb (String.eqb correct_answer expected)) correct_answer
          problem_data).

(** The value the list branch recomputes. *)
Definition extremum (d : string) (numbers : list Z) : option Z :=
  if Text.contains "second largest" d then
    let sorted_nums := sorted_distinct_desc numbers in
    if (1 <? length sorted_nums)%nat then sorted_nums !! 1%nat
    else sorted_nums !! 0%nat
  else if Text.contains "largest" d || Text.contains "maximum" d then
    py_max numbers
  else py_min numbers.

Definition try_extremum (d group expected : string)
    (problem_data : gmap string string) : option (gmap string string) :=
  numbers ← mapM (fun x => Text.py_int (Text.strip x)) (list_items group);
  if Text.contains "second largest" d
     || Text.contains "largest" d || Text.contains "maximum" d
     || Text.contains "smallest" d || Text.contains "minimum" d
  then
    value ← extremum d numbers;
    let correct_answer := Text.str_of_int value in
    Some (fix_answer (negb (String.eqb correct_answer expected)) correct_answer
            problem_data)
  else Some problem_data.

(** Which branch of the [if]/[elif] chain a description takes. *)
Inductive archetype := Average | RangeSum | Extremum | Unrecognized.

Definition classify (description : string) : archetype :=
  let d := Text.lower description in
  if Text.contains "average" d || Text.contains "mean" d then Average
  else if Text.contains "sum" d && Text.contains "between" d then RangeSum
  else if existsb (fun word => Text.contains word d)
            ["largest"; "smallest"; "maximum"; "minimum"] then Extremum
  else Unrecognized.

Definition validate_and_fix_problem (problem_data : gmap string string)
    : gmap string string :=
  let description := get "description" problem_data in
  let expected := get "expected_answer" problem_data in
  let d := Text.lower description in
  let attempt :=
    match classify description with
    | Average =>
        numbers_group ← Regex.search (Regex.match_list Regex.is_list_char) description;
        try_average numbers_group expected problem_data
    | RangeSum =>
        range_groups ← Regex.search Regex.match_range d;
        try_range_sum d range_groups expected problem_data
    | Extremum =>
        numbers_group ← Regex.search (Regex.match_list Regex.is_signed_list_char) description;
        try_extremum d numbers_group expected problem_data
    | Unrecognized => None
    end in
  default problem_data attempt.

(** *** The recomputed answers as the specification words them *)

Module ValidatorSpec.

(** The members of a range sum: every integer when the description names
    no kind, else the kind it names, [even] before [odd] before [prime]. *)
Definition kept (d : string) (i : Z) : Prop :=
  if Text.contains "even" d then (2 | i)%Z
  else if Text.contains "odd" d then ~ (2 | i)%Z
  else if Text.contains "prime" d then Z.prime i
  else True.

(** [total] is the sum of the integers of the inclusive range [[lo, hi]]
    that are kept: the sum of a list that holds each of them once. *)
Definition is_range_sum (d : string) (lo hi total : Z) : Prop :=
  exists members : list Z,
    List.NoDup members
    /\ (forall i, In i members <-> (lo <= i <= hi)%Z /\ kept d i)
    /\ total = sum_int members.

(** The arithmetic mean of a list of floats: their sum over their count. *)
Definition mean (numbers : list spec_float) : spec_float :=
  Float64.div (Float64.sum numbers)
    (Float64.of_int (Z.of_nat (length numbers))).

(** [m] is the largest member of [l]. *)
Definition is_largest (l : list Z) (m : Z) : Prop :=
  In m l /\ forall x, In x l -> (x <= m)%Z.

(** [m] is the smallest member of [l]. *)
Definition is_smallest (l : list Z) (m : Z) : Prop :=
  In m l /\ forall x, In x l -> (m <= x)%Z.

(** [v] is the second largest of the distinct values of [l]: the largest
    of the values below the largest, or the largest itself when no value is
    below it. *)
Definition is_second_largest (l : list Z) (v : Z) : Prop :=
  exists m,
    is_largest l m
    /\ ((is_largest (List.filter (fun x => (x <? m)%Z) l) v)
        \/ (List.filter (fun x => (x <? m)%Z) l = [] /\ v = m)).

(** The extremum a description asks for: [second largest] before
    [largest] or [maximum], before [smallest] or [minimum]. *)
Definition is_required_extremum (d : string) (l : list Z) (v : Z) : Prop :=
  if Text.contains "second largest" d then is_second_largest l v
  else if Text.contains "largest" d || Text.contains "maximum" d
       then is_largest l v
       else is_smallest l v.

End ValidatorSpec.

(** ** The runner: [execute_code_no_input] *)

(** The values the fields of a result hold. *)
Inductive pyval :=
  | VBool (b : bool)
  | VStr (s : string)
  | VNone.

(** What a step of the interpreter ends with: a value, or a raised
    [Exception] with its message [str(e)]. *)
Inductive outcome (A : Type) :=
  | Returned (a : A)
  | Raised (message : string).

Arguments Returned {A} a.
Arguments Raised {A} message.

(** What the entry point returned, as far as the runner looks at it: [None],
    or an object and what [str] makes of it. *)
Inductive returned :=
  | RNone
  | RObject (rendering : outcome string).

(** [str(result)]. *)
Definition py_str (result : returned) : outcome string :=
  match result with
  | RNone => Returned "None"
  | RObject rendering => rendering
  end.

(** One call of the entry point under the two redirections: the text the
    two buffers hold when the call ends, and how it ends. *)
Record invocation := {
  printed : string;
  diagnostics : string;
  completion : outcome returned
}.

(** The host interpreter, as the runner uses it.  [exec] runs a submission
    in the restricted globals and gives the globals it leaves; [defines]
    is [name in safe_globals]; [call] is [safe_globals[name]()]. *)
Record Interpreter := {
  namespace : Type;
  exec : string -> outcome namespace;
  defines : namespace -> string -> bool;
  call : namespace -> string -> invocation
}.

(** What the runner asks of the interpreter, in order. *)
Inductive event :=
  | EvExec (code : string)
  | EvLookup (name : string)
  | EvCall (name : string).

(** The result of the outermost [except] clause. *)
Definition internal_error_result (expected_answer message : string)
    : gmap string pyval :=
  list_to_map
    [("success", VBool false); ("output", VStr "");
     ("error", VStr message); ("passed", VBool false);
     ("expected", VStr expected_answer); ("actual", VStr "")].

(** The six fields of a result. *)
Definition result_fields : gset string :=
  {[ "success"; "output"; "error"; "passed"; "expected"; "actual" ]}.

(** A result holds exactly the six fields, each with a value of its kind,
    and [expected] is the expected answer it was given. *)
Definition fully_populated (expected_answer : string) (r : gmap string pyval)
    : Prop :=
  dom r = result_fields
  /\ r !! "expected" = Some (VStr expected_answer)
  /\ (exists b, r !! "success" = Some (VBool b))
  /\ (exists b, r !! "passed" = Some (VBool b))
  /\ (exists s, r !! "output" = Some (VStr s))
  /\ (exists s, r !! "actual" = Some (VStr s))
  /\ (r !! "error" = Some VNone \/ exists s, r !! "error" = Some (VStr s)).

Section Runner.

Variable I : Interpreter.

(** The [except] clause of the call. *)
Definition runtime_error_result (expected_answer : string) (inv : invocation)
    (error_msg : string) : gmap string pyval :=
  list_to_map
    [("success", VBool false); ("output", VStr (Text.strip (printed inv)));
     ("error", VStr ("Runtime error: " +:+ error_msg)); ("passed", VBool false);
     ("expected", VStr expected_answer);
     ("actual", VStr (Text.strip (printed inv)))].

(** The [try] block of the call, from the point where the entry point has
    returned [result]. *)
Definition judge (expected_answer : string) (inv : invocation)
    (result : returned) : gmap string pyval :=
  let printed_output := Text.strip (printed inv) in
  let error_output := Text.strip (diagnostics inv) in
  if negb (String.eqb error_output "") then
    match (if negb (String.eqb printed_output "") then Returned printed_output
           else py_str result) with
    | Raised error_msg => runtime_error_result expected_answer inv error_msg
    | Returned actual =>
        list_to_map
          [("success", VBool false); ("output", VStr printed_output);
           ("error", VStr error_output); ("passed", VBool false);
           ("expected", VStr expected_answer); ("actual", VStr actual)]
    end
  else
    match (match result with
           | RNone => Returned printed_output
           | RObject _ => py_str result
           end) with
    | Raised error_msg => runtime_error_result expected_answer inv error_msg
    | Returned actual_output =>
        let passed := compare_answers actual_output expected_answer in
        list_to_map
          [("success", VBool true); ("output", VStr actual_output);
           ("expected", VStr expected_answer); ("actual", VStr actual_output);
           ("error", VNone); ("passed", VBool passed)]
    end.

(** The runner: the requests it made of the interpreter, and its result. *)
Definition execute_code_no_input (code expected_answer language : string)
    : list event * gmap string pyval :=
  if String.eqb language "python" then
    match Regex.search Regex.match_def code with
    | None =>
        ([], list_to_map
          [("success", VBool false); ("output", VStr "");
           ("error", VStr "Function must have NO parameters: def solution():");
           ("passed", VBool false);
           ("expected", VStr expected_answer); ("actual", VStr "")])
    | Some func_name =>
        match exec I code with
        | Raised e =>
            ([EvExec code], list_to_map
              [("success", VBool false); ("output", VStr "");
               ("error", VStr ("Code compilation error: " +:+ e));
               ("passed", VBool false);
               ("expected", VStr expected_answer); ("actual", VStr "")])
        | Returned safe_globals =>
            if negb (defines I safe_globals func_name) then
              ([EvExec code; EvLookup func_name], list_to_map
                [("success", VBool false); ("output", VStr "");
                 ("error", VStr ("Function '" +:+ func_name +:+ "' not found in code"));
                 ("passed", VBool false);
                 ("expected", VStr expected_answer); ("actual", VStr "")])
            else
              let inv := call I safe_globals func_name in
              ([EvExec code; EvLookup func_name; EvCall func_name],
               match completion inv with
               | Raised error_msg =>
                   runtime_error_result expected_answer inv error_msg
               | Returned result => judge expected_answer inv result
               end)
        end
    end
  else if String.eqb language "javascript" then
    ([], list_to_map
      [("success", VBool false); ("output", VStr "");
       ("error", VStr "JavaScript execution not implemented yet");
       ("passed", VBool false);
       ("expected", VStr expected_answer); ("actual", VStr "")])
  else if String.eqb language "java" then
    ([], list_to_map
      [("success", VBool false); ("output", VStr "");
       ("error", VStr "Java execution not implemented yet");
       ("passed", VBool false);
       ("expected", VStr expected_answer); ("actual", VStr "")])
  else
    ([], list_to_map
      [("success", VBool false); ("output", VStr "");
       ("error", VStr ("Unsupported language: " +:+ language));
       ("passed", VBool false);
       ("expected", VStr expected_answer); ("actual", VStr "")]).

(** The one path on which the answer is compared: the language is Python,
    the submission has an entry point, it compiles, the entry point is
    defined, the call returns, the trimmed diagnostic text is empty, and
    [actual] is the text that is compared with the expected answer. *)
Definition success_path (code language actual : string) : Prop :=
  language = "python"
  /\ exists name ns result,
       Regex.search Regex.match_def code = Some name
       /\ exec I code = Returned ns
       /\ defines I ns name = true
       /\ completion (call I ns name) = Returned result
       /\ Text.strip (diagnostics (call I ns name)) = ""
       /\ match result with
          | RNone => actual = Text.strip (printed (call I ns name))
          | RObject rendering => rendering = Returned actual
          end.

End Runner.

(** A toy interpreter for closed examples: globals are the list of names a
    submission leaves defined. *)
Module Toy.

Definition newline : string := String "010" "".

(** An interpreter under which every submission defines the names [names],
    and every call ends as [inv]. *)
Definition always (names : list string) (inv : invocation) : Interpreter := {|
  namespace := list string;
  exec := fun _ => Returned names;
  defines := fun ns name => in_list name ns;
  call := fun _ _ => inv
|}.

(** An interpreter under which no submission compiles. *)
Definition broken (message : string) : Interpreter := {|
  namespace := unit;
  exec := fun _ => Raised message;
  defines := fun _ _ => false;
  call := fun _ _ =>
    {| printed := ""; diagnostics := ""; completion := Raised message |}
|}.

(** Calls used in the examples. *)

(** The entry point returns [5]; a lone newline went to the diagnostic
    stream. *)
Definition newline_on_stderr : invocation := {|
  printed := "";
  diagnostics := newline;
  completion := Returned (RObject (Returned "5"))
|}.

(** The entry point returns [5] after a warning on the diagnostic stream. *)
Definition warns_and_returns : invocation := {|
  printed := "";
  diagnostics := "DeprecationWarning: old call" +:+ newline;
  completion := Returned (RObject (Returned "5"))
|}.

(** The entry point raises after a warning on the diagnostic stream. *)
Definition warns_and_raises : invocation := {|
  printed := "";
  diagnostics := "DeprecationWarning: old call" +:+ newline;
  completion := Raised "division by zero"
|}.

(** The entry point prints [hello] and returns [None]. *)
Definition prints_hello : invocation := {|
  printed := "hello" +:+ newline;
  diagnostics := "";
  completion := Returned RNone
|}.

(** The entry point returns [5] and writes nothing. *)
Definition returns_five : invocation := {|
  printed := "";
  diagnostics := "";
  completion := Returned (RObject (Returned "5"))
|}.

(** A submission with three definitions; the first has a parameter. *)
Definition three_functions : string :=
  "def helper(x):" +:+ newline +:+ "    return x + 1" +:+ newline
  +:+ "def compute():" +:+ newline +:+ "    return helper(4)" +:+ newline
  +:+ "def solution():" +:+ newline +:+ "    return 0" +:+ newline.

(** Problems used in the examples: a description and a claimed answer. *)
Definition problem (description expected_answer : string) : gmap string string :=
  <["description" := description]> (<["expected_answer" := expected_answer]> ∅).

Definition primes_to_fifteen : gmap string string :=
  problem "sum of all prime numbers between 1 and 15" "40".

Definition average_claimed_three : gmap string string :=
  problem "average of [1,2,3,4]" "3".

Definition second_largest_claimed_42 : gmap string string :=
  problem "Find the second largest number in the list [15, 8, 23, 42, 4, 16]" "42".

End Toy.

(** ** Shapes of text, as the claims word them *)

Module Shape.

Definition blank (s : string) : Prop := Text.all_chars Text.is_space s = true.

Definition identifier (s : string) : Prop :=
  s <> "" /\ Text.all_chars Text.is_word s = true.

(** [code] holds, right after [pre], a function definition with no
    parameter: [def], blanks, the name, an empty pair of parentheses. *)
Definition def_at (pre name code : string) : Prop :=
  exists ws1 ws2 ws3 post,
    code = pre +:+ "def" +:+ ws1 +:+ name +:+ ws2 +:+ "(" +:+ ws3 +:+ ")" +:+ post
    /\ ws1 <> "" /\ blank ws1 /\ identifier name /\ blank ws2 /\ blank ws3.

(** No zero-parameter definition anywhere in the text. *)
Definition no_def (code : string) : Prop :=
  forall pre name, ~ def_at pre name code.

(** [name] is the name of the zero-parameter definition that comes first
    in the text. *)
Definition first_def (name code : string) : Prop :=
  exists pre,
    def_at pre name code
    /\ forall pre' name', def_at pre' name' code ->
         (String.length pre <= String.length pre')%nat.

End Shape.

(** * Facts about text *)

Module TextFacts.
Import Text.

Lemma append_nil_r (s : string) : s +:+ "" = s.
Proof. induction s as [|c s IH]; simpl; [reflexivity | now rewrite IH]. Qed.

Lemma append_assoc (a b c : string) : (a +:+ b) +:+ c = a +:+ b +:+ c.
Proof. induction a as [|x a IH]; simpl; [reflexivity | now rewrite IH]. Qed.

Lemma length_append (a b : string) :
  String.length (a +:+ b) = (String.length a + String.length b)%nat.
Proof. induction a as [|x a IH]; simpl; [reflexivity | now rewrite IH]. Qed.

Lemma append_inv_head (a b c : string) : a +:+ b = a +:+ c -> b = c.
Proof.
  induction a as [|x a IH]; simpl; intros H; [exact H |].
  injection H as H. now apply IH.
Qed.

(** Two splits of one text at the same length are the same split. *)
Lemma append_same_length (a b c d : string) :
  a +:+ b = c +:+ d -> String.length a = String.length c -> a = c /\ b = d.
Proof.
  revert c. induction a as [|x a IH]; intros [|y c]; simpl; intros H L;
    try discriminate.
  - now split.
  - injection H as -> H. injection L as L.
    destruct (IH c H L) as [-> ->]. now split.
Qed.

Lemma all_chars_append (p : ascii -> bool) (a b : string) :
  all_chars p (a +:+ b) = all_chars p a && all_chars p b.
Proof.
  induction a as [|x a IH]; simpl; [reflexivity |].
  rewrite IH. now rewrite andb_assoc.
Qed.

(** *** [span] takes the longest run *)

Lemma span_spec (p : ascii -> bool) (s u r : string) :
  span p s = (u, r) ->
  s = u +:+ r /\ all_chars p u = true /\ head_fails p r.
Proof.
  revert u r. induction s as [|c s IH]; simpl; intros u r H.
  - injection H as <- <-. now repeat split.
  - destruct (p c) eqn:Hc.
    + destruct (span p s) as [u' r'] eqn:Hs. injection H as <- <-.
      destruct (IH u' r' eq_refl) as (-> & Hall & Hhead).
      simpl. rewrite Hc, Hall. now repeat split.
    + injection H as <- <-. simpl. now repeat split.
Qed.

Lemma span_append (p : ascii -> bool) (u r : string) :
  all_chars p u = true -> head_fails p r -> span p (u +:+ r) = (u, r).
Proof.
  induction u as [|c u IH]; simpl; intros Hall Hhead.
  - destruct r as [|d r]; simpl in *; [reflexivity | now rewrite Hhead].
  - apply andb_prop in Hall as [Hc Hall]. rewrite Hc.
    now rewrite (IH Hall Hhead).
Qed.

Lemma head_fails_append (p : ascii -> bool) (u r : string) :
  u <> "" -> (forall c, In c (list_ascii_of_string u) -> p c = false) ->
  head_fails p (u +:+ r).
Proof.
  destruct u as [|c u]; [congruence |]. intros _ H. simpl.
  apply H. simpl. now left.
Qed.

(** *** Prefixes and containment *)

Lemma strip_prefix_Some (p s r : string) :
  strip_prefix p s = Some r <-> s = p +:+ r.
Proof.
  revert s. induction p as [|a p IH]; intros s; simpl.
  - split; [now intros [= ->] | now intros ->].
  - destruct s as [|b s].
    + split; [discriminate | discriminate].
    + destruct (Ascii.eqb a b) eqn:E.
      * apply Ascii.eqb_eq in E as ->. rewrite IH. split.
        -- now intros ->.
        -- now intros [= ->].
      * apply Ascii.eqb_neq in E. split; [discriminate |].
        intros [= -> _]. congruence.
Qed.

Lemma strip_prefix_append (p r : string) : strip_prefix p (p +:+ r) = Some r.
Proof. now apply strip_prefix_Some. Qed.

Lemma contains_spec (needle hay : string) :
  contains needle hay = true <->
  exists pre post, hay = pre +:+ needle +:+ post.
Proof.
  induction hay as [|c hay IH]; simpl.
  - destruct (strip_prefix needle "") as [r|] eqn:E.
    + apply strip_prefix_Some in E. split; [| reflexivity].
      intros _. now exists "", r.
    + split; [discriminate |]. intros ([|x pre] & post & H); simpl in H.
      * apply strip_prefix_Some in H. congruence.
      * discriminate.
  - destruct (strip_prefix needle (String c hay)) as [r|] eqn:E.
    + apply strip_prefix_Some in E. split; [| reflexivity].
      intros _. now exists "", r.
    + rewrite IH. split.
      * intros (pre & post & ->). now exists (String c pre), post.
      * intros ([|x pre] & post & H); simpl in H.
        -- apply strip_prefix_Some in H. congruence.
        -- injection H as -> ->. now exists pre, post.
Qed.

(** *** Character classes do not overlap where the patterns need it *)

Ltac by_cases_on_char c :=
  destruct c as [[] [] [] [] [] [] [] []]; vm_compute;
  first [congruence | intros; split; congruence].

Lemma space_not_word (c : ascii) : is_space c = true -> is_word c = false.
Proof. by_cases_on_char c. Qed.

Lemma word_not_space (c : ascii) : is_word c = true -> is_space c = false.
Proof. by_cases_on_char c. Qed.

Lemma space_not_digit (c : ascii) : is_space c = true -> is_digit c = false.
Proof. by_cases_on_char c. Qed.

Lemma digit_not_space (c : ascii) : is_digit c = true -> is_space c = false.
Proof. by_cases_on_char c. Qed.

End TextFacts.

(** * The answer comparison *)

Module ComparatorFacts.
Import ComparatorSpec.

(** The three successive replacements drop exactly the blanks. *)
Lemma replacements_drop_blanks (t : string) :
  Text.remove_char "013" (Text.remove_char "010" (Text.remove_char " " t))
  = drop_blanks t.
Proof.
  induction t as [|c t IH]; cbn [Text.remove_char drop_blanks]; [reflexivity |].
  rewrite (Ascii.eqb_sym c " "), (Ascii.eqb_sym c "010"), (Ascii.eqb_sym c "013").
  destruct (Ascii.eqb " " c); cbn [orb Text.remove_char]; [exact IH |].
  destruct (Ascii.eqb "010" c); cbn [orb Text.remove_char]; [exact IH |].
  destruct (Ascii.eqb "013" c); cbn [orb Text.remove_char]; [exact IH |].
  now rewrite IH.
Qed.

Lemma clean_normalize (s : string) : clean s = normalize s.
Proof. unfold clean, normalize. apply replacements_drop_blanks. Qed.

(** Rule by rule, on the normalized texts. *)

Lemma exact_match_wins (actual expected : string) :
  Text.lower (clean actual) = Text.lower (clean expected) ->
  compare_answers actual expected = true.
Proof.
  intros H. unfold compare_answers. rewrite H.
  now rewrite String.eqb_refl.
Qed.

(** Two numbers are judged by the tolerance alone: containment is not
    consulted. *)
Lemma numeric_rule_decides (actual expected : string) (a e : spec_float) :
  Text.lower (clean actual) <> Text.lower (clean expected) ->
  Float64.py_float (clean actual) = Some a ->
  Float64.py_float (clean expected) = Some e ->
  compare_answers actual expected = is_close a e.
Proof.
  intros Hne Ha He. unfold compare_answers.
  apply String.eqb_neq in Hne. now rewrite Hne, Ha, He.
Qed.

(** The tables of the code are the sets and the bound of the
    specification. *)

Lemma true_vals_says_true (s : string) : in_list s true_vals = says_true s.
Proof.
  unfold in_list, true_vals, says_true. cbn [existsb].
  now rewrite orb_false_r, orb_assoc.
Qed.

Lemma false_vals_says_false (s : string) :
  in_list s false_vals = says_false s.
Proof.
  unfold in_list, false_vals, says_false. cbn [existsb].
  now rewrite orb_false_r, orb_assoc.
Qed.

Lemma tolerance_is_hundredth : Float64.tolerance = hundredth.
Proof. vm_compute. reflexivity. Qed.

(** No float with a mantissa of 53 digits is nearer to 1/100: the distance
    is at most half a unit of the last digit, 2 ^ -60. *)
Lemma hundredth_is_nearest :
  hundredth = S754_finite false 5764607523034235 (-59)
  /\ digits2_pos 5764607523034235 = 53%positive
  /\ (Z.abs (100 * 5764607523034235 - 2 ^ 59) * 2 ^ 60 <= 100 * 2 ^ 59)%Z.
Proof. repeat split; vm_compute; congruence. Qed.

Lemma is_close_within_hundredth (x y : spec_float) :
  is_close x y = within_hundredth x y.
Proof. unfold is_close, within_hundredth. now rewrite tolerance_is_hundredth. Qed.

End ComparatorFacts.

(** C2. [compare_answers] is the ordered strategy of the specification:
    on the two normalized texts (trimmed, then without spaces, newlines and
    carriage returns) the first rule that applies decides, in the order
    case-insensitive equality, numeric tolerance [|a - b| < 0.01] when both
    parse as floats, boolean synonyms (both in [{true, 1, yes}] or both in
    [{false, 0, no}]), containment of the expected text in the actual one,
    and no match otherwise.  The sets and the bound are those of
    [ComparatorSpec], written there on their own.  The five comparisons the
    specification lists come out as it says. *)
Theorem compare_answers_ordered_strategy :
  (forall actual expected : string,
     compare_answers actual expected = ComparatorSpec.compare actual expected)
  /\ compare_answers "42" "42.0" = true
  /\ compare_answers "The answer is 12" "12" = true
  /\ compare_answers "100" "10" = false
  /\ Text.contains (clean "10") (clean "100") = true
  /\ compare_answers "True" "yes" = true
  /\ compare_answers "cat" "dog" = false.
Proof.
  split; [| repeat split; vm_compute; reflexivity].
  intros actual expected.
  unfold compare_answers, ComparatorSpec.compare.
  rewrite <- !ComparatorFacts.clean_normalize.
  set (a := clean actual). set (e := clean expected).
  cbn [ComparatorSpec.first_applicable].
  unfold ComparatorSpec.rule_exact, ComparatorSpec.rule_numeric,
    ComparatorSpec.rule_boolean, ComparatorSpec.rule_containment.
  rewrite !ComparatorFacts.true_vals_says_true,
    !ComparatorFacts.false_vals_says_false.
  destruct (String.eqb (Text.lower a) (Text.lower e)); [reflexivity |].
  destruct (Float64.py_float a) as [x|], (Float64.py_float e) as [y|];
    try apply ComparatorFacts.is_close_within_hundredth;
    destruct (ComparatorSpec.says_true (Text.lower a)
              && ComparatorSpec.says_true (Text.lower e));
    destruct (ComparatorSpec.says_false (Text.lower a)
              && ComparatorSpec.says_false (Text.lower e));
    destruct (Text.contains e a); reflexivity.
Qed.

(** * The searches *)

Module RegexFacts.
Import Text TextFacts Regex.

Lemma run1_Some (p : ascii -> bool) (s u r : string) :
  run1 p s = Some (u, r) <->
  u <> "" /\ s = u +:+ r /\ all_chars p u = true /\ head_fails p r.
Proof.
  unfold run1. split.
  - destruct (span p s) as [u' r'] eqn:E. apply span_spec in E.
    destruct u' as [|c u']; [discriminate |].
    intros [= <- <-]. split; [discriminate | exact E].
  - intros (Hne & -> & Hall & Hhead). rewrite (span_append p u r Hall Hhead).
    destruct u; [congruence | reflexivity].
Qed.

(** [search] finds the match at the leftmost position that has one. *)
Lemma search_Some {A : Type} (m : string -> option A) (s : string) (a : A) :
  search m s = Some a <->
  exists pre post,
    s = pre +:+ post /\ m post = Some a
    /\ forall pre' post', s = pre' +:+ post' ->
         (String.length pre' < String.length pre)%nat -> m post' = None.
Proof.
  split.
  - induction s as [|c s IH]; simpl; destruct (m _) as [a'|] eqn:E.
    + intros [= ->]. exists "", "". repeat split; [exact E |].
      simpl. intros; lia.
    + discriminate.
    + intros [= ->]. exists "", (String c s). repeat split; [exact E |].
      simpl. intros; lia.
    + intros H. destruct (IH H) as (pre & post & -> & Hm & Hmin).
      exists (String c pre), post. repeat split; [exact Hm |].
      intros [|d pre'] post'; simpl.
      * intros <- _. exact E.
      * intros [= <- Heq] Hlen. apply (Hmin pre' post' Heq). lia.
  - intros (pre & post & -> & Hm & Hmin). induction pre as [|c pre IH].
    + simpl. destruct post; simpl; now rewrite Hm.
    + simpl. rewrite (Hmin "" (String c (pre +:+ post)) eq_refl); [| simpl; lia].
      apply IH. intros pre' post' Heq Hlen.
      apply (Hmin (String c pre') post'); [simpl; now rewrite Heq | simpl; lia].
Qed.

Lemma search_None {A : Type} (m : string -> option A) (s : string) :
  search m s = None <-> forall pre post, s = pre +:+ post -> m post = None.
Proof.
  split.
  - induction s as [|c s IH]; simpl; destruct (m _) eqn:E; try discriminate.
    + intros _ [|d pre] post; simpl; [now intros <- | discriminate].
    + intros H [|d pre] post; simpl; [now intros <- |].
      intros [= _ Heq]. now apply (IH H pre).
  - intros H. induction s as [|c s IH]; simpl.
    + now rewrite (H "" "" eq_refl).
    + rewrite (H "" (String c s) eq_refl). apply IH.
      intros pre post ->. now apply (H (String c pre) post).
Qed.

(** The zero-parameter definition pattern matches at the head of a text
    exactly when the text has the shape there. *)
Lemma match_def_shape (s name : string) :
  match_def s = Some name <-> Shape.def_at "" name s.
Proof.
  unfold match_def, Shape.def_at, Shape.blank, Shape.identifier. split.
  - destruct (strip_prefix "def" s) as [r0|] eqn:E0; [| discriminate].
    apply strip_prefix_Some in E0 as ->. cbn [mbind option_bind].
    destruct (run1 is_space r0) as [[ws1 r1]|] eqn:E1; [| discriminate].
    apply run1_Some in E1 as (Hne1 & -> & Hws1 & _). cbn [mbind option_bind].
    destruct (run1 is_word r1) as [[nm r2]|] eqn:E2; [| discriminate].
    apply run1_Some in E2 as (Hne2 & -> & Hnm & _). cbn [mbind option_bind].
    destruct (span is_space r2) as [ws2 r3] eqn:E3.
    apply span_spec in E3 as (-> & Hws2 & _).
    destruct (strip_prefix "(" r3) as [r4|] eqn:E4; [| discriminate].
    apply strip_prefix_Some in E4 as ->. cbn [mbind option_bind].
    destruct (span is_space r4) as [ws3 r5] eqn:E5.
    apply span_spec in E5 as (-> & Hws3 & _).
    destruct (strip_prefix ")" r5) as [r6|] eqn:E6; [| discriminate].
    apply strip_prefix_Some in E6 as ->. cbn [mbind option_bind].
    intros [= <-]. exists ws1, ws2, ws3, r6. now repeat split.
  - intros (ws1 & ws2 & ws3 & post & -> & Hne1 & Hws1 & [Hne2 Hnm] & Hws2 & Hws3).
    erewrite (proj2 (strip_prefix_Some "def" _ _)) by reflexivity.
    cbn [mbind option_bind].
    assert (E1 : run1 is_space (ws1 +:+ name +:+ ws2 +:+ "(" +:+ ws3 +:+ ")" +:+ post)
                 = Some (ws1, name +:+ ws2 +:+ "(" +:+ ws3 +:+ ")" +:+ post)).
    { apply run1_Some. repeat split; try assumption.
      destruct name as [|c name]; [congruence |]. simpl in *.
      apply andb_prop in Hnm as [Hc _]. now apply word_not_space. }
    rewrite E1. cbn [mbind option_bind].
    assert (E2 : run1 is_word (name +:+ ws2 +:+ "(" +:+ ws3 +:+ ")" +:+ post)
                 = Some (name, ws2 +:+ "(" +:+ ws3 +:+ ")" +:+ post)).
    { apply run1_Some. repeat split; try assumption.
      destruct ws2 as [|c ws2]; simpl in *; [reflexivity |].
      apply andb_prop in Hws2 as [Hc _]. now apply space_not_word. }
    rewrite E2. cbn [mbind option_bind].
    rewrite (span_append is_space ws2 ("(" +:+ ws3 +:+ ")" +:+ post) Hws2 eq_refl).
    rewrite (strip_prefix_append "(" _). cbn [mbind option_bind].
    rewrite (span_append is_space ws3 (")" +:+ post) Hws3 eq_refl).
    rewrite (strip_prefix_append ")" _). reflexivity.
Qed.

(** A shape after [pre] is a shape at the head of what follows [pre]. *)
Lemma def_at_suffix (pre name code : string) :
  Shape.def_at pre name code <->
  exists post, code = pre +:+ post /\ Shape.def_at "" name post.
Proof.
  unfold Shape.def_at. split.
  - intros (ws1 & ws2 & ws3 & post & -> & H).
    eexists. split; [reflexivity |]. now exists ws1, ws2, ws3, post.
  - intros (post0 & -> & ws1 & ws2 & ws3 & post & -> & H).
    now exists ws1, ws2, ws3, post.
Qed.

(** The search for an entry point finds the first definition in the text. *)
Lemma search_def_first (code name : string) :
  search match_def code = Some name <-> Shape.first_def name code.
Proof.
  rewrite search_Some. unfold Shape.first_def. split.
  - intros (pre & post & -> & Hm & Hmin). exists pre. split.
    + apply def_at_suffix. exists post. split; [reflexivity |].
      now apply match_def_shape.
    + intros pre' name' H. apply def_at_suffix in H as (post' & Heq & Hshape).
      apply match_def_shape in Hshape.
      destruct (Nat.le_gt_cases (String.length pre) (String.length pre'))
        as [Hle | Hlt]; [exact Hle |].
      rewrite (Hmin pre' post' Heq Hlt) in Hshape. discriminate.
  - intros (pre & Hat & Hmin).
    apply def_at_suffix in Hat as (post & -> & Hshape).
    exists pre, post. repeat split; [now apply match_def_shape |].
    intros pre' post' Heq Hlen.
    destruct (match_def post') as [name'|] eqn:E; [| reflexivity].
    apply match_def_shape in E.
    assert (Hat' : Shape.def_at pre' name' (pre +:+ post)).
    { apply def_at_suffix. now exists post'. }
    specialize (Hmin pre' name' Hat'). lia.
Qed.

Lemma search_def_none (code : string) :
  search match_def code = None <-> Shape.no_def code.
Proof.
  rewrite search_None. unfold Shape.no_def. split.
  - intros H pre name Hat. apply def_at_suffix in Hat as (post & Heq & Hshape).
    apply match_def_shape in Hshape. rewrite (H pre post Heq) in Hshape.
    discriminate.
  - intros H pre post Heq. destruct (match_def post) as [name|] eqn:E;
      [| reflexivity].
    exfalso. apply (H pre name). apply def_at_suffix. exists post.
    split; [exact Heq | now apply match_def_shape].
Qed.

End RegexFacts.

(** * The runner *)

Module RunnerFacts.

Section Paths.

Variable I : Interpreter.

(** The result, path by path. *)

Lemma run_without_entry_point (code expected_answer : string) :
  Regex.search Regex.match_def code = None ->
  execute_code_no_input I code expected_answer "python"
  = ([], list_to_map
      [("success", VBool false); ("output", VStr "");
       ("error", VStr "Function must have NO parameters: def solution():");
       ("passed", VBool false);
       ("expected", VStr expected_answer); ("actual", VStr "")]).
Proof.
  intros H. unfold execute_code_no_input.
  rewrite String.eqb_refl. now rewrite H.
Qed.

Lemma run_not_compiled (code expected_answer name e : string) :
  Regex.search Regex.match_def code = Some name ->
  exec I code = Raised e ->
  execute_code_no_input I code expected_answer "python"
  = ([EvExec code], list_to_map
      [("success", VBool false); ("output", VStr "");
       ("error", VStr ("Code compilation error: " +:+ e));
       ("passed", VBool false);
       ("expected", VStr expected_answer); ("actual", VStr "")]).
Proof.
  intros H He. unfold execute_code_no_input.
  rewrite String.eqb_refl. now rewrite H, He.
Qed.

Lemma run_not_defined (code expected_answer name : string) (ns : namespace I) :
  Regex.search Regex.match_def code = Some name ->
  exec I code = Returned ns ->
  defines I ns name = false ->
  execute_code_no_input I code expected_answer "python"
  = ([EvExec code; EvLookup name], list_to_map
      [("success", VBool false); ("output", VStr "");
       ("error", VStr ("Function '" +:+ name +:+ "' not found in code"));
       ("passed", VBool false);
       ("expected", VStr expected_answer); ("actual", VStr "")]).
Proof.
  intros H He Hd. unfold execute_code_no_input.
  rewrite String.eqb_refl. now rewrite H, He, Hd.
Qed.

Lemma run_called (code expected_answer name : string) (ns : namespace I) :
  Regex.search Regex.match_def code = Some name ->
  exec I code = Returned ns ->
  defines I ns name = true ->
  execute_code_no_input I code expected_answer "python"
  = ([EvExec code; EvLookup name; EvCall name],
     match completion (call I ns name) with
     | Raised error_msg =>
         runtime_error_result expected_answer (call I ns name) error_msg
     | Returned result => judge expected_answer (call I ns name) result
     end).
Proof.
  intros H He Hd. unfold execute_code_no_input.
  rewrite String.eqb_refl. now rewrite H, He, Hd.
Qed.

(** What [judge] answers when the trimmed diagnostic text is empty and the
    value has a rendering. *)
Lemma judge_clean (expected_answer actual : string) (inv : invocation)
    (result : returned) :
  Text.strip (diagnostics inv) = "" ->
  match result with
  | RNone => actual = Text.strip (printed inv)
  | RObject rendering => rendering = Returned actual
  end ->
  judge expected_answer inv result
  = list_to_map
      [("success", VBool true); ("output", VStr actual);
       ("expected", VStr expected_answer); ("actual", VStr actual);
       ("error", VNone);
       ("passed", VBool (compare_answers actual expected_answer))].
Proof.
  intros Hd Hr. unfold judge. rewrite Hd. cbn [String.eqb negb].
  destruct result as [|rendering]; [now subst actual |].
  cbn [py_str]. now rewrite Hr.
Qed.

(** What [judge] answers when the trimmed diagnostic text is not empty. *)
Lemma judge_diagnostics (expected_answer : string) (inv : invocation)
    (result : returned) :
  Text.strip (diagnostics inv) <> "" ->
  judge expected_answer inv result !! "passed" = Some (VBool false)
  /\ judge expected_answer inv result !! "success" = Some (VBool false).
Proof.
  intros Hd. unfold judge, runtime_error_result.
  apply String.eqb_neq in Hd. rewrite Hd. cbn [negb].
  destruct (negb (String.eqb (Text.strip (printed inv)) ""));
    [split; reflexivity |].
  destruct (py_str result); split; reflexivity.
Qed.

Lemma runtime_error_fields (expected_answer error_msg : string)
    (inv : invocation) :
  runtime_error_result expected_answer inv error_msg !! "passed"
    = Some (VBool false)
  /\ runtime_error_result expected_answer inv error_msg !! "success"
    = Some (VBool false).
Proof. split; reflexivity. Qed.

End Paths.

(** Two fields of the result of the success path. *)
Lemma success_result_fields (expected_answer actual : string) (passed : bool) :
  (list_to_map
     [("success", VBool true); ("output", VStr actual);
      ("expected", VStr expected_answer); ("actual", VStr actual);
      ("error", VNone); ("passed", VBool passed)] : gmap string pyval)
    !! "passed" = Some (VBool passed)
  /\ (list_to_map
        [("success", VBool true); ("output", VStr actual);
         ("expected", VStr expected_answer); ("actual", VStr actual);
         ("error", VNone); ("passed", VBool passed)] : gmap string pyval)
       !! "success" = Some (VBool true).
Proof. split; reflexivity. Qed.

End RunnerFacts.

(** C6. A Python submission with no zero-parameter function definition
    anywhere in its text is answered with [success = False],
    [passed = False] and the error
    "Function must have NO parameters: def solution():", and the runner asks
    nothing of the interpreter: it neither executes the submission nor calls
    anything in it. *)
Theorem no_entry_point_no_execution (I : Interpreter)
    (code expected_answer : string) :
  Shape.no_def code ->
  fst (execute_code_no_input I code expected_answer "python") = []
  /\ snd (execute_code_no_input I code expected_answer "python") !! "success"
     = Some (VBool false)
  /\ snd (execute_code_no_input I code expected_answer "python") !! "passed"
     = Some (VBool false)
  /\ snd (execute_code_no_input I code expected_answer "python") !! "error"
     = Some (VStr "Function must have NO parameters: def solution():").
Proof.
  intros Hno. apply RegexFacts.search_def_none in Hno.
  rewrite (RunnerFacts.run_without_entry_point I code expected_answer Hno).
  cbn [fst snd]. repeat split; reflexivity.
Qed.

Lemma no_entry_point_no_execution_witness :
  fst (execute_code_no_input (Toy.always ["f"] Toy.returns_five)
         "def f(x): return x" "5" "python") = []
  /\ snd (execute_code_no_input (Toy.always ["f"] Toy.returns_five)
            "def f(x): return x" "5" "python") !! "success"
     = Some (VBool false)
  /\ snd (execute_code_no_input (Toy.always ["f"] Toy.returns_five)
            "def f(x): return x" "5" "python") !! "passed"
     = Some (VBool false)
  /\ snd (execute_code_no_input (Toy.always ["f"] Toy.returns_five)
            "def f(x): return x" "5" "python") !! "error"
     = Some (VStr "Function must have NO parameters: def solution():").
Proof.
  apply (no_entry_point_no_execution (Toy.always ["f"] Toy.returns_five)
           "def f(x): return x" "5").
  apply RegexFacts.search_def_none. vm_compute. reflexivity.
Defined.

(** C8. Whatever the submission, the expected answer and the language, and
    whatever the interpreter does, the result of [execute_code_no_input]
    holds exactly the six fields [success], [output], [error], [passed],
    [expected] and [actual], each with a value, and [expected] is the
    expected answer that was passed in.  The result of the outermost
    [except] clause has the same form. *)
Theorem every_result_is_fully_populated :
  (forall (I : Interpreter) (code expected_answer language : string),
     fully_populated expected_answer
       (snd (execute_code_no_input I code expected_answer language)))
  /\ (forall expected_answer message : string,
        fully_populated expected_answer
          (internal_error_result expected_answer message)).
Proof.
  split.
  - intros I code expected_answer language.
    unfold execute_code_no_input, judge, runtime_error_result.
    repeat match goal with
    | |- context [if ?b then _ else _] => destruct b
    | |- context [match ?x with _ => _ end] => destruct x
    end;
      cbn [snd]; unfold fully_populated; repeat split; eauto;
      vm_compute; reflexivity.
  - intros expected_answer message.
    unfold fully_populated, internal_error_result. repeat split; eauto.
Qed.

(** Every identifier can name the entry point: the name need not be
    [solution]. *)
Lemma any_identifier_can_be_the_entry_point (name : string) :
  Shape.identifier name -> Shape.first_def name ("def " +:+ name +:+ "()").
Proof.
  intros Hid. exists "". split.
  - exists " ", "", "", "". repeat split; try easy; apply Hid.
  - intros pre' name' _. simpl. lia.
Qed.

(** C10. The entry point is the zero-parameter definition that comes first
    in the text of the submission, whatever its name: that name is what the
    search returns, no other name is looked up or called, and when the
    submission compiles and leaves that name defined, the runner executes
    the submission once, looks the name up and calls it once, and its result
    is the judgement of that call.  When the name is not defined after the
    execution, nothing is called. *)
Theorem entry_point_is_first_definition (I : Interpreter)
    (code expected_answer name : string) :
  Shape.first_def name code ->
  Regex.search Regex.match_def code = Some name
  /\ (forall n,
        In (EvLookup n) (fst (execute_code_no_input I code expected_answer "python"))
        \/ In (EvCall n) (fst (execute_code_no_input I code expected_answer "python")) ->
        n = name)
  /\ (forall ns, exec I code = Returned ns -> defines I ns name = true ->
        execute_code_no_input I code expected_answer "python"
        = ([EvExec code; EvLookup name; EvCall name],
           match completion (call I ns name) with
           | Raised error_msg =>
               runtime_error_result expected_answer (call I ns name) error_msg
           | Returned result => judge expected_answer (call I ns name) result
           end))
  /\ (forall ns, exec I code = Returned ns -> defines I ns name = false ->
        fst (execute_code_no_input I code expected_answer "python")
        = [EvExec code; EvLookup name]).
Proof.
  intros Hfirst. apply RegexFacts.search_def_first in Hfirst.
  split; [exact Hfirst |]. split; [| split].
  - intros n. destruct (exec I code) as [ns | e] eqn:He.
    + destruct (defines I ns name) eqn:Hd.
      * rewrite (RunnerFacts.run_called I code expected_answer name ns Hfirst He Hd).
        cbn [fst In]. intros [[H | [H | [H | []]]] | [H | [H | [H | []]]]];
          congruence.
      * rewrite (RunnerFacts.run_not_defined I code expected_answer name ns Hfirst He Hd).
        cbn [fst In]. intros [[H | [H | []]] | [H | [H | []]]]; congruence.
    + rewrite (RunnerFacts.run_not_compiled I code expected_answer name e Hfirst He).
      cbn [fst In]. intros [[H | []] | [H | []]]; congruence.
  - intros ns He Hd. now apply RunnerFacts.run_called.
  - intros ns He Hd.
    now rewrite (RunnerFacts.run_not_defined I code expected_answer name ns Hfirst He Hd).
Qed.

Lemma entry_point_is_first_definition_witness :
  Shape.first_def "compute" Toy.three_functions
  /\ fst (execute_code_no_input
            (Toy.always ["helper"; "compute"; "solution"] Toy.returns_five)
            Toy.three_functions "5" "python")
     = [EvExec Toy.three_functions; EvLookup "compute"; EvCall "compute"].
Proof.
  assert (H : Shape.first_def "compute" Toy.three_functions).
  { apply RegexFacts.search_def_first. vm_compute. reflexivity. }
  split; [exact H |].
  destruct (entry_point_is_first_definition
              (Toy.always ["helper"; "compute"; "solution"] Toy.returns_five)
              Toy.three_functions "5" "compute" H) as (_ & _ & Hcall & _).
  rewrite (Hcall ["helper"; "compute"; "solution"] eq_refl eq_refl).
  reflexivity.
Defined.

(** C1, as the code has it.  The claim as stated fails: a lone newline on
    the diagnostic stream is non-empty text, and the run still succeeds. *)
Lemma whitespace_diagnostics_do_not_fail_the_run :
  diagnostics Toy.newline_on_stderr <> ""
  /\ Shape.first_def "f" "def f(): return 5"
  /\ snd (execute_code_no_input (Toy.always ["f"] Toy.newline_on_stderr)
            "def f(): return 5" "5" "python") !! "success"
     = Some (VBool true)
  /\ snd (execute_code_no_input (Toy.always ["f"] Toy.newline_on_stderr)
            "def f(): return 5" "5" "python") !! "passed"
     = Some (VBool true)
  /\ snd (execute_code_no_input (Toy.always ["f"] Toy.newline_on_stderr)
            "def f(): return 5" "5" "python") !! "error"
     = Some VNone.
Proof.
  split; [discriminate |]. split.
  - apply RegexFacts.search_def_first. vm_compute. reflexivity.
  - repeat split; vm_compute; reflexivity.
Qed.

(** The reported error is the trimmed text, not the text as captured. *)
Lemma reported_diagnostics_are_trimmed :
  snd (execute_code_no_input (Toy.always ["f"] Toy.warns_and_returns)
         "def f(): return 5" "5" "python") !! "error"
  = Some (VStr "DeprecationWarning: old call")
  /\ diagnostics Toy.warns_and_returns <> "DeprecationWarning: old call".
Proof. split; [vm_compute; reflexivity | discriminate]. Qed.

(** When the call raises, the error is the exception's, and the diagnostic
    text is dropped. *)
Lemma exception_hides_diagnostics :
  snd (execute_code_no_input (Toy.always ["f"] Toy.warns_and_raises)
         "def f(): return 1 / 0" "5" "python") !! "error"
  = Some (VStr "Runtime error: division by zero").
Proof. vm_compute. reflexivity. Qed.

(** C1 (amended).  For a Python submission whose entry point is called and
    returns without an exception, also when its return value is rendered,
    and whose captured diagnostic text is not empty once trimmed, the result
    has [success = False], [passed = False] and, as [error], the trimmed
    diagnostic text, whatever the entry point returned. *)
Theorem diagnostic_text_fails_the_run (I : Interpreter)
    (code expected_answer name : string) (ns : namespace I)
    (result : returned) :
  Shape.first_def name code ->
  exec I code = Returned ns ->
  defines I ns name = true ->
  completion (call I ns name) = Returned result ->
  Text.strip (diagnostics (call I ns name)) <> "" ->
  (Text.strip (printed (call I ns name)) <> ""
   \/ exists rendered, py_str result = Returned rendered) ->
  snd (execute_code_no_input I code expected_answer "python") !! "success"
    = Some (VBool false)
  /\ snd (execute_code_no_input I code expected_answer "python") !! "passed"
    = Some (VBool false)
  /\ snd (execute_code_no_input I code expected_answer "python") !! "error"
    = Some (VStr (Text.strip (diagnostics (call I ns name)))).
Proof.
  intros Hfirst He Hd Hc Hdiag Hrender.
  apply RegexFacts.search_def_first in Hfirst.
  rewrite (RunnerFacts.run_called I code expected_answer name ns Hfirst He Hd).
  rewrite Hc. cbn [snd]. unfold judge.
  apply String.eqb_neq in Hdiag. rewrite Hdiag. cbn [negb].
  destruct Hrender as [Hprinted | [rendered Hrendered]].
  - apply String.eqb_neq in Hprinted. rewrite Hprinted. cbn [negb].
    repeat split; reflexivity.
  - destruct (negb (String.eqb (Text.strip (printed (call I ns name))) ""));
      [| rewrite Hrendered]; repeat split; reflexivity.
Qed.

Lemma diagnostic_text_fails_the_run_witness :
  snd (execute_code_no_input (Toy.always ["f"] Toy.warns_and_returns)
         "def f(): return 5" "5" "python") !! "success"
    = Some (VBool false)
  /\ snd (execute_code_no_input (Toy.always ["f"] Toy.warns_and_returns)
            "def f(): return 5" "5" "python") !! "passed"
    = Some (VBool false)
  /\ snd (execute_code_no_input (Toy.always ["f"] Toy.warns_and_returns)
            "def f(): return 5" "5" "python") !! "error"
    = Some (VStr (Text.strip (diagnostics Toy.warns_and_returns))).
Proof.
  apply (diagnostic_text_fails_the_run (Toy.always ["f"] Toy.warns_and_returns)
           "def f(): return 5" "5" "f" ["f"] (RObject (Returned "5"))).
  - apply RegexFacts.search_def_first. vm_compute. reflexivity.
  - reflexivity.
  - reflexivity.
  - reflexivity.
  - vm_compute. discriminate.
  - right. exists "5". reflexivity.
Defined.

(** C7, as the code has it.  The claim as stated fails: the entry point
    prints [hello], returns [None] and writes no diagnostics; the captured
    printed text ends with the newline [print] wrote, the reported text
    does not. *)
Lemma printed_text_is_reported_trimmed :
  completion Toy.prints_hello = Returned RNone
  /\ diagnostics Toy.prints_hello = ""
  /\ snd (execute_code_no_input (Toy.always ["f"] Toy.prints_hello)
            "def f(): print('hello')" "hello" "python") !! "actual"
     = Some (VStr "hello")
  /\ snd (execute_code_no_input (Toy.always ["f"] Toy.prints_hello)
            "def f(): print('hello')" "hello" "python") !! "actual"
     <> Some (VStr (printed Toy.prints_hello)).
Proof.
  split; [reflexivity |]. split; [reflexivity |].
  split; [vm_compute; reflexivity | vm_compute; discriminate].
Qed.

(** C7 (amended).  When the call of the entry point returns without an
    exception and the diagnostic stream stayed empty, the fields [actual]
    and [output] both hold the rendering of the returned value when it is
    not [None], and otherwise the captured printed text without its leading
    and trailing whitespace; [success] is [True] and [error] is [None]. *)
Theorem clean_run_reports_the_return_value (I : Interpreter)
    (code expected_answer name actual : string) (ns : namespace I)
    (result : returned) :
  Shape.first_def name code ->
  exec I code = Returned ns ->
  defines I ns name = true ->
  completion (call I ns name) = Returned result ->
  diagnostics (call I ns name) = "" ->
  match result with
  | RNone => actual = Text.strip (printed (call I ns name))
  | RObject rendering => rendering = Returned actual
  end ->
  snd (execute_code_no_input I code expected_answer "python") !! "actual"
    = Some (VStr actual)
  /\ snd (execute_code_no_input I code expected_answer "python") !! "output"
    = Some (VStr actual)
  /\ snd (execute_code_no_input I code expected_answer "python") !! "success"
    = Some (VBool true)
  /\ snd (execute_code_no_input I code expected_answer "python") !! "error"
    = Some VNone.
Proof.
  intros Hfirst He Hd Hc Hdiag Hactual.
  apply RegexFacts.search_def_first in Hfirst.
  rewrite (RunnerFacts.run_called I code expected_answer name ns Hfirst He Hd).
  rewrite Hc. cbn [snd].
  rewrite (RunnerFacts.judge_clean expected_answer actual (call I ns name) result);
    [| now rewrite Hdiag | exact Hactual].
  repeat split; reflexivity.
Qed.

Lemma clean_run_reports_the_return_value_witness :
  snd (execute_code_no_input (Toy.always ["f"] Toy.prints_hello)
         "def f(): print('hello')" "hello" "python") !! "actual"
    = Some (VStr "hello")
  /\ snd (execute_code_no_input (Toy.always ["f"] Toy.prints_hello)
            "def f(): print('hello')" "hello" "python") !! "output"
    = Some (VStr "hello")
  /\ snd (execute_code_no_input (Toy.always ["f"] Toy.prints_hello)
            "def f(): print('hello')" "hello" "python") !! "success"
    = Some (VBool true)
  /\ snd (execute_code_no_input (Toy.always ["f"] Toy.prints_hello)
            "def f(): print('hello')" "hello" "python") !! "error"
    = Some VNone.
Proof.
  apply (clean_run_reports_the_return_value (Toy.always ["f"] Toy.prints_hello)
           "def f(): print('hello')" "hello" "f" "hello" ["f"] RNone).
  - apply RegexFacts.search_def_first. vm_compute. reflexivity.
  - reflexivity.
  - reflexivity.
  - reflexivity.
  - reflexivity.
  - vm_compute. reflexivity.
Defined.

(** The same holds when the diagnostic stream holds only whitespace. *)
Lemma blank_diagnostics_count_as_none (I : Interpreter)
    (code expected_answer name actual : string) (ns : namespace I)
    (result : returned) :
  Regex.search Regex.match_def code = Some name ->
  exec I code = Returned ns ->
  defines I ns name = true ->
  completion (call I ns name) = Returned result ->
  Text.strip (diagnostics (call I ns name)) = "" ->
  match result with
  | RNone => actual = Text.strip (printed (call I ns name))
  | RObject rendering => rendering = Returned actual
  end ->
  snd (execute_code_no_input I code expected_answer "python")
  = list_to_map
      [("success", VBool true); ("output", VStr actual);
       ("expected", VStr expected_answer); ("actual", VStr actual);
       ("error", VNone);
       ("passed", VBool (compare_answers actual expected_answer))].
Proof.
  intros Hs He Hd Hc Hdiag Hactual.
  rewrite (RunnerFacts.run_called I code expected_answer name ns Hs He Hd).
  rewrite Hc. cbn [snd]. now apply RunnerFacts.judge_clean.
Qed.

(** C9, as the code has it.  The claim as stated fails: [passed] is [True]
    although text, a newline, was emitted on the diagnostic stream. *)
Lemma passed_with_text_on_the_diagnostic_stream :
  snd (execute_code_no_input (Toy.always ["f"] Toy.newline_on_stderr)
         "def f(): return 5" "5" "python") !! "passed"
  = Some (VBool true)
  /\ diagnostics (call (Toy.always ["f"] Toy.newline_on_stderr) ["f"] "f")
     = Toy.newline
  /\ Toy.newline <> "".
Proof.
  split; [vm_compute; reflexivity |]. split; [reflexivity | discriminate].
Qed.

(** C9 (amended).  [passed] is a boolean in every result; it is [True]
    exactly when the run took the success path (Python, an entry point
    found, the submission compiled, the entry point defined and called
    without an exception, a rendering of its value, and a captured
    diagnostic text that is empty once trimmed) and the comparison with the
    expected answer matched; then [success] is [True] as well.  On every
    other path [passed] is [False]. *)
Theorem passed_only_on_the_success_path (I : Interpreter)
    (code expected_answer language : string) :
  (snd (execute_code_no_input I code expected_answer language) !! "passed"
     = Some (VBool true)
   <-> exists actual,
         success_path I code language actual
         /\ compare_answers actual expected_answer = true)
  /\ (snd (execute_code_no_input I code expected_answer language) !! "passed"
        = Some (VBool true) ->
      snd (execute_code_no_input I code expected_answer language) !! "success"
        = Some (VBool true))
  /\ ((forall actual, ~ success_path I code language actual) ->
      snd (execute_code_no_input I code expected_answer language) !! "passed"
        = Some (VBool false)).
Proof.
  assert (Hpath :
    (exists actual, success_path I code language actual
       /\ snd (execute_code_no_input I code expected_answer language)
          = list_to_map
              [("success", VBool true); ("output", VStr actual);
               ("expected", VStr expected_answer); ("actual", VStr actual);
               ("error", VNone);
               ("passed", VBool (compare_answers actual expected_answer))]
       /\ forall actual', success_path I code language actual' -> actual' = actual)
    \/ ((forall actual, ~ success_path I code language actual)
        /\ snd (execute_code_no_input I code expected_answer language) !! "passed"
           = Some (VBool false)
        /\ snd (execute_code_no_input I code expected_answer language) !! "success"
           = Some (VBool false))).
  { unfold success_path.
    destruct (String.eqb language "python") eqn:Hl.
    2:{ right. split.
        - intros actual [Hpy _]. apply String.eqb_neq in Hl. congruence.
        - unfold execute_code_no_input. rewrite Hl.
          destruct (String.eqb language "javascript");
            [| destruct (String.eqb language "java")]; split; reflexivity. }
    apply String.eqb_eq in Hl as ->.
    destruct (Regex.search Regex.match_def code) as [name|] eqn:Hs.
    2:{ right. split.
        - intros actual (_ & n & ns & r & H & _). discriminate.
        - rewrite (RunnerFacts.run_without_entry_point I code expected_answer Hs).
          split; reflexivity. }
    destruct (exec I code) as [ns | e] eqn:He.
    2:{ right. split.
        - intros actual (_ & n & ns & r & _ & H & _). discriminate.
        - rewrite (RunnerFacts.run_not_compiled I code expected_answer name e Hs He).
          split; reflexivity. }
    destruct (defines I ns name) eqn:Hd.
    2:{ right. split.
        - intros actual (_ & n & ns' & r & [= <-] & [= <-] & H & _). congruence.
        - rewrite (RunnerFacts.run_not_defined I code expected_answer name ns Hs He Hd).
          split; reflexivity. }
    rewrite (RunnerFacts.run_called I code expected_answer name ns Hs He Hd).
    cbn [snd].
    destruct (completion (call I ns name)) as [result | e] eqn:Hc.
    2:{ right. split.
        - intros actual (_ & n & ns' & r & [= <-] & [= <-] & _ & H & _).
          congruence.
        - apply RunnerFacts.runtime_error_fields. }
    destruct (String.eqb (Text.strip (diagnostics (call I ns name))) "") eqn:Hdiag.
    2:{ right. apply String.eqb_neq in Hdiag. split.
        - intros actual (_ & n & ns' & r & [= <-] & [= <-] & _ & _ & H & _).
          congruence.
        - now apply RunnerFacts.judge_diagnostics. }
    apply String.eqb_eq in Hdiag.
    destruct result as [|[actual | e]].
    - left. exists (Text.strip (printed (call I ns name))). split; [| split].
      + split; [reflexivity |]. exists name, ns, RNone. now repeat split.
      + now apply RunnerFacts.judge_clean.
      + intros actual' (_ & n & ns' & r & [= <-] & [= <-] & _ & Hr & _ & H).
        rewrite Hc in Hr. injection Hr as <-. exact H.
    - left. exists actual. split; [| split].
      + split; [reflexivity |]. exists name, ns, (RObject (Returned actual)).
        now repeat split.
      + now apply RunnerFacts.judge_clean.
      + intros actual' (_ & n & ns' & r & [= <-] & [= <-] & _ & Hr & _ & H).
        rewrite Hc in Hr. injection Hr as <-. now injection H as <-.
    - right. split.
      + intros actual (_ & n & ns' & r & [= <-] & [= <-] & _ & Hr & _ & H).
        rewrite Hc in Hr. injection Hr as <-. discriminate.
      + unfold judge. rewrite Hdiag. cbn [String.eqb negb py_str].
        apply RunnerFacts.runtime_error_fields. }
  destruct Hpath as [(actual & Hon & Hres & Huniq) | (Hoff & Hp & Hsucc)].
  - rewrite Hres.
    destruct (RunnerFacts.success_result_fields expected_answer actual
                (compare_answers actual expected_answer)) as [Hp Hs].
    rewrite Hp, Hs. split; [| split].
    + split.
      * intros [= Hcmp]. exists actual. now split.
      * intros (actual' & Hon' & Hcmp). rewrite (Huniq actual' Hon') in Hcmp.
        now rewrite Hcmp.
    + intros _. reflexivity.
    + intros Hnone. exfalso. exact (Hnone actual Hon).
  - split; [| split].
    + split.
      * rewrite Hp. discriminate.
      * intros (actual & Hon & _). exfalso. exact (Hoff actual Hon).
    + rewrite Hp. discriminate.
    + intros _. exact Hp.
Qed.

Lemma passed_only_on_the_success_path_witness :
  snd (execute_code_no_input (Toy.always ["f"] Toy.returns_five)
         "def f(): return 5" "5.0" "python") !! "passed" = Some (VBool true)
  /\ snd (execute_code_no_input (Toy.always ["f"] Toy.returns_five)
            "def f(): return 5" "5.0" "python") !! "success" = Some (VBool true)
  /\ exists actual,
       success_path (Toy.always ["f"] Toy.returns_five)
         "def f(): return 5" "python" actual
       /\ compare_answers actual "5.0" = true.
Proof.
  assert (H : snd (execute_code_no_input (Toy.always ["f"] Toy.returns_five)
                     "def f(): return 5" "5.0" "python") !! "passed"
              = Some (VBool true)) by (vm_compute; reflexivity).
  destruct (passed_only_on_the_success_path (Toy.always ["f"] Toy.returns_five)
              "def f(): return 5" "5.0" "python") as (Hiff & Hsuccess & _).
  split; [exact H |]. split; [exact (Hsuccess H) | exact (proj1 Hiff H)].
Defined.

(** * The integer root that the float power gives *)

Module RootFacts.

#[local] Open Scope Z_scope.

Lemma digits_size (p : positive) : digits2_pos p = Pos.size p.
Proof. induction p; cbn; congruence. Qed.

(** A mantissa has as many binary digits as its size says. *)
Lemma digits_bounds (p : positive) :
  2 ^ (Zpos (digits2_pos p) - 1) <= Zpos p < 2 ^ Zpos (digits2_pos p).
Proof.
  rewrite digits_size.
  pose proof (Pos.size_gt p) as Hgt. pose proof (Pos.size_le p) as Hle.
  apply Pos2Z.pos_lt_pos in Hgt. apply Pos2Z.pos_le_pos in Hle.
  rewrite Pos2Z.inj_pow in Hgt, Hle.
  change (Z.pos p~0) with (2 * Z.pos p) in Hle.
  split; [| exact Hgt].
  replace (Zpos (Pos.size p)) with
    (Z.succ (Zpos (Pos.size p) - 1)) in Hle by lia.
  rewrite Z.pow_succ_r in Hle by lia. lia.
Qed.

Lemma digits_le (p : positive) (k : Z) :
  0 <= k -> Zpos p < 2 ^ k -> Zpos (digits2_pos p) <= k.
Proof.
  intros Hk Hp. destruct (digits_bounds p) as [Hlo _].
  destruct (Z.le_gt_cases (Zpos (digits2_pos p)) k) as [H | H]; [exact H |].
  assert (2 ^ k <= 2 ^ (Zpos (digits2_pos p) - 1))
    by (apply Z.pow_le_mono_r; lia).
  lia.
Qed.

Lemma digits_eq (p : positive) (k : Z) :
  2 ^ (k - 1) <= Zpos p < 2 ^ k -> 1 <= k -> Zpos (digits2_pos p) = k.
Proof.
  intros [Hlo Hhi] Hk. destruct (digits_bounds p) as [Hlo' Hhi'].
  pose proof (digits_le p k ltac:(lia) Hhi).
  destruct (Z.le_gt_cases k (Zpos (digits2_pos p))) as [H' | H']; [lia |].
  assert (2 ^ Zpos (digits2_pos p) <= 2 ^ (k - 1))
    by (apply Z.pow_le_mono_r; lia).
  lia.
Qed.

(** A mantissa that fits is not shifted. *)
Lemma shr_fexp_fits (m e : Z) (l : location) :
  -1074 <= e -> Zdigits2 m <= 53 ->
  shr_fexp Float64.prec Float64.emax m e l = (shr_record_of_loc m l, e).
Proof.
  intros He Hd.
  unfold shr_fexp, shr, fexp, emin, Float64.prec, Float64.emax.
  destruct (Z.max (Zdigits2 m + e - 53) (3 - 1024 - 53) - e) eqn:E;
    try reflexivity.
  lia.
Qed.

Lemma record_of_loc (m : Z) (l : location) :
  loc_of_shr_record (shr_record_of_loc m l) = l
  /\ shr_m (shr_record_of_loc m l) = m.
Proof. destruct l as [|[]]; split; reflexivity. Qed.

Lemma round_up_or_not (m : positive) (l : location) :
  exists q : positive,
    round_nearest_even (Zpos m) l = Zpos q
    /\ Zpos m <= Zpos q <= Zpos m + 1.
Proof.
  assert (Hs : exists q : positive, Zpos m + 1 = Zpos q).
  { exists (m + 1)%positive. lia. }
  destruct Hs as [q1 Hq1].
  destruct l as [|[]]; cbn [round_nearest_even].
  - exists m. lia.
  - destruct (Z.even (Zpos m)); [exists m | exists q1]; lia.
  - exists m. lia.
  - exists q1. lia.
Qed.

(** Rounding a mantissa of at most 53 digits: the result is the mantissa
    or the next one, at the same exponent or, after a carry, the next. *)
Lemma round_fits (s : bool) (m : positive) (e : Z) (l : location) :
  -1074 <= e <= 970 -> Zpos m < 2 ^ 53 ->
  exists (m' : positive) (e' : Z),
    binary_round_aux Float64.prec Float64.emax s (Zpos m) e l
    = S754_finite s m' e'
    /\ Zpos m <= Zpos m' * 2 ^ (e' - e) <= Zpos m + 1
    /\ e <= e' <= e + 1.
Proof.
  intros He Hm. unfold binary_round_aux.
  rewrite (shr_fexp_fits (Zpos m) e l) by
    (try lia; cbn [Zdigits2]; apply digits_le; lia).
  destruct (record_of_loc (Zpos m) l) as [-> ->].
  destruct (round_up_or_not m l) as (q & -> & Hq).
  destruct (Z.eq_dec (Zpos q) (2 ^ 53)) as [Heq | Hne].
  - assert (q = 9007199254740992%positive) by lia. subst q.
    assert (Hd : Zdigits2 9007199254740992 = 54) by (vm_compute; reflexivity).
    unfold shr_fexp. rewrite Hd.
    unfold fexp, emin, Float64.prec, Float64.emax.
    replace (Z.max (54 + e - 53) (3 - 1024 - 53) - e) with 1 by lia.
    cbn [shr iter_pos shr_1 shr_record_of_loc shr_m].
    replace (e + 1 <=? 1024 - 53) with true by (symmetry; apply Z.leb_le; lia).
    eexists _, _. split; [reflexivity |].
    replace (e + 1 - e) with 1 by lia. lia.
  - rewrite (shr_fexp_fits (Zpos q) e loc_Exact) by
      (try lia; cbn [Zdigits2]; apply digits_le; lia).
    cbn [shr_record_of_loc shr_m].
    replace (e <=? Float64.emax - Float64.prec) with true
      by (symmetry; apply Z.leb_le; unfold Float64.emax, Float64.prec; lia).
    exists q, e. split; [reflexivity |].
    rewrite Z.sub_diag. cbn. lia.
Qed.

Lemma round_exact (s : bool) (m : positive) (e : Z) :
  -1074 <= e <= 971 -> Zpos m < 2 ^ 53 ->
  binary_round_aux Float64.prec Float64.emax s (Zpos m) e loc_Exact
  = S754_finite s m e.
Proof.
  intros He Hm. unfold binary_round_aux.
  rewrite (shr_fexp_fits (Zpos m) e loc_Exact) by
    (try lia; cbn [Zdigits2]; apply digits_le; lia).
  cbn [shr_record_of_loc shr_m loc_of_shr_record round_nearest_even].
  rewrite (shr_fexp_fits (Zpos m) e loc_Exact) by
    (try lia; cbn [Zdigits2]; apply digits_le; lia).
  cbn [shr_record_of_loc shr_m].
  now replace (e <=? Float64.emax - Float64.prec) with true
    by (symmetry; apply Z.leb_le; unfold Float64.emax, Float64.prec; lia).
Qed.

Lemma iter_xO (m d : positive) :
  Zpos (Pos.iter xO m d) = Zpos m * 2 ^ Zpos d.
Proof.
  induction d as [|d IH] using Pos.peano_ind.
  - cbn [Pos.iter]. lia.
  - rewrite Pos.iter_succ, Pos2Z.inj_xO, IH, Pos2Z.inj_succ.
    rewrite Z.pow_succ_r by lia. lia.
Qed.

Lemma shl_align_spec (mx : positive) (ex ex' : Z) :
  ex' <= ex ->
  exists mz : positive,
    shl_align mx ex ex' = (mz, ex') /\ Zpos mz = Zpos mx * 2 ^ (ex - ex').
Proof.
  intros Hle. unfold shl_align.
  destruct (ex' - ex) as [|d|d] eqn:E; try lia.
  - exists mx. replace ex' with ex by lia. rewrite Z.sub_diag. split; [reflexivity | lia].
  - exists (Pos.iter xO mx d). split; [reflexivity |].
    rewrite iter_xO. f_equal. f_equal. lia.
Qed.

(** An integer below 2 ^ 53 is a float: its mantissa is the integer
    shifted to 53 digits. *)
Lemma of_int_exact (p : positive) :
  Zpos p < 2 ^ 53 ->
  exists (m : positive) (e : Z),
    Float64.of_int (Zpos p) = S754_finite false m e
    /\ -52 <= e <= 0
    /\ Zpos m = Zpos p * 2 ^ (- e)
    /\ 2 ^ 52 <= Zpos m < 2 ^ 53.
Proof.
  intros Hp. unfold Float64.of_int, binary_normalize, binary_round.
  destruct (digits_bounds p) as [Hlo Hhi].
  pose proof (digits_le p 53 ltac:(lia) Hp) as Hd.
  set (d := Zpos (digits2_pos p)) in *.
  assert (Hd1 : 1 <= d) by (unfold d; lia).
  replace (fexp Float64.prec Float64.emax (d + 0)) with (d - 53)
    by (unfold fexp, emin, Float64.prec, Float64.emax; lia).
  destruct (shl_align_spec p 0 (d - 53) ltac:(lia)) as (mz & -> & Hmz).
  replace (0 - (d - 53)) with (53 - d) in Hmz by lia.
  assert (Hb : 2 ^ 52 <= Zpos mz < 2 ^ 53).
  { rewrite Hmz.
    replace (2 ^ 52) with (2 ^ (d - 1) * 2 ^ (53 - d))
      by (rewrite <- Z.pow_add_r by lia; f_equal; lia).
    replace (2 ^ 53) with (2 ^ d * 2 ^ (53 - d))
      by (rewrite <- Z.pow_add_r by lia; f_equal; lia).
    assert (0 < 2 ^ (53 - d)) by (apply Z.pow_pos_nonneg; lia).
    nia. }
  rewrite round_exact by lia.
  exists mz, (d - 53). split; [reflexivity |].
  split; [lia |]. split; [| exact Hb].
  rewrite Hmz. f_equal. f_equal. lia.
Qed.

(** The square root of a float with a full mantissa and an exponent from
    -52 to 0: the root of the mantissa shifted to 105 or 106 digits,
    rounded. *)
Lemma sqrt_of_exact (m : positive) (e : Z) :
  -52 <= e <= 0 -> 2 ^ 52 <= Zpos m < 2 ^ 53 ->
  exists (t : Z) (m' : positive) (e' : Z),
    26 <= t <= 52
    /\ e + 2 * t = 52 + Z.b2z (Z.odd e)
    /\ Float64.sqrt (S754_finite false m e) = S754_finite false m' e'
    /\ - t <= e' <= - t + 1
    /\ Z.sqrt (Zpos m * 2 ^ (e + 2 * t))
        <= Zpos m' * 2 ^ (e' + t)
        <= Z.sqrt (Zpos m * 2 ^ (e + 2 * t)) + 1.
Proof.
  intros He Hm. unfold Float64.sqrt, SFsqrt, SFsqrt_core_binary.
  cbn [Zdigits2]. rewrite (digits_eq m 53) by lia.
  pose proof (Z.div2_odd e) as Hodd.
  set (h := Z.div2 e) in *.
  assert (Hh : Z.div2 (53 + e + 1) = h + 27).
  { unfold h. rewrite !Z.div2_div.
    replace (53 + e + 1) with (e + 27 * 2) by lia.
    now rewrite Z.div_add by lia. }
  rewrite Hh.
  assert (Hb : 0 <= Z.b2z (Z.odd e) <= 1) by (destruct (Z.odd e); cbn; lia).
  replace (Z.min (fexp Float64.prec Float64.emax (h + 27)) h) with (h - 26)
    by (unfold fexp, emin, Float64.prec, Float64.emax; lia).
  set (t := 26 - h).
  assert (Ht : 26 <= t <= 52) by (unfold t; lia).
  assert (Hs : e - 2 * (h - 26) = e + 2 * t) by (unfold t; lia).
  rewrite Hs.
  assert (Hs' : e + 2 * t = 52 + Z.b2z (Z.odd e)) by (unfold t; lia).
  assert (Hshift : match e + 2 * t with
                   | 0 => Zpos m
                   | Zpos _ => Z.shiftl (Zpos m) (e + 2 * t)
                   | Zneg _ => 0
                   end = Zpos m * 2 ^ (e + 2 * t)).
  { destruct (e + 2 * t) eqn:E; try lia.
    rewrite Z.shiftl_mul_pow2 by lia. reflexivity. }
  rewrite Hshift.
  set (big := Zpos m * 2 ^ (e + 2 * t)).
  assert (Hpow : 2 ^ 52 <= 2 ^ (e + 2 * t) <= 2 ^ 53).
  { split; apply Z.pow_le_mono_r; lia. }
  assert (Hbig : 2 ^ 104 <= big < 2 ^ 106).
  { unfold big. change (2 ^ 104) with (2 ^ 52 * 2 ^ 52).
    change (2 ^ 106) with (2 ^ 53 * 2 ^ 53). nia. }
  pose proof (Z.sqrtrem_spec big ltac:(lia)) as Hspec.
  pose proof (Z.sqrtrem_sqrt big) as Hfst.
  destruct (Z.sqrtrem big) as [q r]. cbn [fst] in Hfst. subst q.
  set (q := Z.sqrt big) in *.
  assert (Hq : 2 ^ 52 <= q < 2 ^ 53).
  { unfold q. split.
    - apply Z.sqrt_le_square; [lia | lia |].
      change (2 ^ 52 * 2 ^ 52) with (2 ^ 104). lia.
    - apply Z.sqrt_lt_square; [lia | lia |].
      change (2 ^ 53 * 2 ^ 53) with (2 ^ 106). lia. }
  destruct q as [|mq|mq] eqn:Eq; try lia.
  destruct (round_fits false mq (h - 26)
              (if r =? 0 then loc_Exact
               else loc_Inexact (if r <=? Zpos mq then Lt else Gt))
              ltac:(lia) ltac:(lia))
    as (m' & e' & Hround & Hvalue & He').
  rewrite Hround. exists t, m', e'.
  split; [exact Ht |]. split; [exact Hs' |]. split; [reflexivity |].
  split; [unfold t; lia |].
  replace (e' + t) with (e' - (h - 26)) by (unfold t; lia).
  fold big. fold q. rewrite Eq. exact Hvalue.
Qed.

(** For an integer a float holds exactly, [int(n ** 0.5)] is the integer
    square root or the next integer, and it is below [n]. *)
Lemma int_root_bounds (n : Z) :
  2 <= n < 2 ^ 53 ->
  exists r, int_root n = Some r /\ Z.sqrt n <= r < n.
Proof.
  intros [Hlo Hhi].
  destruct (Z.eq_dec n 2) as [-> | Hne].
  { exists 1. split; [vm_compute; reflexivity |]. cbn. lia. }
  destruct n as [|p|p]; try lia.
  destruct (of_int_exact p Hhi) as (m & e & Hof & He & Hm & Hmb).
  unfold int_root, Float64.of_int_checked. rewrite Hof.
  cbn [mbind option_bind].
  destruct (sqrt_of_exact m e He Hmb)
    as (t & m' & e' & Ht & Hs & -> & He' & Hvalue).
  unfold Float64.to_int.
  destruct e' as [|pe|pe]; try lia.
  cbn [cond_Zopp]. eexists. split; [reflexivity |].
  set (k := Z.sqrt (Zpos p)).
  pose proof (Z.sqrt_spec (Zpos p) ltac:(lia)) as Hk. cbv zeta in Hk.
  fold k in Hk. pose proof (Z.sqrt_nonneg (Zpos p)) as Hk0. fold k in Hk0.
  set (D := 2 ^ Zpos pe) in *.
  set (c := 2 ^ (Zneg pe + t)) in *.
  set (T := 2 ^ t).
  assert (HD : 0 < D) by (apply Z.pow_pos_nonneg; lia).
  assert (Hc : 0 < c) by (apply Z.pow_pos_nonneg; lia).
  assert (HT : T = D * c).
  { unfold T, D, c. rewrite <- Z.pow_add_r by lia. f_equal. lia. }
  assert (Hbig : Zpos m * 2 ^ (e + 2 * t) = Zpos p * (T * T)).
  { rewrite Hm. unfold T. rewrite <- !Z.pow_add_r, <- Z.mul_assoc by lia.
    rewrite <- Z.pow_add_r by lia. f_equal. f_equal. lia. }
  rewrite Hbig in Hvalue.
  set (Q := Z.sqrt (Zpos p * (T * T))) in *.
  assert (HT0 : 0 < T) by (rewrite HT; nia).
  assert (HQlo : k * T <= Q).
  { apply Z.sqrt_le_square; nia. }
  assert (HQhi : Q < (k + 1) * T).
  { apply Z.sqrt_lt_square; nia. }
  assert (Hm'lo : D * k <= Zpos m') by nia.
  assert (Hm'hi : Zpos m' <= D * (k + 1)) by nia.
  split.
  - now apply Z.div_le_lower_bound.
  - assert (Zpos m' / D <= k + 1) by now apply Z.div_le_upper_bound.
    assert (k + 1 < Zpos p) by nia. lia.
Qed.

End RootFacts.

(** * The answer validator *)

Module ValidatorFacts.
Import Text TextFacts.

(** *** Ranges and primes *)

Lemma py_range_In (a b i : Z) : In i (py_range a b) <-> (a <= i < b)%Z.
Proof.
  unfold py_range. rewrite in_map_iff. split.
  - intros (k & <- & Hk). apply in_seq in Hk. lia.
  - intros H. exists (Z.to_nat (i - a)). split; [lia |]. apply in_seq. lia.
Qed.

Lemma py_range_NoDup (a b : Z) : List.NoDup (py_range a b).
Proof.
  unfold py_range. apply Finite.Injective_map_NoDup.
  - intros x y H. lia.
  - apply seq_NoDup.
Qed.

(** The trial division decides primality. *)
(** Trial division up to any bound between the integer square root and
    the number itself decides primality. *)
Lemma no_divisor_spec (n r : Z) :
  (2 <= n)%Z -> (Z.sqrt n <= r < n)%Z ->
  no_divisor n r = true <-> Z.prime n.
Proof.
  intros Hge [Hsr Hrn]. unfold no_divisor.
  rewrite forallb_forall. unfold Z.prime.
  assert (Hs := Z.sqrt_spec n ltac:(lia)). cbv zeta in Hs.
  assert (Hs0 := Z.sqrt_nonneg n).
  set (s := Z.sqrt n) in *. split.
  - intros Hall. split; [lia |]. intros d Hd [q Hq].
    assert (Hq0 : (0 < q)%Z) by nia.
    assert (Hq1 : (1 < q < n)%Z).
    { split; [| nia]. destruct (Z.eq_dec q 1%Z) as [-> | Hne]; lia. }
    destruct (Z.le_gt_cases d s) as [Hle | Hgt].
    + assert (Hin : In d (py_range 2 (r + 1))) by (apply py_range_In; lia).
      apply Hall in Hin. apply negb_true_iff, Z.eqb_neq in Hin.
      apply Hin. rewrite Hq. apply Z_mod_mult.
    + assert (Hqs : (q <= s)%Z) by nia.
      assert (Hin : In q (py_range 2 (r + 1))) by (apply py_range_In; lia).
      apply Hall in Hin. apply negb_true_iff, Z.eqb_neq in Hin.
      apply Hin. rewrite Hq, Z.mul_comm. apply Z_mod_mult.
  - intros [_ Hnd] i Hi. apply py_range_In in Hi.
    apply negb_true_iff, Z.eqb_neq. intros Hm.
    apply (Hnd i); [lia |]. apply Z.mod_divide; [lia | exact Hm].
Qed.

Lemma even_test (i : Z) : (i mod 2 =? 0)%Z = true <-> (2 | i)%Z.
Proof. rewrite Z.eqb_eq. apply Z.mod_divide. lia. Qed.

Lemma odd_test (i : Z) : (i mod 2 =? 1)%Z = true <-> ~ (2 | i)%Z.
Proof.
  rewrite Z.eqb_eq, <- (Z.mod_divide i 2) by lia.
  assert (H := Z.mod_pos_bound i 2 ltac:(lia)). lia.
Qed.

(** Below 2 ^ 53 the local [is_prime] never fails and tells the primes. *)
Lemma is_prime_spec (n : Z) :
  (n < 2 ^ 53)%Z ->
  exists verdict : bool,
    is_prime n = Some verdict /\ (verdict = true <-> Z.prime n).
Proof.
  intros Hn. unfold is_prime. destruct (Z.ltb_spec n 2) as [Hlt | Hge].
  - exists false. split; [reflexivity |].
    split; [discriminate |]. intros [Hp _]. lia.
  - destruct (RootFacts.int_root_bounds n ltac:(lia)) as (r & -> & Hr).
    cbn [mbind option_bind]. eexists. split; [reflexivity |].
    now apply no_divisor_spec.
Qed.

(** The primes of a list of such integers, each once when the list holds
    each once. *)
Lemma keep_primes_spec (numbers : list Z) :
  (forall i, In i numbers -> (i < 2 ^ 53)%Z) ->
  List.NoDup numbers ->
  exists primes : list Z,
    keep_primes numbers = Some primes
    /\ List.NoDup primes
    /\ forall i, In i primes <-> In i numbers /\ Z.prime i.
Proof.
  induction numbers as [|n numbers IH]; intros Hb Hnd.
  - exists []. split; [reflexivity |]. split; [apply List.NoDup_nil |].
    intros i. cbn [In]. tauto.
  - inversion Hnd as [|? ? Hn Hnd']; subst.
    destruct IH as (primes & Hk & Hnd'' & Hin);
      [intros i Hi; apply Hb; now right | exact Hnd' |].
    destruct (is_prime_spec n (Hb n (or_introl eq_refl)))
      as (verdict & Hv & Hprime).
    cbn [keep_primes]. rewrite Hv, Hk. cbn [mbind option_bind].
    eexists. split; [reflexivity |]. destruct verdict.
    + split.
      * constructor; [| exact Hnd'']. intros Hc. apply Hin in Hc as [Hc _].
        contradiction.
      * intros i. cbn [In]. rewrite Hin. split.
        -- intros [<- | [Hi Hp]]; [| tauto]. split; [now left |].
           now apply Hprime.
        -- intros [[<- | Hi] Hp]; [now left | right; tauto].
    + split; [exact Hnd'' |]. intros i. cbn [In]. rewrite Hin. split.
      * intros [Hi Hp]. tauto.
      * intros [[<- | Hi] Hp]; [| tauto].
        apply Hprime in Hp. discriminate.
Qed.

(** The sum the code recomputes is the sum the specification describes;
    for the primes, as long as the integers of the range are below
    2 ^ 53. *)
Lemma range_sum_spec (d : string) (lo hi : Z) :
  (sums_primes d = true -> (hi < 2 ^ 53)%Z) ->
  exists total : Z,
    range_sum d lo hi = Some total
    /\ ValidatorSpec.is_range_sum d lo hi total.
Proof.
  unfold ValidatorSpec.is_range_sum, range_sum, ValidatorSpec.kept,
    sums_primes.
  assert (Hin : forall i, In i (py_range lo (hi + 1)) <-> (lo <= i <= hi)%Z).
  { intros i. rewrite py_range_In. lia. }
  destruct (contains "even" d); [| destruct (contains "odd" d);
    [| destruct (contains "prime" d)]]; cbn [negb andb]; intros Hb.
  - eexists. split; [reflexivity |].
    eexists. split; [apply List.NoDup_filter, py_range_NoDup |].
    split; [| reflexivity]. intros i. now rewrite filter_In, Hin, even_test.
  - eexists. split; [reflexivity |].
    eexists. split; [apply List.NoDup_filter, py_range_NoDup |].
    split; [| reflexivity]. intros i. now rewrite filter_In, Hin, odd_test.
  - destruct (keep_primes_spec (py_range lo (hi + 1)))
      as (primes & -> & Hnd & Hp).
    + intros i Hi. apply Hin in Hi. specialize (Hb eq_refl). lia.
    + apply py_range_NoDup.
    + cbn [mbind option_bind]. eexists. split; [reflexivity |].
      exists primes. split; [exact Hnd |]. split; [| reflexivity].
      intros i. now rewrite Hp, Hin.
  - eexists. split; [reflexivity |].
    eexists. split; [apply py_range_NoDup |].
    split; [| reflexivity]. intros i. rewrite Hin. tauto.
Qed.

(** *** Numerals *)

Lemma all_chars_impl (p q : ascii -> bool) (s : string) :
  (forall c, p c = true -> q c = true) ->
  all_chars p s = true -> all_chars q s = true.
Proof.
  intros Hpq. induction s as [|c s IH]; simpl; [reflexivity |].
  intros H. apply andb_prop in H as [Hc Hs]. now rewrite (Hpq c Hc), IH.
Qed.

Lemma drop_underscores_from_plain (prev : ascii) (s : string) :
  Ascii.eqb prev "_" = false -> all_chars plain s = true ->
  drop_underscores_from prev s = Some s.
Proof.
  revert prev. induction s as [|c s IH]; intros prev Hprev Hall;
    cbn [drop_underscores_from].
  - now rewrite Hprev.
  - cbn [all_chars] in Hall. apply andb_prop in Hall as [Hc Hs].
    unfold plain in Hc. apply negb_true_iff in Hc. rewrite Hc, Hprev.
    cbn [andb]. now rewrite (IH c Hc Hs).
Qed.

Lemma drop_underscores_plain (s : string) :
  all_chars plain s = true -> drop_underscores s = Some s.
Proof. apply drop_underscores_from_plain. reflexivity. Qed.

Lemma rstrip_solid (s : string) : all_chars solid s = true -> rstrip s = s.
Proof.
  induction s as [|c s IH]; cbn [rstrip all_chars]; [reflexivity |].
  intros H. apply andb_prop in H as [Hc Hs]. rewrite (IH Hs).
  unfold solid in Hc. apply negb_true_iff in Hc.
  destruct s; [now rewrite Hc | reflexivity].
Qed.

Lemma strip_solid (s : string) : all_chars solid s = true -> strip s = s.
Proof.
  intros H. unfold strip.
  assert (Hl : lstrip s = s).
  { destruct s as [|c s]; [reflexivity |]. cbn [lstrip all_chars] in *.
    apply andb_prop in H as [Hc _]. unfold solid in Hc.
    apply negb_true_iff in Hc. now rewrite Hc. }
  rewrite Hl. now apply rstrip_solid.
Qed.

Lemma blank_is_space (c : ascii) : is_blank c = true -> is_space c = true.
Proof. unfold is_blank. intros H. now apply andb_prop in H as [H _]. Qed.

Lemma solid_not_blank (c : ascii) : solid c = true -> is_blank c = false.
Proof.
  unfold solid. intros H. apply negb_true_iff in H.
  destruct (is_blank c) eqn:E; [| reflexivity].
  apply blank_is_space in E. congruence.
Qed.

Lemma rtrim_solid (s : string) : all_chars solid s = true -> rtrim s = s.
Proof.
  induction s as [|c s IH]; cbn [rtrim all_chars]; [reflexivity |].
  intros H. apply andb_prop in H as [Hc Hs]. rewrite (IH Hs).
  destruct s; [now rewrite (solid_not_blank c Hc) | reflexivity].
Qed.

Lemma trim_solid (s : string) : all_chars solid s = true -> trim s = s.
Proof.
  intros H. unfold trim.
  assert (Hl : ltrim s = s).
  { destruct s as [|c s]; [reflexivity |]. cbn [ltrim all_chars] in *.
    apply andb_prop in H as [Hc _]. now rewrite (solid_not_blank c Hc). }
  rewrite Hl. now apply rtrim_solid.
Qed.

Lemma digit_plain (c : ascii) : is_digit c = true -> plain c = true.
Proof. by_cases_on_char c. Qed.

Lemma digit_solid (c : ascii) : is_digit c = true -> solid c = true.
Proof. by_cases_on_char c. Qed.

Lemma digit_no_sign (c : ascii) :
  is_digit c = true -> Ascii.eqb c "-" = false /\ Ascii.eqb c "+" = false.
Proof. by_cases_on_char c. Qed.

(** [int] of a run of digits never fails. *)
Lemma py_int_digits (s : string) :
  s <> "" -> all_chars is_digit s = true -> py_int s = Some (digits_value s).
Proof.
  intros Hne Hall. unfold py_int.
  rewrite (drop_underscores_plain s (all_chars_impl _ _ s digit_plain Hall)).
  rewrite (trim_solid s (all_chars_impl _ _ s digit_solid Hall)).
  destruct s as [|c s]; [congruence |]. cbn [take_sign].
  cbn [all_chars] in Hall. pose proof Hall as Hall'.
  apply andb_prop in Hall' as [Hc _].
  destruct (digit_no_sign c Hc) as [-> ->].
  cbn [all_chars]. rewrite Hall. reflexivity.
Qed.

(** [str] of an integer is never empty. *)
Lemma str_of_int_nonempty (n : Z) : str_of_int n <> "".
Proof.
  unfold str_of_int. destruct n as [|p|p]; cbn; [discriminate | |].
  - unfold NilZero.string_of_uint. destruct (Pos.to_uint p); discriminate.
  - discriminate.
Qed.

(** After a correction by string comparison, the stored answer is the
    recomputed one, whether it was replaced or already there. *)
Lemma fix_answer_lookup (correct : string) (problem_data : gmap string string) :
  correct <> "" ->
  fix_answer (negb (String.eqb correct (get "expected_answer" problem_data)))
    correct problem_data !! "expected_answer" = Some correct.
Proof.
  intros Hne. unfold fix_answer.
  destruct (String.eqb correct (get "expected_answer" problem_data)) eqn:E;
    cbn [negb].
  - apply String.eqb_eq in E. unfold get in E.
    destruct (problem_data !! "expected_answer") as [v|]; cbn in E;
      congruence.
  - apply lookup_insert_eq.
Qed.

End ValidatorFacts.

Module RangeSumFacts.
Import Text TextFacts Regex RegexFacts ValidatorFacts.

(** The two groups of the range pattern are runs of digits. *)
Lemma match_range_groups (s lo hi : string) :
  match_range s = Some (lo, hi) ->
  (lo <> "" /\ all_chars is_digit lo = true)
  /\ (hi <> "" /\ all_chars is_digit hi = true).
Proof.
  unfold match_range.
  destruct (either "between" "from" s) as [r0|]; [| discriminate].
  cbn [mbind option_bind].
  destruct (run1 is_space r0) as [[w1 r1]|]; [| discriminate].
  cbn [mbind option_bind].
  destruct (run1 is_digit r1) as [[x r2]|] eqn:Ex; [| discriminate].
  cbn [mbind option_bind].
  destruct (run1 is_space r2) as [[w2 r3]|]; [| discriminate].
  cbn [mbind option_bind].
  destruct (either "and" "to" r3) as [r4|]; [| discriminate].
  cbn [mbind option_bind].
  destruct (run1 is_space r4) as [[w3 r5]|]; [| discriminate].
  cbn [mbind option_bind].
  destruct (run1 is_digit r5) as [[y r6]|] eqn:Ey; [| discriminate].
  cbn [mbind option_bind]. intros [= <- <-].
  apply run1_Some in Ex as (? & _ & ? & _).
  apply run1_Some in Ey as (? & _ & ? & _). now repeat split.
Qed.

Lemma search_range_groups (s lo hi : string) :
  search match_range s = Some (lo, hi) ->
  py_int lo = Some (digits_value lo) /\ py_int hi = Some (digits_value hi).
Proof.
  intros H. apply search_Some in H as (pre & post & _ & Hm & _).
  apply match_range_groups in Hm as [[? ?] [? ?]].
  split; now apply py_int_digits.
Qed.

(** What the validator does on the range-sum branch. *)
Lemma validate_range_sum (problem_data : gmap string string) (lo hi : string) :
  classify (get "description" problem_data) = RangeSum ->
  search match_range (lower (get "description" problem_data)) = Some (lo, hi) ->
  validate_and_fix_problem problem_data
  = match range_sum (lower (get "description" problem_data))
            (digits_value lo) (digits_value hi) with
    | Some total =>
        fix_answer
          (negb (String.eqb (str_of_int total)
                   (get "expected_answer" problem_data)))
          (str_of_int total) problem_data
    | None => problem_data
    end.
Proof.
  intros Hclass Hsearch. unfold validate_and_fix_problem.
  rewrite Hclass, Hsearch. cbn [mbind option_bind]. unfold try_range_sum.
  cbn [fst snd]. destruct (search_range_groups _ lo hi Hsearch) as [-> ->].
  cbn [mbind option_bind]. now destruct (range_sum _ _ _).
Qed.

End RangeSumFacts.

(** C3.  The code misses part of the archetype it parses: a description of
    the shape "sum ... from X to Y" is matched by the range pattern, which
    reads [between] or [from] and then [and] or [to], but the branch is
    entered only when the description holds the word [between].  For
    "Find the sum of all numbers from 1 to 10" the pattern finds the bounds
    1 and 10, the sum is 55, and the wrong answer [50] stays. *)
Lemma range_sum_without_between_is_not_validated :
  Regex.search Regex.match_range (Text.lower "Find the sum of all numbers from 1 to 10")
    = Some ("1", "10")
  /\ sum_int (py_range 1 (10 + 1)) = 55%Z
  /\ validate_and_fix_problem
       (<["description" := "Find the sum of all numbers from 1 to 10"]>
          (<["expected_answer" := "50"]> ∅)) !! "expected_answer"
     = Some "50".
Proof. repeat split; vm_compute; reflexivity. Qed.

(** On the range-sum branch the validator recomputes the sum.  For every
    problem whose lower-cased description holds [sum] and [between] and
    neither [average] nor [mean], and in which the pattern
    "between|from X and|to Y" with two runs of digits matches, the validator
    recomputes the sum of the integers of the inclusive range [X, Y] that
    are kept (all of them, or the even, the odd or the prime ones when the
    description holds [even], [odd] or [prime], the first of these in that
    order), and the stored expected answer is replaced by the recomputed
    integer as text whenever the two texts differ.  Where the primes are
    asked for, [Y] is below 2 ^ 53: the primality test takes its bound from
    a float.  For "sum of all prime numbers between 1 and 15" the stored
    answer ends as 41. *)
Theorem range_sum_is_recomputed :
  (forall (problem_data : gmap string string) (lo hi : string),
     classify (get "description" problem_data) = RangeSum ->
     Regex.search Regex.match_range
       (Text.lower (get "description" problem_data)) = Some (lo, hi) ->
     (sums_primes (Text.lower (get "description" problem_data)) = true ->
      (Text.digits_value hi < 2 ^ 53)%Z) ->
     exists total : Z,
       ValidatorSpec.is_range_sum (Text.lower (get "description" problem_data))
         (Text.digits_value lo) (Text.digits_value hi) total
       /\ validate_and_fix_problem problem_data
          = (if String.eqb (Text.str_of_int total)
                  (get "expected_answer" problem_data)
             then problem_data
             else <["expected_answer" := Text.str_of_int total]> problem_data)
       /\ validate_and_fix_problem problem_data !! "expected_answer"
          = Some (Text.str_of_int total))
  /\ (forall problem_data : gmap string string,
        get "description" problem_data
          = "sum of all prime numbers between 1 and 15" ->
        validate_and_fix_problem problem_data !! "expected_answer"
          = Some "41").
Proof.
  split.
  - intros problem_data lo hi Hclass Hsearch Hbound.
    destruct (ValidatorFacts.range_sum_spec
                (Text.lower (get "description" problem_data))
                (Text.digits_value lo) (Text.digits_value hi) Hbound)
      as (total & Hsum & Hspec).
    exists total. split; [exact Hspec |].
    rewrite (RangeSumFacts.validate_range_sum problem_data lo hi Hclass Hsearch).
    rewrite Hsum. split.
    + unfold fix_answer. now destruct (String.eqb _ _).
    + apply ValidatorFacts.fix_answer_lookup, ValidatorFacts.str_of_int_nonempty.
  - intros problem_data Hdesc.
    assert (Hclass : classify (get "description" problem_data) = RangeSum)
      by (rewrite Hdesc; vm_compute; reflexivity).
    assert (Hsearch : Regex.search Regex.match_range
                        (Text.lower (get "description" problem_data))
                      = Some ("1", "15"))
      by (rewrite Hdesc; vm_compute; reflexivity).
    assert (Htotal : range_sum (Text.lower (get "description" problem_data))
                       (Text.digits_value "1") (Text.digits_value "15")
                     = Some 41%Z)
      by (rewrite Hdesc; vm_compute; reflexivity).
    rewrite (RangeSumFacts.validate_range_sum problem_data "1" "15" Hclass Hsearch).
    rewrite Htotal. now apply ValidatorFacts.fix_answer_lookup.
Qed.

Lemma range_sum_is_recomputed_witness :
  exists total : Z,
    ValidatorSpec.is_range_sum
      (Text.lower (get "description" Toy.primes_to_fifteen)) 1 15 total
    /\ validate_and_fix_problem Toy.primes_to_fifteen
       = (if String.eqb (Text.str_of_int total)
               (get "expected_answer" Toy.primes_to_fifteen)
          then Toy.primes_to_fifteen
          else <["expected_answer" := Text.str_of_int total]> Toy.primes_to_fifteen)
    /\ validate_and_fix_problem Toy.primes_to_fifteen !! "expected_answer"
       = Some (Text.str_of_int total).
Proof.
  apply (proj1 range_sum_is_recomputed Toy.primes_to_fifteen "1" "15");
    [vm_compute; reflexivity | vm_compute; reflexivity |].
  intros _. vm_compute. reflexivity.
Defined.

Module RangeSumExamples.

Fixpoint zeros (n : nat) : string :=
  match n with
  | O => EmptyString
  | S k => String "0" (zeros k)
  end.

(** 2 followed by 309 zeros: an integer no float holds. *)
Definition beyond_floats : string := "2" +:+ zeros 309.

Definition primes_beyond_floats : gmap string string :=
  <["description" :=
      "sum of all prime numbers between " +:+ beyond_floats +:+ " and "
      +:+ beyond_floats]>
    (<["expected_answer" := "7"]> ∅).

End RangeSumExamples.

(** Where the primality test cannot take its bound, because the integer
    is too large for a float, the exception leaves the stored answer as it
    is. *)
Lemma prime_sum_beyond_the_floats_is_kept :
  classify (get "description" RangeSumExamples.primes_beyond_floats) = RangeSum
  /\ is_prime (Text.digits_value RangeSumExamples.beyond_floats) = None
  /\ validate_and_fix_problem RangeSumExamples.primes_beyond_floats
     = RangeSumExamples.primes_beyond_floats.
Proof. repeat split; vm_compute; reflexivity. Qed.

Module AverageFacts.
Import Text TextFacts Regex RegexFacts ValidatorFacts.

Lemma span_all (p : ascii -> bool) (u : string) :
  all_chars p u = true -> span p u = (u, "").
Proof.
  intros H. rewrite <- (append_nil_r u) at 1. now apply span_append.
Qed.

(** *** A float formatted to two decimals parses again *)

Lemma uint_digits (u : Decimal.uint) :
  all_chars is_digit (NilEmpty.string_of_uint u) = true.
Proof. induction u; cbn [NilEmpty.string_of_uint all_chars]; auto. Qed.

Lemma str_of_int_digits (n : Z) :
  (0 <= n)%Z ->
  str_of_int n <> "" /\ all_chars is_digit (str_of_int n) = true.
Proof.
  intros Hn. split; [apply str_of_int_nonempty |].
  unfold str_of_int. destruct n as [|p|p]; [reflexivity | | lia].
  cbn [Z.to_int NilZero.string_of_int]. unfold NilZero.string_of_uint.
  destruct (Pos.to_uint p) eqn:E; try (rewrite <- E; apply uint_digits).
  reflexivity.
Qed.

Lemma two_digits_digits (n : Z) :
  (0 <= n)%Z -> all_chars is_digit (Float64.two_digits n) = true.
Proof.
  intros Hn. unfold Float64.two_digits. destruct (n <? 10)%Z.
  - cbn [String.append all_chars]. now apply str_of_int_digits.
  - now apply str_of_int_digits.
Qed.

Lemma div_round_half_even_nonneg (n d : Z) :
  (0 <= n)%Z -> (0 < d)%Z -> (0 <= Float64.div_round_half_even n d)%Z.
Proof.
  intros Hn Hd. unfold Float64.div_round_half_even.
  assert (H : (0 <= n / d)%Z) by (apply Z.div_pos; lia).
  destruct (2 * (n mod d) ?= d)%Z; [destruct (Z.even (n / d)) | |]; lia.
Qed.

(** An unsigned numeral with a point between two runs of digits. *)
Lemma parse_decimal_plain (neg : bool) (ip fp : string) :
  ip <> "" -> all_chars is_digit ip = true -> all_chars is_digit fp = true ->
  exists x,
    Float64.py_float ((if neg then "-" else "") +:+ ip +:+ "." +:+ fp) = Some x.
Proof.
  intros Hne Hip Hfp. unfold Float64.py_float.
  set (body := (if neg then "-" else "") +:+ ip +:+ "." +:+ fp).
  assert (Hchars : forall q : ascii -> bool,
            q "-"%char = true -> q "."%char = true ->
            (forall c, is_digit c = true -> q c = true) ->
            all_chars q body = true).
  { intros q Hm Hp Hq. unfold body.
    rewrite !all_chars_append, (all_chars_impl _ _ ip Hq Hip),
      (all_chars_impl _ _ fp Hq Hfp).
    cbn [all_chars]. rewrite Hp. now destruct neg; cbn [all_chars]; rewrite ?Hm. }
  rewrite (drop_underscores_plain body
             (Hchars plain eq_refl eq_refl digit_plain)).
  rewrite (trim_solid body (Hchars solid eq_refl eq_refl digit_solid)).
  unfold Float64.parse_decimal.
  assert (Hsign : take_sign body = (neg, ip +:+ "." +:+ fp)).
  { unfold body. destruct neg; [reflexivity |]. cbn [String.append].
    destruct ip as [|c ip]; [congruence |]. cbn [String.append take_sign].
    cbn [all_chars] in Hip. apply andb_prop in Hip as [Hc _].
    now destruct (digit_no_sign c Hc) as [-> ->]. }
  rewrite Hsign.
  rewrite (span_append is_digit ip ("." +:+ fp) Hip eq_refl).
  rewrite (strip_prefix_append "." fp), (span_all is_digit fp Hfp).
  destruct ip as [|c ip]; [congruence |].
  cbn [String.eqb andb]. eauto.
Qed.

Lemma format_2f_parses (x : spec_float) :
  exists y, Float64.py_float (Float64.format_2f x) = Some y.
Proof.
  destruct x as [s | s | | s m e]; cbn [Float64.format_2f].
  - destruct s; eexists; vm_compute; reflexivity.
  - destruct s; eexists; vm_compute; reflexivity.
  - eexists; vm_compute; reflexivity.
  - set (h := match e with
              | Zneg p => Float64.div_round_half_even (Z.pos m * 100) (2 ^ Z.pos p)
              | _ => (Z.pos m * 100 * 2 ^ e)%Z
              end).
    assert (Hh : (0 <= h)%Z).
    { unfold h. destruct e as [|p|p].
      - lia.
      - assert (0 < 2 ^ Z.pos p)%Z by (apply Z.pow_pos_nonneg; lia). nia.
      - apply div_round_half_even_nonneg; [lia |].
        apply Z.pow_pos_nonneg; lia. }
    assert (H1 : (0 <= h / 100)%Z) by (apply Z.div_pos; lia).
    assert (H2 : (0 <= h mod 100)%Z) by (apply Z.mod_pos_bound; lia).
    destruct (str_of_int_digits (h / 100) H1) as [Hne Hd].
    apply parse_decimal_plain; [exact Hne | exact Hd |].
    now apply two_digits_digits.
Qed.

(** What the validator does on the average branch, for a list that
    parses. *)
Lemma validate_average (problem_data : gmap string string)
    (group : string) (numbers : list spec_float) :
  classify (get "description" problem_data) = Average ->
  search (match_list is_list_char) (get "description" problem_data) = Some group ->
  mapM (fun x => Float64.py_float (strip x)) (list_items group) = Some numbers ->
  validate_and_fix_problem problem_data
  = match beyond_tolerance (Float64.format_2f (ValidatorSpec.mean numbers))
            (get "expected_answer" problem_data) with
    | Some differs =>
        fix_answer differs (Float64.format_2f (ValidatorSpec.mean numbers))
          problem_data
    | None => problem_data
    end.
Proof.
  intros Hclass Hsearch Hnumbers. unfold validate_and_fix_problem.
  rewrite Hclass, Hsearch. cbn [mbind option_bind].
  unfold try_average, average_answer. rewrite Hnumbers.
  cbn [mbind option_bind]. fold (ValidatorSpec.mean numbers).
  now destruct (beyond_tolerance _ _).
Qed.

End AverageFacts.

(** C4.  The code misses the lists with a negative number: the description
    "average of [-1, -2, -3]" mentions [average] and holds a bracketed
    numeric list, which the list pattern of the extremum branch finds and
    whose mean is -2.00, but the list pattern of the average branch has no
    minus sign, so nothing is recomputed and the claimed answer [5] stays. *)
Lemma average_of_negative_numbers_is_not_validated :
  classify "average of [-1, -2, -3]" = Average
  /\ Regex.search (Regex.match_list Regex.is_signed_list_char)
       "average of [-1, -2, -3]" = Some "-1, -2, -3"
  /\ option_map (fun numbers => Float64.format_2f (ValidatorSpec.mean numbers))
       (mapM (fun x => Float64.py_float (Text.strip x)) (list_items "-1, -2, -3"))
     = Some "-2.00"
  /\ validate_and_fix_problem
       (<["description" := "average of [-1, -2, -3]"]>
          (<["expected_answer" := "5"]> ∅)) !! "expected_answer"
     = Some "5".
Proof. repeat split; vm_compute; reflexivity. Qed.

(** A claimed answer within the tolerance stays as it was written, and so
    does one that is no number. *)
Lemma average_within_tolerance_is_kept :
  validate_and_fix_problem
    (<["description" := "average of [1,2,3,4]"]>
       (<["expected_answer" := "2.5"]> ∅)) !! "expected_answer"
  = Some "2.5"
  /\ validate_and_fix_problem
       (<["description" := "average of [1,2,3,4]"]>
          (<["expected_answer" := "two and a half"]> ∅)) !! "expected_answer"
     = Some "two and a half".
Proof. split; vm_compute; reflexivity. Qed.

(** [float] does not skip the separators U+001C to U+001F: a stored answer
    that ends with one is no number, and it stays. *)
Lemma answer_with_a_separator_is_kept :
  Float64.py_float ("3" +:+ String (ascii_of_nat 31) EmptyString) = None
  /\ validate_and_fix_problem
       (<["description" := "average of [1,2,3,4]"]>
          (<["expected_answer" :=
               "3" +:+ String (ascii_of_nat 31) EmptyString]> ∅))
       !! "expected_answer"
     = Some ("3" +:+ String (ascii_of_nat 31) EmptyString).
Proof. split; vm_compute; reflexivity. Qed.

(** On the average branch the validator recomputes the mean.  For every
    problem whose description mentions [average]
    or [mean] and holds a bracketed list of unsigned decimal numbers (the
    first bracketed run of digits, whitespace, dots and commas, whose items
    all parse as floats), the validator recomputes the arithmetic mean of
    the list, formats it to two decimals and, when the claimed answer is a
    number, replaces it by the formatted value exactly when the formatted
    value and the claim differ by more than 0.01.  In particular, with the
    description "average of [1,2,3,4]" the formatted value is "2.50", and a
    claimed answer more than 0.01 away from it ends as "2.50". *)
Theorem average_is_recomputed :
  (forall (problem_data : gmap string string) (group : string)
          (numbers : list spec_float) (claimed : spec_float),
     classify (get "description" problem_data) = Average ->
     Regex.search (Regex.match_list Regex.is_list_char)
       (get "description" problem_data) = Some group ->
     mapM (fun x => Float64.py_float (Text.strip x)) (list_items group)
       = Some numbers ->
     Float64.py_float (get "expected_answer" problem_data) = Some claimed ->
     exists recomputed : spec_float,
       Float64.py_float (Float64.format_2f (ValidatorSpec.mean numbers))
         = Some recomputed
       /\ validate_and_fix_problem problem_data
          = (if Float64.ltb Float64.tolerance
                  (Float64.abs (Float64.sub recomputed claimed))
             then <["expected_answer" :=
                      Float64.format_2f (ValidatorSpec.mean numbers)]> problem_data
             else problem_data))
  /\ (forall problem_data : gmap string string,
        get "description" problem_data = "average of [1,2,3,4]" ->
        beyond_tolerance "2.50" (get "expected_answer" problem_data) = Some true ->
        validate_and_fix_problem problem_data !! "expected_answer"
          = Some "2.50").
Proof.
  split.
  - intros problem_data group numbers claimed Hclass Hsearch Hnumbers Hclaimed.
    destruct (AverageFacts.format_2f_parses (ValidatorSpec.mean numbers))
      as [recomputed Hrec].
    exists recomputed. split; [exact Hrec |].
    rewrite (AverageFacts.validate_average problem_data group numbers
               Hclass Hsearch Hnumbers).
    unfold beyond_tolerance. rewrite Hrec, Hclaimed.
    cbn [mbind option_bind]. reflexivity.
  - intros problem_data Hdesc Hbeyond.
    assert (Hclass : classify (get "description" problem_data) = Average)
      by (rewrite Hdesc; vm_compute; reflexivity).
    assert (Hsearch : Regex.search (Regex.match_list Regex.is_list_char)
                        (get "description" problem_data) = Some "1,2,3,4")
      by (rewrite Hdesc; vm_compute; reflexivity).
    assert (Hnumbers : mapM (fun x => Float64.py_float (Text.strip x))
                         (list_items "1,2,3,4")
                       = Some (map Float64.of_int [1; 2; 3; 4]%Z))
      by (vm_compute; reflexivity).
    assert (Hformat : Float64.format_2f
                        (ValidatorSpec.mean (map Float64.of_int [1; 2; 3; 4]%Z))
                      = "2.50")
      by (vm_compute; reflexivity).
    rewrite (AverageFacts.validate_average problem_data "1,2,3,4" _
               Hclass Hsearch Hnumbers).
    rewrite Hformat, Hbeyond. unfold fix_answer. apply lookup_insert_eq.
Qed.

Lemma average_is_recomputed_witness :
  validate_and_fix_problem Toy.average_claimed_three !! "expected_answer"
  = Some "2.50"
  /\ exists recomputed : spec_float,
       Float64.py_float
         (Float64.format_2f
            (ValidatorSpec.mean (map Float64.of_int [1; 2; 3; 4]%Z)))
         = Some recomputed
       /\ validate_and_fix_problem Toy.average_claimed_three
          = (if Float64.ltb Float64.tolerance
                  (Float64.abs (Float64.sub recomputed (Float64.of_int 3)))
             then <["expected_answer" :=
                      Float64.format_2f
                        (ValidatorSpec.mean (map Float64.of_int [1; 2; 3; 4]%Z))]>
                    Toy.average_claimed_three
             else Toy.average_claimed_three).
Proof.
  split.
  - apply (proj2 average_is_recomputed); vm_compute; reflexivity.
  - apply (proj1 average_is_recomputed Toy.average_claimed_three "1,2,3,4");
      vm_compute; reflexivity.
Defined.

Module ExtremumFacts.
Import Text TextFacts Regex RegexFacts ValidatorFacts.
Import ValidatorSpec.

(** *** Largest and smallest *)

Lemma fold_max_spec (xs : list Z) (x : Z) :
  (fold_left Z.max xs x = x \/ In (fold_left Z.max xs x) xs)
  /\ (x <= fold_left Z.max xs x)%Z
  /\ forall y, In y xs -> (y <= fold_left Z.max xs x)%Z.
Proof.
  revert x. induction xs as [|a xs IH]; intros x; cbn [fold_left In].
  - split; [now left |]. split; [lia | intros y []].
  - destruct (IH (Z.max x a)) as (Hin & Hle & Hall).
    split; [| split].
    + destruct Hin as [Heq | Hin]; [| right; now right].
      rewrite Heq. destruct (Z.max_spec x a) as [[_ ->] | [_ ->]];
        [right; now left | now left].
    + lia.
    + intros y [<- | Hy]; [lia | now apply Hall].
Qed.

Lemma fold_min_spec (xs : list Z) (x : Z) :
  (fold_left Z.min xs x = x \/ In (fold_left Z.min xs x) xs)
  /\ (fold_left Z.min xs x <= x)%Z
  /\ forall y, In y xs -> (fold_left Z.min xs x <= y)%Z.
Proof.
  revert x. induction xs as [|a xs IH]; intros x; cbn [fold_left In].
  - split; [now left |]. split; [lia | intros y []].
  - destruct (IH (Z.min x a)) as (Hin & Hle & Hall).
    split; [| split].
    + destruct Hin as [Heq | Hin]; [| right; now right].
      rewrite Heq. destruct (Z.min_spec x a) as [[_ ->] | [_ ->]];
        [now left | right; now left].
    + lia.
    + intros y [<- | Hy]; [lia | now apply Hall].
Qed.

Lemma py_max_spec (l : list Z) :
  l <> [] -> exists m, py_max l = Some m /\ is_largest l m.
Proof.
  destruct l as [|x xs]; [congruence |]. intros _.
  exists (fold_left Z.max xs x). split; [reflexivity |].
  destruct (fold_max_spec xs x) as (Hin & Hle & Hall). split.
  - destruct Hin as [-> | Hin]; [now left | now right].
  - intros y [<- | Hy]; [exact Hle | now apply Hall].
Qed.

Lemma py_min_spec (l : list Z) :
  l <> [] -> exists m, py_min l = Some m /\ is_smallest l m.
Proof.
  destruct l as [|x xs]; [congruence |]. intros _.
  exists (fold_left Z.min xs x). split; [reflexivity |].
  destruct (fold_min_spec xs x) as (Hin & Hle & Hall). split.
  - destruct Hin as [-> | Hin]; [now left | now right].
  - intros y [<- | Hy]; [exact Hle | now apply Hall].
Qed.

(** *** The distinct values in descending order *)

#[local] Instance descending_transitive : Transitive descending.
Proof. intros x y z. unfold descending. lia. Qed.

#[local] Instance descending_total : Total descending.
Proof. intros x y. unfold descending. lia. Qed.

Lemma sorted_distinct_desc_spec (l : list Z) :
  StronglySorted descending (sorted_distinct_desc l)
  /\ NoDup (sorted_distinct_desc l)
  /\ forall x, In x (sorted_distinct_desc l) <-> In x l.
Proof.
  unfold sorted_distinct_desc. split; [| split].
  - apply StronglySorted_merge_sort; apply _.
  - rewrite merge_sort_Permutation. apply NoDup_remove_dups.
  - intros x. rewrite <- !list_elem_of_In, merge_sort_Permutation.
    apply elem_of_remove_dups.
Qed.

Lemma filter_below_constant (l : list Z) (m : Z) :
  (forall x, In x l -> x = m) -> List.filter (fun x => (x <? m)%Z) l = [].
Proof.
  induction l as [|x l IH]; intros Hall; cbn [List.filter]; [reflexivity |].
  rewrite (Hall x (or_introl eq_refl)), Z.ltb_irrefl.
  apply IH. intros y Hy. apply Hall. now right.
Qed.

(** The second element of the sorted distinct values, or the first when
    there is no second, is the second largest as the specification words
    it. *)
Lemma second_largest_spec (l : list Z) :
  l <> [] ->
  exists v,
    (if (1 <? length (sorted_distinct_desc l))%nat
     then sorted_distinct_desc l !! 1%nat
     else sorted_distinct_desc l !! 0%nat) = Some v
    /\ is_second_largest l v.
Proof.
  intros Hne.
  destruct (sorted_distinct_desc_spec l) as (Hsorted & Hnodup & Hmem).
  destruct (sorted_distinct_desc l) as [|m [|v rest]].
  - destruct l as [|x l]; [congruence |].
    destruct (proj2 (Hmem x) (or_introl eq_refl)).
  - exists m. split; [reflexivity |]. exists m.
    assert (Hall : forall x, In x l -> x = m).
    { intros x Hx. apply Hmem in Hx as [<- | []]. reflexivity. }
    split.
    + split; [apply Hmem; now left |].
      intros x Hx. rewrite (Hall x Hx). lia.
    + right. split; [| reflexivity]. now apply filter_below_constant.
  - exists v. split; [reflexivity |]. exists m.
    apply StronglySorted_inv in Hsorted as [Htail Hm].
    apply StronglySorted_inv in Htail as [_ Hv].
    rewrite Forall_forall in Hm, Hv. unfold descending in Hm, Hv.
    apply NoDup_cons in Hnodup as [Hm_fresh _].
    assert (Hvm : (v < m)%Z).
    { assert (v <= m)%Z by (apply Hm; now left).
      assert (v <> m) by (intros ->; apply Hm_fresh; now left). lia. }
    split.
    + split; [apply Hmem; now left |].
      intros x Hx. apply Hmem in Hx as [<- | Hx]; [lia |].
      now apply Hm, list_elem_of_In.
    + left. split.
      * apply filter_In. split; [apply Hmem; right; now left |].
        now apply Z.ltb_lt.
      * intros x Hx. apply filter_In in Hx as [Hx Hlt].
        apply Z.ltb_lt in Hlt.
        apply Hmem in Hx as [<- | [<- | Hx]]; [lia | lia |].
        now apply Hv, list_elem_of_In.
Qed.

(** The value the code recomputes is the extremum the description asks
    for. *)
Lemma extremum_spec (d : string) (numbers : list Z) :
  numbers <> [] ->
  exists v, extremum d numbers = Some v /\ is_required_extremum d numbers v.
Proof.
  intros Hne. unfold extremum, is_required_extremum.
  destruct (contains "second largest" d).
  - now apply second_largest_spec.
  - destruct (contains "largest" d || contains "maximum" d).
    + now apply py_max_spec.
    + now apply py_min_spec.
Qed.

Lemma split_nonempty (c : ascii) (s : string) : split c s <> [].
Proof.
  induction s as [|d s IH]; cbn [split]; [discriminate |].
  destruct (Ascii.eqb c d); [discriminate |].
  destruct (split c s); [contradiction | discriminate].
Qed.

(** What the validator does on the extremum branch, for a list that
    parses. *)
Lemma validate_extremum (problem_data : gmap string string)
    (group : string) (numbers : list Z) :
  classify (get "description" problem_data) = Extremum ->
  search (match_list is_signed_list_char) (get "description" problem_data)
    = Some group ->
  mapM (fun x => py_int (strip x)) (list_items group) = Some numbers ->
  exists value,
    extremum (lower (get "description" problem_data)) numbers = Some value
    /\ is_required_extremum (lower (get "description" problem_data)) numbers value
    /\ validate_and_fix_problem problem_data
       = fix_answer
           (negb (String.eqb (str_of_int value)
                    (get "expected_answer" problem_data)))
           (str_of_int value) problem_data.
Proof.
  intros Hclass Hsearch Hnumbers.
  assert (Hne : numbers <> []).
  { apply length_mapM in Hnumbers. intros ->.
    unfold list_items in Hnumbers.
    destruct (split "," (remove_char " " group)) eqn:E; [| discriminate].
    now apply split_nonempty in E. }
  destruct (extremum_spec (lower (get "description" problem_data)) numbers Hne)
    as (value & Hvalue & Hspec).
  exists value. split; [exact Hvalue |]. split; [exact Hspec |].
  unfold validate_and_fix_problem. rewrite Hclass, Hsearch.
  cbn [mbind option_bind]. unfold try_extremum. rewrite Hnumbers.
  cbn [mbind option_bind].
  assert (Hword : contains "second largest" (lower (get "description" problem_data))
                  || contains "largest" (lower (get "description" problem_data))
                  || contains "maximum" (lower (get "description" problem_data))
                  || contains "smallest" (lower (get "description" problem_data))
                  || contains "minimum" (lower (get "description" problem_data))
                  = true).
  { unfold classify in Hclass.
    destruct (contains "average" _ || contains "mean" _); [discriminate |].
    destruct (contains "sum" _ && contains "between" _); [discriminate |].
    cbn [existsb] in Hclass.
    destruct (contains "largest" _); [now rewrite orb_true_r |].
    destruct (contains "smallest" _); [now rewrite !orb_true_r |].
    destruct (contains "maximum" _); [now rewrite !orb_true_r |].
    destruct (contains "minimum" _); [now rewrite !orb_true_r |].
    discriminate. }
  rewrite Hword, Hvalue. reflexivity.
Qed.

End ExtremumFacts.

(** C5, as the code has it.  The claim as stated fails: the description
    holds [largest] and the bracketed integer list [3, 9, 4], whose largest
    member 9 is the claimed answer; it also holds [mean], so the average
    branch runs and writes the mean 5.33 over the right answer. *)
Lemma largest_with_mean_is_averaged :
  Text.contains "largest" (Text.lower "Find the largest of [3, 9, 4], not the mean")
    = true
  /\ Regex.search (Regex.match_list Regex.is_signed_list_char)
       "Find the largest of [3, 9, 4], not the mean" = Some "3, 9, 4"
  /\ py_max [3; 9; 4]%Z = Some 9%Z
  /\ validate_and_fix_problem
       (<["description" := "Find the largest of [3, 9, 4], not the mean"]>
          (<["expected_answer" := "9"]> ∅)) !! "expected_answer"
     = Some "5.33".
Proof. repeat split; vm_compute; reflexivity. Qed.

(** C5 (amended).  For every problem whose lower-cased description holds
    [largest], [smallest], [maximum] or [minimum], and neither [average]
    nor [mean] nor both [sum] and [between] (the extremum branch), and
    whose first bracketed run of digits, whitespace, dots, commas and minus
    signs is a list of integers, the validator recomputes the extremum the
    description asks for: for [second largest] the second largest of the
    distinct values, or the largest when no value is below it; else for
    [largest] or [maximum] the largest; else the smallest.  The stored
    expected answer is replaced by that value as text whenever the two
    texts differ.  For the list [15, 8, 23, 42, 4, 16] and "second largest"
    the stored answer ends as 23. *)
Theorem extremum_is_recomputed :
  (forall (problem_data : gmap string string) (group : string)
          (numbers : list Z),
     classify (get "description" problem_data) = Extremum ->
     Regex.search (Regex.match_list Regex.is_signed_list_char)
       (get "description" problem_data) = Some group ->
     mapM (fun x => Text.py_int (Text.strip x)) (list_items group)
       = Some numbers ->
     exists value : Z,
       ValidatorSpec.is_required_extremum
         (Text.lower (get "description" problem_data)) numbers value
       /\ validate_and_fix_problem problem_data
          = (if String.eqb (Text.str_of_int value)
                  (get "expected_answer" problem_data)
             then problem_data
             else <["expected_answer" := Text.str_of_int value]> problem_data)
       /\ validate_and_fix_problem problem_data !! "expected_answer"
          = Some (Text.str_of_int value))
  /\ (forall problem_data : gmap string string,
        get "description" problem_data
          = "Find the second largest number in the list [15, 8, 23, 42, 4, 16]" ->
        validate_and_fix_problem problem_data !! "expected_answer"
          = Some "23").
Proof.
  split.
  - intros problem_data group numbers Hclass Hsearch Hnumbers.
    destruct (ExtremumFacts.validate_extremum problem_data group numbers
                Hclass Hsearch Hnumbers) as (value & _ & Hspec & Hresult).
    exists value. split; [exact Hspec |]. rewrite Hresult. split.
    + unfold fix_answer. now destruct (String.eqb _ _).
    + apply ValidatorFacts.fix_answer_lookup, ValidatorFacts.str_of_int_nonempty.
  - intros problem_data Hdesc.
    assert (Hclass : classify (get "description" problem_data) = Extremum)
      by (rewrite Hdesc; vm_compute; reflexivity).
    assert (Hsearch : Regex.search (Regex.match_list Regex.is_signed_list_char)
                        (get "description" problem_data)
                      = Some "15, 8, 23, 42, 4, 16")
      by (rewrite Hdesc; vm_compute; reflexivity).
    assert (Hnumbers : mapM (fun x => Text.py_int (Text.strip x))
                         (list_items "15, 8, 23, 42, 4, 16")
                       = Some [15; 8; 23; 42; 4; 16]%Z)
      by (vm_compute; reflexivity).
    destruct (ExtremumFacts.validate_extremum problem_data _ _
                Hclass Hsearch Hnumbers) as (value & Hvalue & _ & Hresult).
    assert (H23 : extremum (Text.lower (get "description" problem_data))
                    [15; 8; 23; 42; 4; 16]%Z = Some 23%Z)
      by (rewrite Hdesc; vm_compute; reflexivity).
    rewrite H23 in Hvalue. injection Hvalue as <-.
    rewrite Hresult. change (Text.str_of_int 23) with "23".
    now apply ValidatorFacts.fix_answer_lookup.
Qed.

Lemma extremum_is_recomputed_witness :
  exists value : Z,
    ValidatorSpec.is_required_extremum
      (Text.lower (get "description" Toy.second_largest_claimed_42))
      [15; 8; 23; 42; 4; 16]%Z value
    /\ validate_and_fix_problem Toy.second_largest_claimed_42
       = (if String.eqb (Text.str_of_int value)
               (get "expected_answer" Toy.second_largest_claimed_42)
          then Toy.second_largest_claimed_42
          else <["expected_answer" := Text.str_of_int value]>
                 Toy.second_largest_claimed_42)
    /\ validate_and_fix_problem Toy.second_largest_claimed_42 !! "expected_answer"
       = Some (Text.str_of_int value).
Proof.
  apply (proj1 extremum_is_recomputed Toy.second_largest_claimed_42
           "15, 8, 23, 42, 4, 16");
    vm_compute; reflexivity.
Defined.

(** * Further properties of the validator, the comparison and the runner *)

(** The validator as a function of the two fields it reads: whether the
    stored answer is to be replaced, and by what.  [None] stands for a
    description that is not recognized, or for an exception in a [try]
    block. *)
Definition recompute (description expected : string) : option (bool * string) :=
  let d := Text.lower description in
  match classify description with
  | Average =>
      numbers_group ← Regex.search (Regex.match_list Regex.is_list_char) description;
      correct_answer ← average_answer numbers_group;
      differs ← beyond_tolerance correct_answer expected;
      Some (differs, correct_answer)
  | RangeSum =>
      range_groups ← Regex.search Regex.match_range d;
      start ← Text.py_int (fst range_groups);
      stop ← Text.py_int (snd range_groups);
      correct_sum ← range_sum d start stop;
      let correct_answer := Text.str_of_int correct_sum in
      Some (negb (String.eqb correct_answer expected), correct_answer)
  | Extremum =>
      numbers_group ← Regex.search (Regex.match_list Regex.is_signed_list_char) description;
      numbers ← mapM (fun x => Text.py_int (Text.strip x)) (list_items numbers_group);
      value ← extremum d numbers;
      let correct_answer := Text.str_of_int value in
      Some (negb (String.eqb correct_answer expected), correct_answer)
  | Unrecognized => None
  end.

Module ValidatorShape.
Import Text TextFacts Regex RegexFacts ValidatorFacts.

(** The validator replaces the stored answer exactly as [recompute] says. *)
Lemma validate_recompute (problem_data : gmap string string) :
  validate_and_fix_problem problem_data
  = match recompute (get "description" problem_data)
            (get "expected_answer" problem_data) with
    | Some (differs, correct_answer) =>
        fix_answer differs correct_answer problem_data
    | None => problem_data
    end.
Proof.
  unfold validate_and_fix_problem, recompute.
  destruct (classify (get "description" problem_data)) eqn:Hclass.
  - destruct (search (match_list is_list_char) _) as [g|]; [| reflexivity].
    cbn [mbind option_bind]. unfold try_average.
    destruct (average_answer g) as [c|]; [| reflexivity].
    cbn [mbind option_bind].
    now destruct (beyond_tolerance c _) as [b|].
  - destruct (search match_range _) as [grp|]; [| reflexivity].
    cbn [mbind option_bind]. unfold try_range_sum.
    destruct (py_int (fst grp)) as [start|]; [| reflexivity].
    cbn [mbind option_bind].
    destruct (py_int (snd grp)) as [stop|]; [| reflexivity].
    cbn [mbind option_bind].
    now destruct (range_sum _ start stop) as [total|].
  - destruct (search (match_list is_signed_list_char) _) as [g|] eqn:Hsearch;
      [| reflexivity].
    cbn [mbind option_bind].
    destruct (mapM (fun x => py_int (strip x)) (list_items g)) as [numbers|]
      eqn:Hnumbers.
    + destruct (ExtremumFacts.validate_extremum problem_data g numbers
                  Hclass Hsearch Hnumbers) as (value & Hvalue & _ & Hresult).
      unfold validate_and_fix_problem in Hresult.
      rewrite Hclass, Hsearch in Hresult. cbn [mbind option_bind] in Hresult.
      rewrite Hresult. cbn [mbind option_bind]. now rewrite Hvalue.
    + unfold try_extremum. now rewrite Hnumbers.
  - reflexivity.
Qed.

(** A float is never more than the tolerance away from itself. *)
Lemma never_beyond_itself (x : spec_float) :
  Float64.ltb Float64.tolerance (Float64.abs (Float64.sub x x)) = false.
Proof.
  destruct x as [s | s | | s m e].
  - now destruct s.
  - now destruct s.
  - reflexivity.
  - unfold Float64.sub, SFsub. rewrite Z.sub_diag. reflexivity.
Qed.

(** The recomputed answer does not depend on the stored one, and against
    itself it never differs. *)
Lemma recompute_settles (description expected correct : string) :
  recompute description expected = Some (true, correct) ->
  recompute description correct = Some (false, correct).
Proof.
  unfold recompute.
  destruct (classify description).
  - destruct (search (match_list is_list_char) description) as [g|];
      [| discriminate].
    cbn [mbind option_bind].
    destruct (average_answer g) as [c|]; [| discriminate].
    cbn [mbind option_bind]. unfold beyond_tolerance.
    destruct (Float64.py_float c) as [a|] eqn:Hc; [| discriminate].
    cbn [mbind option_bind].
    destruct (Float64.py_float expected) as [e|]; [| discriminate].
    cbn [mbind option_bind]. intros [= _ <-].
    rewrite Hc. cbn [mbind option_bind]. now rewrite never_beyond_itself.
  - destruct (search match_range (lower description)) as [grp|];
      [| discriminate].
    cbn [mbind option_bind].
    destruct (py_int (fst grp)) as [start|]; [| discriminate].
    cbn [mbind option_bind].
    destruct (py_int (snd grp)) as [stop|]; [| discriminate].
    cbn [mbind option_bind].
    destruct (range_sum _ start stop) as [total|]; [| discriminate].
    cbn [mbind option_bind]. intros [= _ <-].
    now rewrite String.eqb_refl.
  - destruct (search (match_list is_signed_list_char) description) as [g|];
      [| discriminate].
    cbn [mbind option_bind].
    destruct (mapM (fun x => py_int (strip x)) (list_items g)) as [numbers|];
      [| discriminate].
    cbn [mbind option_bind].
    destruct (extremum (lower description) numbers) as [value|];
      [| discriminate].
    cbn [mbind option_bind]. intros [= _ <-].
    now rewrite String.eqb_refl.
  - discriminate.
Qed.

Lemma get_other_field (k correct : string) (problem_data : gmap string string) :
  k <> "expected_answer" ->
  get k (<["expected_answer" := correct]> problem_data) = get k problem_data.
Proof. intros Hk. unfold get. now rewrite lookup_insert_ne. Qed.

Lemma get_expected_answer (correct : string) (problem_data : gmap string string) :
  get "expected_answer" (<["expected_answer" := correct]> problem_data) = correct.
Proof. unfold get. now rewrite lookup_insert_eq. Qed.

End ValidatorShape.

(** The validator changes nothing but the field [expected_answer]: every
    other field of the problem, present or absent, is as it was. *)
Theorem validator_touches_only_the_expected_answer
    (problem_data : gmap string string) (field : string) :
  field <> "expected_answer" ->
  validate_and_fix_problem problem_data !! field = problem_data !! field.
Proof.
  intros Hfield. rewrite ValidatorShape.validate_recompute.
  destruct (recompute _ _) as [[differs correct]|]; [| reflexivity].
  unfold fix_answer. destruct differs; [| reflexivity].
  now apply lookup_insert_ne.
Qed.

Lemma validator_touches_only_the_expected_answer_witness :
  validate_and_fix_problem Toy.primes_to_fifteen !! "description"
  = Some "sum of all prime numbers between 1 and 15".
Proof.
  rewrite (validator_touches_only_the_expected_answer Toy.primes_to_fifteen
             "description"); [reflexivity | discriminate].
Defined.

(** Validating twice is validating once: a problem that went through the
    validator is left as it is by a second pass. *)
Theorem validator_is_idempotent (problem_data : gmap string string) :
  validate_and_fix_problem (validate_and_fix_problem problem_data)
  = validate_and_fix_problem problem_data.
Proof.
  rewrite (ValidatorShape.validate_recompute problem_data).
  destruct (recompute (get "description" problem_data)
              (get "expected_answer" problem_data))
    as [[differs correct]|] eqn:Hfirst.
  - unfold fix_answer. destruct differs.
    + rewrite ValidatorShape.validate_recompute.
      rewrite ValidatorShape.get_other_field by discriminate.
      rewrite ValidatorShape.get_expected_answer.
      now rewrite (ValidatorShape.recompute_settles _ _ _ Hfirst).
    + rewrite ValidatorShape.validate_recompute. now rewrite Hfirst.
  - rewrite ValidatorShape.validate_recompute. now rewrite Hfirst.
Qed.

Module ComparatorEdges.
Import Text TextFacts.

Lemma lstrip_blank (s : string) : all_chars is_space s = true -> lstrip s = "".
Proof.
  induction s as [|c s IH]; cbn [all_chars lstrip]; [reflexivity |].
  intros H. apply andb_prop in H as [Hc Hs]. now rewrite Hc, IH.
Qed.

Lemma clean_blank (s : string) : all_chars is_space s = true -> clean s = "".
Proof.
  intros H. unfold clean, strip. now rewrite (lstrip_blank s H).
Qed.

Lemma contains_empty (hay : string) : contains "" hay = true.
Proof. destruct hay; reflexivity. Qed.

End ComparatorEdges.

(** An expected answer that is empty, or holds only whitespace, is matched
    by every output: the containment rule finds the empty text in any text. *)
Theorem blank_expected_answer_matches_everything (actual expected : string) :
  Text.all_chars Text.is_space expected = true ->
  compare_answers actual expected = true.
Proof.
  intros Hblank. unfold compare_answers.
  rewrite (ComparatorEdges.clean_blank expected Hblank).
  assert (Hnone : Float64.py_float "" = None) by (vm_compute; reflexivity).
  rewrite Hnone, ComparatorEdges.contains_empty.
  destruct (String.eqb _ _); [reflexivity |].
  destruct (Float64.py_float (clean actual));
    repeat match goal with
           | |- context [if ?b then _ else _] => destruct b
           end; reflexivity.
Qed.

Lemma blank_expected_answer_matches_everything_witness :
  compare_answers "anything at all" "  " = true.
Proof.
  apply (blank_expected_answer_matches_everything "anything at all" "  ").
  reflexivity.
Defined.

(** When the expected answer is no number, an output that holds it
    anywhere passes, whatever else the output holds. *)
Theorem text_answer_passes_by_containment (actual expected : string) :
  Float64.py_float (clean expected) = None ->
  Text.contains (clean expected) (clean actual) = true ->
  compare_answers actual expected = true.
Proof.
  intros Hnum Hin. unfold compare_answers. rewrite Hnum, Hin.
  destruct (String.eqb _ _); [reflexivity |].
  destruct (Float64.py_float (clean actual));
    repeat match goal with
           | |- context [if ?b then _ else _] => destruct b
           end; reflexivity.
Qed.

Lemma text_answer_passes_by_containment_witness :
  compare_answers "It is not known" "no" = true.
Proof.
  apply (text_answer_passes_by_containment "It is not known" "no");
    vm_compute; reflexivity.
Defined.

(** Only the language [python], spelled so, is ever executed: for any other
    language text the runner asks nothing of the interpreter and answers
    with [success = False] and [passed = False]. *)
Theorem only_python_is_executed (I : Interpreter)
    (code expected_answer language : string) :
  language <> "python" ->
  fst (execute_code_no_input I code expected_answer language) = []
  /\ snd (execute_code_no_input I code expected_answer language) !! "success"
     = Some (VBool false)
  /\ snd (execute_code_no_input I code expected_answer language) !! "passed"
     = Some (VBool false).
Proof.
  intros Hl. apply String.eqb_neq in Hl. unfold execute_code_no_input.
  rewrite Hl.
  destruct (String.eqb language "javascript");
    [| destruct (String.eqb language "java")]; repeat split; reflexivity.
Qed.

Lemma only_python_is_executed_witness :
  fst (execute_code_no_input (Toy.always ["f"] Toy.returns_five)
         "def f(): return 5" "5" "Python") = []
  /\ snd (execute_code_no_input (Toy.always ["f"] Toy.returns_five)
            "def f(): return 5" "5" "Python") !! "success"
     = Some (VBool false)
  /\ snd (execute_code_no_input (Toy.always ["f"] Toy.returns_five)
            "def f(): return 5" "5" "Python") !! "passed"
     = Some (VBool false).
Proof.
  apply (only_python_is_executed (Toy.always ["f"] Toy.returns_five)
           "def f(): return 5" "5" "Python").
  discriminate.
Defined.

(** The submission is executed at most once and its entry point is called
    at most once, after the execution and the lookup of its name: the
    requests of a run are a prefix of "execute, look up, call". *)
Theorem runner_asks_at_most_once (I : Interpreter)
    (code expected_answer language : string) :
  fst (execute_code_no_input I code expected_answer language) = []
  \/ fst (execute_code_no_input I code expected_answer language) = [EvExec code]
  \/ exists name,
       Regex.search Regex.match_def code = Some name
       /\ (fst (execute_code_no_input I code expected_answer language)
             = [EvExec code; EvLookup name]
           \/ fst (execute_code_no_input I code expected_answer language)
             = [EvExec code; EvLookup name; EvCall name]).
Proof.
  unfold execute_code_no_input.
  destruct (String.eqb language "python").
  - destruct (Regex.search Regex.match_def code) as [name|]; [| now left].
    destruct (exec I code) as [ns | e]; [| right; now left].
    right; right. exists name. split; [reflexivity |].
    destruct (defines I ns name); [now right | now left].
  - destruct (String.eqb language "javascript");
      [| destruct (String.eqb language "java")]; now left.
Qed.

(** * Registration by one-time code: [generate_otp], [register],
      [verify_otp], [resend_otp]

    The module-level dictionary [otp_storage] is threaded through the three
    endpoints as an explicit state.  The clock ([datetime.now()], in
    microseconds), the random draw of [generate_otp], the password hash and
    the answers of the database are inputs.  [send_otp_email] returns [True]
    on every path and changes nothing here. *)

Module Otp.

(** What an endpoint answers: a body, or an [HTTPException] with its status
    and detail. *)
Inductive response :=
  | Ok (message : string)
  | Failed (status : Z) (detail : string).

(** [user_data] of a pending registration. *)
Record user_data := {
  username : string;
  email : string;
  password_hash : string;
  interests : list string
}.

(** One entry of [otp_storage]. *)
Record pending := {
  otp : string;
  expires : Z;
  data : user_data
}.

(** [timedelta(minutes=10)], in microseconds. *)
Definition ten_minutes : Z := 600000000.

(** [generate_otp]: [str(random.randint(100000, 999999))], for the number
    drawn. *)
Definition generate_otp (draw : Z) : string := Text.str_of_int draw.

(** [register].  [existing_verified] is the answer of the [SELECT]: whether
    a verified user has the email, or the exception the query raised. *)
Definition register (otp_storage : gmap string pending)
    (user : user_data) (existing_verified : outcome bool)
    (now draw : Z) : response * gmap string pending :=
  match existing_verified with
  | Raised e => (Failed 500 e, otp_storage)
  | Returned true => (Failed 400 "Email already registered", otp_storage)
  | Returned false =>
      let otp := generate_otp draw in
      let expires_at := (now + ten_minutes)%Z in
      (Ok "OTP sent to your email. Please verify to complete registration.",
       <[email user := {| otp := otp; expires := expires_at; data := user |}]>
         otp_storage)
  end.

(** [verify_otp].  [inserted] is how the [INSERT] and its commit end; the
    third component is the row the call created in [users], if any. *)
Definition verify_otp (otp_storage : gmap string pending)
    (request_email request_otp : string) (now : Z) (inserted : outcome unit)
    : response * gmap string pending * option user_data :=
  match otp_storage !! request_email with
  | None =>
      (Failed 400 "No OTP found. Please register again.", otp_storage, None)
  | Some stored_data =>
      if (expires stored_data <? now)%Z then
        (Failed 400 "OTP expired. Please register again.",
         delete request_email otp_storage, None)
      else if negb (String.eqb request_otp (otp stored_data)) then
        (Failed 400 "Invalid OTP. Please try again.", otp_storage, None)
      else
        match inserted with
        | Returned _ =>
            (Ok "Email verified successfully! You can now login.",
             delete request_email otp_storage, Some (data stored_data))
        | Raised _ =>
            (Failed 500 "Failed to create user account", otp_storage, None)
        end
  end.

(** [resend_otp]. *)
Definition resend_otp (otp_storage : gmap string pending)
    (request_email : string) (now draw : Z)
    : response * gmap string pending :=
  match otp_storage !! request_email with
  | None => (Failed 400 "No pending registration found", otp_storage)
  | Some stored_data =>
      let otp := generate_otp draw in
      let expires_at := (now + ten_minutes)%Z in
      (Ok "OTP resent successfully",
       <[request_email := {| otp := otp; expires := expires_at;
                             data := data stored_data |}]> otp_storage)
  end.

(** A successful verification answers status 200. *)
Definition succeeded (r : response) : Prop :=
  match r with
  | Ok _ => True
  | Failed _ _ => False
  end.

End Otp.

Module OtpExamples.
Import Otp.

Definition alice : user_data := {|
  username := "alice";
  email := "alice@example.org";
  password_hash := "$pbkdf2-sha256$29000$c2FsdA$aGFzaA";
  interests := ["python"]
|}.

(** The storage after Alice registered at time 1000 with the draw 123456. *)
Definition after_register : gmap string pending :=
  snd (register ∅ alice (Returned false) 1000 123456).

End OtpExamples.

Module OtpFacts.
Import Otp.

(** Wrong codes, each with the time it was tried. *)
Definition all_wrong (entry : pending) (attempts : list (string * Z)) : Prop :=
  Forall (fun a => fst a <> otp entry /\ (snd a <= expires entry)%Z) attempts.

(** The storage after a run of verification requests for one email. *)
Definition after_attempts (otp_storage : gmap string pending)
    (request_email : string) (attempts : list (string * Z))
    : gmap string pending :=
  fold_left
    (fun storage a =>
       snd (fst (verify_otp storage request_email (fst a) (snd a) (Returned tt))))
    attempts otp_storage.

Lemma verify_right_code (otp_storage : gmap string pending)
    (request_email : string) (entry : pending) (now : Z) :
  otp_storage !! request_email = Some entry ->
  (now <= expires entry)%Z ->
  verify_otp otp_storage request_email (otp entry) now (Returned tt)
  = (Ok "Email verified successfully! You can now login.",
     delete request_email otp_storage, Some (data entry)).
Proof.
  intros Hentry Hnow. unfold verify_otp. rewrite Hentry.
  destruct (Z.ltb_spec (expires entry) now); [lia |].
  now rewrite String.eqb_refl.
Qed.

Lemma verify_wrong_code (otp_storage : gmap string pending)
    (request_email request_otp : string) (entry : pending) (now : Z)
    (inserted : outcome unit) :
  otp_storage !! request_email = Some entry ->
  (now <= expires entry)%Z ->
  request_otp <> otp entry ->
  verify_otp otp_storage request_email request_otp now inserted
  = (Failed 400 "Invalid OTP. Please try again.", otp_storage, None).
Proof.
  intros Hentry Hnow Hne. unfold verify_otp. rewrite Hentry.
  destruct (Z.ltb_spec (expires entry) now); [lia |].
  apply String.eqb_neq in Hne. now rewrite Hne.
Qed.

End OtpFacts.

(** A verification succeeds only for a pending registration whose code is
    the one given and has not expired; it creates the account from the data
    stored at registration and removes the pending entry, so the same
    request repeated at once is refused: a code is used once. *)
Theorem code_verifies_once (otp_storage : gmap string Otp.pending)
    (request_email request_otp : string) (now : Z)
    (inserted : outcome unit) :
  Otp.succeeded
    (fst (fst (Otp.verify_otp otp_storage request_email request_otp now inserted))) ->
  exists entry,
    otp_storage !! request_email = Some entry
    /\ Otp.otp entry = request_otp
    /\ (now <= Otp.expires entry)%Z
    /\ Otp.verify_otp otp_storage request_email request_otp now inserted
       = (Otp.Ok "Email verified successfully! You can now login.",
          delete request_email otp_storage, Some (Otp.data entry))
    /\ forall later inserted',
         Otp.verify_otp (delete request_email otp_storage)
           request_email request_otp later inserted'
         = (Otp.Failed 400 "No OTP found. Please register again.",
            delete request_email otp_storage, None).
Proof.
  unfold Otp.verify_otp at 1 2.
  destruct (otp_storage !! request_email) as [entry|] eqn:Hentry;
    [| intros []].
  destruct (Z.ltb_spec (Otp.expires entry) now) as [Hlate | Hintime];
    [intros [] |].
  destruct (String.eqb request_otp (Otp.otp entry)) eqn:Hotp; [| intros []].
  apply String.eqb_eq in Hotp. cbn [negb].
  destruct inserted as [[] | e]; [| intros []]. intros _.
  exists entry. repeat split; try easy.
  intros later inserted'. unfold Otp.verify_otp.
  now rewrite lookup_delete_eq.
Qed.

Lemma code_verifies_once_witness :
  exists entry,
    OtpExamples.after_register !! "alice@example.org" = Some entry
    /\ Otp.otp entry = "123456"
    /\ (5000 <= Otp.expires entry)%Z
    /\ Otp.verify_otp OtpExamples.after_register
         "alice@example.org" "123456" 5000 (Returned tt)
       = (Otp.Ok "Email verified successfully! You can now login.",
          delete "alice@example.org" OtpExamples.after_register,
          Some (Otp.data entry))
    /\ forall later inserted',
         Otp.verify_otp (delete "alice@example.org" OtpExamples.after_register)
           "alice@example.org" "123456" later inserted'
         = (Otp.Failed 400 "No OTP found. Please register again.",
            delete "alice@example.org" OtpExamples.after_register, None).
Proof.
  apply (code_verifies_once OtpExamples.after_register
           "alice@example.org" "123456" 5000 (Returned tt)).
  vm_compute. exact I.
Defined.

(** Registration and verification fit together: after a registration was
    accepted, the code that was drawn verifies at any time up to ten
    minutes later, the account created is the one that registered, and the
    storage is left without the entry. *)
Theorem registered_code_verifies_within_ten_minutes
    (otp_storage : gmap string Otp.pending) (user : Otp.user_data)
    (now draw later : Z) :
  (later <= now + Otp.ten_minutes)%Z ->
  Otp.verify_otp
    (snd (Otp.register otp_storage user (Returned false) now draw))
    (Otp.email user) (Otp.generate_otp draw) later (Returned tt)
  = (Otp.Ok "Email verified successfully! You can now login.",
     delete (Otp.email user) otp_storage, Some user).
Proof.
  intros Hlater. cbn [Otp.register snd].
  rewrite (OtpFacts.verify_right_code _ (Otp.email user)
             {| Otp.otp := Otp.generate_otp draw;
                Otp.expires := now + Otp.ten_minutes;
                Otp.data := user |} later).
  - cbn [Otp.data]. now rewrite delete_insert_eq.
  - apply lookup_insert_eq.
  - exact Hlater.
Qed.

Lemma registered_code_verifies_within_ten_minutes_witness :
  Otp.verify_otp
    (snd (Otp.register ∅ OtpExamples.alice (Returned false) 1000 123456))
    (Otp.email OtpExamples.alice) (Otp.generate_otp 123456)
    (1000 + Otp.ten_minutes) (Returned tt)
  = (Otp.Ok "Email verified successfully! You can now login.",
     delete (Otp.email OtpExamples.alice) ∅, Some OtpExamples.alice).
Proof.
  apply (registered_code_verifies_within_ten_minutes ∅ OtpExamples.alice
           1000 123456 (1000 + Otp.ten_minutes)).
  lia.
Defined.

(** A request that comes after the expiry discards the pending
    registration, even when it brings the right code: from then on neither
    a verification at any time nor a new code can be had for the email
    until it registers again. *)
Theorem expired_code_discards_the_registration
    (otp_storage : gmap string Otp.pending)
    (request_email request_otp : string) (entry : Otp.pending) (now : Z)
    (inserted : outcome unit) :
  otp_storage !! request_email = Some entry ->
  (Otp.expires entry < now)%Z ->
  Otp.verify_otp otp_storage request_email request_otp now inserted
  = (Otp.Failed 400 "OTP expired. Please register again.",
     delete request_email otp_storage, None)
  /\ (forall otp' later inserted',
        fst (fst (Otp.verify_otp (delete request_email otp_storage)
                    request_email otp' later inserted'))
        = Otp.Failed 400 "No OTP found. Please register again.")
  /\ (forall later draw,
        Otp.resend_otp (delete request_email otp_storage) request_email later draw
        = (Otp.Failed 400 "No pending registration found",
           delete request_email otp_storage)).
Proof.
  intros Hentry Hlate. split; [| split].
  - unfold Otp.verify_otp. rewrite Hentry.
    destruct (Z.ltb_spec (Otp.expires entry) now); [reflexivity | lia].
  - intros otp' later inserted'. unfold Otp.verify_otp.
    now rewrite lookup_delete_eq.
  - intros later draw. unfold Otp.resend_otp. now rewrite lookup_delete_eq.
Qed.

Lemma expired_code_discards_the_registration_witness :
  fst (fst (Otp.verify_otp OtpExamples.after_register "alice@example.org"
              "123456" 700000000 (Returned tt)))
  = Otp.Failed 400 "OTP expired. Please register again.".
Proof.
  rewrite (proj1 (expired_code_discards_the_registration
                    OtpExamples.after_register "alice@example.org" "123456"
                    {| Otp.otp := "123456"; Otp.expires := 600001000;
                       Otp.data := OtpExamples.alice |}
                    700000000 (Returned tt) eq_refl ltac:(cbn; lia))).
  reflexivity.
Defined.

(** Wrong codes cost nothing: any number of wrong attempts made before the
    expiry leave the storage as it was, and the right code still verifies
    afterwards.  Nothing counts or limits the attempts. *)
Theorem wrong_codes_are_not_counted (otp_storage : gmap string Otp.pending)
    (request_email : string) (entry : Otp.pending)
    (attempts : list (string * Z)) (now : Z) :
  otp_storage !! request_email = Some entry ->
  OtpFacts.all_wrong entry attempts ->
  (now <= Otp.expires entry)%Z ->
  OtpFacts.after_attempts otp_storage request_email attempts = otp_storage
  /\ Otp.verify_otp
       (OtpFacts.after_attempts otp_storage request_email attempts)
       request_email (Otp.otp entry) now (Returned tt)
     = (Otp.Ok "Email verified successfully! You can now login.",
        delete request_email otp_storage, Some (Otp.data entry)).
Proof.
  intros Hentry Hwrong Hnow.
  assert (Hsame : OtpFacts.after_attempts otp_storage request_email attempts
                  = otp_storage).
  { unfold OtpFacts.after_attempts, OtpFacts.all_wrong in *.
    induction Hwrong as [|[guess time] rest [Hguess Htime] _ IH];
      cbn [fold_left]; [reflexivity |].
    cbn [fst snd] in *.
    rewrite (OtpFacts.verify_wrong_code otp_storage request_email guess
               entry time (Returned tt) Hentry Htime Hguess).
    exact IH. }
  split; [exact Hsame |]. rewrite Hsame.
  now apply OtpFacts.verify_right_code.
Qed.

Lemma wrong_codes_are_not_counted_witness :
  OtpFacts.after_attempts OtpExamples.after_register "alice@example.org"
    [("000000", 2000%Z); ("111111", 3000%Z); ("123457", 4000%Z)]
  = OtpExamples.after_register.
Proof.
  apply (wrong_codes_are_not_counted OtpExamples.after_register
           "alice@example.org"
           {| Otp.otp := "123456"; Otp.expires := 600001000;
              Otp.data := OtpExamples.alice |}
           [("000000", 2000%Z); ("111111", 3000%Z); ("123457", 4000%Z)] 5000).
  - reflexivity.
  - repeat constructor; cbn; (discriminate || lia).
  - cbn. lia.
Defined.

(** A new code replaces the old one and restarts the ten minutes, whether
    or not the old code had expired: the new code verifies, with the user
    data of the registration, and the old code, when it differs, does not. *)
Theorem resent_code_replaces_the_old_one
    (otp_storage : gmap string Otp.pending) (request_email : string)
    (entry : Otp.pending) (now draw later : Z) :
  otp_storage !! request_email = Some entry ->
  (later <= now + Otp.ten_minutes)%Z ->
  Otp.verify_otp
    (snd (Otp.resend_otp otp_storage request_email now draw))
    request_email (Otp.generate_otp draw) later (Returned tt)
  = (Otp.Ok "Email verified successfully! You can now login.",
     delete request_email otp_storage, Some (Otp.data entry))
  /\ (Otp.otp entry <> Otp.generate_otp draw ->
      fst (fst (Otp.verify_otp
                  (snd (Otp.resend_otp otp_storage request_email now draw))
                  request_email (Otp.otp entry) later (Returned tt)))
      = Otp.Failed 400 "Invalid OTP. Please try again.").
Proof.
  intros Hentry Hlater. unfold Otp.resend_otp. rewrite Hentry. cbn [snd].
  split.
  - rewrite (OtpFacts.verify_right_code _ request_email
               {| Otp.otp := Otp.generate_otp draw;
                  Otp.expires := now + Otp.ten_minutes;
                  Otp.data := Otp.data entry |} later).
    + cbn [Otp.data]. now rewrite delete_insert_eq.
    + apply lookup_insert_eq.
    + exact Hlater.
  - intros Hdiff.
    rewrite (OtpFacts.verify_wrong_code _ request_email (Otp.otp entry)
               {| Otp.otp := Otp.generate_otp draw;
                  Otp.expires := now + Otp.ten_minutes;
                  Otp.data := Otp.data entry |} later (Returned tt)).
    + reflexivity.
    + apply lookup_insert_eq.
    + exact Hlater.
    + exact Hdiff.
Qed.

Lemma resent_code_replaces_the_old_one_witness :
  Otp.verify_otp
    (snd (Otp.resend_otp OtpExamples.after_register "alice@example.org"
            900000000 654321))
    "alice@example.org" (Otp.generate_otp 654321) 900000100 (Returned tt)
  = (Otp.Ok "Email verified successfully! You can now login.",
     delete "alice@example.org" OtpExamples.after_register,
     Some OtpExamples.alice).
Proof.
  apply (proj1 (resent_code_replaces_the_old_one OtpExamples.after_register
                  "alice@example.org"
                  {| Otp.otp := "123456"; Otp.expires := 600001000;
                     Otp.data := OtpExamples.alice |}
                  900000000 654321 900000100 eq_refl ltac:(unfold Otp.ten_minutes; lia))).
Defined.

(** When the account cannot be written, the request fails with status 500
    and the pending registration is kept: the same code verifies on a
    second try, as long as it has not expired. *)
Theorem failed_insert_keeps_the_registration
    (otp_storage : gmap string Otp.pending) (request_email : string)
    (entry : Otp.pending) (now later : Z) (e : string) :
  otp_storage !! request_email = Some entry ->
  (now <= Otp.expires entry)%Z ->
  (later <= Otp.expires entry)%Z ->
  Otp.verify_otp otp_storage request_email (Otp.otp entry) now (Raised e)
  = (Otp.Failed 500 "Failed to create user account", otp_storage, None)
  /\ Otp.verify_otp
       (snd (fst (Otp.verify_otp otp_storage request_email (Otp.otp entry)
                    now (Raised e))))
       request_email (Otp.otp entry) later (Returned tt)
     = (Otp.Ok "Email verified successfully! You can now login.",
        delete request_email otp_storage, Some (Otp.data entry)).
Proof.
  intros Hentry Hnow Hlater.
  assert (Hfail : Otp.verify_otp otp_storage request_email (Otp.otp entry)
                    now (Raised e)
                  = (Otp.Failed 500 "Failed to create user account",
                     otp_storage, None)).
  { unfold Otp.verify_otp. rewrite Hentry.
    destruct (Z.ltb_spec (Otp.expires entry) now); [lia |].
    now rewrite String.eqb_refl. }
  split; [exact Hfail |]. rewrite Hfail. cbn [fst snd].
  now apply OtpFacts.verify_right_code.
Qed.

Lemma failed_insert_keeps_the_registration_witness :
  Otp.verify_otp OtpExamples.after_register "alice@example.org" "123456"
    5000 (Raised "Duplicate entry")
  = (Otp.Failed 500 "Failed to create user account",
     OtpExamples.after_register, None).
Proof.
  apply (proj1 (failed_insert_keeps_the_registration
                  OtpExamples.after_register "alice@example.org"
                  {| Otp.otp := "123456"; Otp.expires := 600001000;
                     Otp.data := OtpExamples.alice |}
                  5000 6000 "Duplicate entry" eq_refl
                  ltac:(cbn; lia) ltac:(cbn; lia))).
Defined.

(** The three endpoints read and write the entry of the email they are
    called for and no other: every other pending registration is as it
    was. *)
Theorem other_registrations_are_untouched
    (otp_storage : gmap string Otp.pending) (other : string) :
  (forall user existing_verified now draw,
     Otp.email user <> other ->
     snd (Otp.register otp_storage user existing_verified now draw) !! other
     = otp_storage !! other)
  /\ (forall request_email request_otp now inserted,
        request_email <> other ->
        snd (fst (Otp.verify_otp otp_storage request_email request_otp now
                    inserted)) !! other
        = otp_storage !! other)
  /\ (forall request_email now draw,
        request_email <> other ->
        snd (Otp.resend_otp otp_storage request_email now draw) !! other
        = otp_storage !! other).
Proof.
  split; [| split].
  - intros user existing_verified now draw Hne. unfold Otp.register.
    destruct existing_verified as [[] | e]; cbn [snd]; try reflexivity.
    now apply lookup_insert_ne.
  - intros request_email request_otp now inserted Hne. unfold Otp.verify_otp.
    destruct (otp_storage !! request_email) as [entry|]; [| reflexivity].
    destruct (Otp.expires entry <? now)%Z; cbn [fst snd].
    + now apply lookup_delete_ne.
    + destruct (negb (String.eqb request_otp (Otp.otp entry)));
        [reflexivity |].
      destruct inserted; cbn [fst snd]; [| reflexivity].
      now apply lookup_delete_ne.
  - intros request_email now draw Hne. unfold Otp.resend_otp.
    destruct (otp_storage !! request_email) as [entry|]; cbn [snd];
      [| reflexivity].
    now apply lookup_insert_ne.
Qed.

Module DigitsFacts.

Lemma usize_nb_digits (d : Decimal.uint) :
  DecimalPos.Unsigned.usize d = N.of_nat (Decimal.nb_digits d).
Proof.
  induction d; cbn [DecimalPos.Unsigned.usize Decimal.nb_digits];
    rewrite ?IHd; lia.
Qed.

(** A numeral with [k] digits is below the [k]-th power of ten. *)
Lemma of_lu_bound (d : Decimal.uint) :
  (DecimalPos.Unsigned.of_lu d < 10 ^ DecimalPos.Unsigned.usize d)%N.
Proof.
  induction d; cbn [DecimalPos.Unsigned.of_lu DecimalPos.Unsigned.usize];
    rewrite ?N.pow_succ_r'; cbn; lia.
Qed.

Lemma string_of_uint_length (d : Decimal.uint) :
  String.length (NilEmpty.string_of_uint d) = Decimal.nb_digits d.
Proof.
  induction d; cbn [NilEmpty.string_of_uint String.length Decimal.nb_digits];
    congruence.
Qed.

(** The numeral of a positive number has no leading zero. *)
Lemma to_uint_normal (p : positive) :
  Decimal.unorm (Pos.to_uint p) = Pos.to_uint p.
Proof.
  rewrite <- (DecimalPos.Unsigned.to_of (Pos.to_uint p)).
  now rewrite DecimalPos.Unsigned.of_to.
Qed.

(** The number of digits of a positive number, by its size. *)
Lemma to_uint_digits (p : positive) :
  exists m : nat,
    Decimal.nb_digits (Pos.to_uint p) = S m
    /\ (10 ^ N.of_nat m <= N.pos p < 10 ^ N.of_nat (S m))%N.
Proof.
  pose proof (to_uint_normal p) as Hnorm.
  pose proof (DecimalPos.Unsigned.of_to p) as Hof.
  pose proof (DecimalPos.Unsigned.to_uint_nonnil p) as Hnil.
  pose proof (DecimalPos.Unsigned.to_uint_nonzero p) as Hzero.
  destruct (Pos.to_uint p) as [|u|u|u|u|u|u|u|u|u|u] eqn:E;
    [congruence | | | | | | | | | |].
  1:{ exfalso. unfold Decimal.unorm in Hnorm. cbn [Decimal.nzhead] in Hnorm.
      pose proof (DecimalFacts.nzhead_nonzero u) as Hnz.
      destruct (Decimal.nzhead u) eqn:En; try discriminate.
      - injection Hnorm as <-. now apply Hzero.
      - now apply (Hnz u0). }
  all: exists (Decimal.nb_digits u); split; [reflexivity |];
    cbn [Pos.of_uint] in Hof;
    rewrite DecimalPos.Unsigned.of_uint_acc_rev in Hof;
    pose proof (of_lu_bound (Decimal.rev u)) as Hb;
    rewrite !usize_nb_digits, DecimalFacts.nb_digits_rev in *;
    rewrite Nat2N.inj_succ, N.pow_succ_r';
    set (P := (10 ^ N.of_nat (Decimal.nb_digits u))%N) in *; lia.
Qed.

(** A number with [k] digits in its range has [k] digits in its text. *)
Lemma str_of_int_length (n : Z) (k : nat) :
  (10 ^ Z.of_nat k <= n < 10 ^ Z.of_nat (S k))%Z ->
  String.length (Text.str_of_int n) = S k.
Proof.
  intros [Hlo Hhi].
  assert (Hpos : (0 < n)%Z).
  { pose proof (Z.pow_pos_nonneg 10 (Z.of_nat k)). lia. }
  destruct n as [|p|p]; try lia.
  unfold Text.str_of_int. cbn [Z.to_int NilZero.string_of_int].
  destruct (to_uint_digits p) as (m & Hm & Hlo' & Hhi').
  unfold NilZero.string_of_uint.
  pose proof (DecimalPos.Unsigned.to_uint_nonnil p) as Hnil.
  assert (Hlen : String.length (NilEmpty.string_of_uint (Pos.to_uint p))
                 = S m).
  { now rewrite string_of_uint_length. }
  assert (Htext : match Pos.to_uint p with
                  | Decimal.Nil => "0"
                  | _ => NilEmpty.string_of_uint (Pos.to_uint p)
                  end = NilEmpty.string_of_uint (Pos.to_uint p)).
  { destruct (Pos.to_uint p); [congruence | reflexivity ..]. }
  rewrite Htext, Hlen. f_equal.
  assert (Hlo'' : (10 ^ Z.of_nat m <= Z.pos p)%Z).
  { change 10%Z with (Z.of_N 10). rewrite <- nat_N_Z, <- N2Z.inj_pow. lia. }
  assert (Hhi'' : (Z.pos p < 10 ^ Z.of_nat (S m))%Z).
  { change 10%Z with (Z.of_N 10). rewrite <- nat_N_Z, <- N2Z.inj_pow. lia. }
  destruct (Nat.lt_trichotomy m k) as [Hlt | [-> | Hgt]]; [| reflexivity |].
  - exfalso.
    assert ((10 ^ Z.of_nat (S m) <= 10 ^ Z.of_nat k)%Z)
      by (apply Z.pow_le_mono_r; lia).
    lia.
  - exfalso.
    assert ((10 ^ Z.of_nat (S k) <= 10 ^ Z.of_nat m)%Z)
      by (apply Z.pow_le_mono_r; lia).
    lia.
Qed.

(** The text of a number names the number. *)
Lemma str_of_int_inj (n m : Z) :
  Text.str_of_int n = Text.str_of_int m -> n = m.
Proof.
  unfold Text.str_of_int. intros H. apply DecimalZ.to_int_inj.
  assert (Hn : forall z, Z.to_int z <> Decimal.Pos Decimal.Nil
                         /\ Z.to_int z <> Decimal.Neg Decimal.Nil).
  { intros [|p|p]; cbn; split; try discriminate;
      intros [= E]; now apply (DecimalPos.Unsigned.to_uint_nonnil p). }
  destruct (Hn n) as [Hn1 Hn2]. destruct (Hn m) as [Hm1 Hm2].
  pose proof (NilZero.isi _ Hn1 Hn2) as En.
  pose proof (NilZero.isi _ Hm1 Hm2) as Em.
  rewrite H in En. congruence.
Qed.

End DigitsFacts.

(** A code is a text of exactly six decimal digits, and two draws give the
    same code only when they are the same number. *)
Theorem code_has_six_digits (draw : Z) :
  (100000 <= draw <= 999999)%Z ->
  String.length (Otp.generate_otp draw) = 6%nat
  /\ Text.all_chars Text.is_digit (Otp.generate_otp draw) = true
  /\ forall draw' : Z,
       Otp.generate_otp draw' = Otp.generate_otp draw -> draw' = draw.
Proof.
  intros Hrange. unfold Otp.generate_otp. split; [| split].
  - apply (DigitsFacts.str_of_int_length draw 5). cbn. lia.
  - apply AverageFacts.str_of_int_digits. lia.
  - intros draw'. apply DigitsFacts.str_of_int_inj.
Qed.

Lemma code_has_six_digits_witness :
  String.length (Otp.generate_otp 123456) = 6%nat.
Proof.
  apply (proj1 (code_has_six_digits 123456 ltac:(lia))).
Defined.

(** ** The interview sessions: [start_interview], [send_interview_message]
    and [end_interview], with [generate_interview_question] and
    [rate_interview] of [ai.py] *)

Module Interview.

(** How a request handler ends: with the object it answers, with an
    [HTTPException] it raises, or with another exception that escapes it. *)
Inductive http (A : Type) :=
  | Answered (a : A)
  | Refused (status : Z) (detail : string)
  | Escaped (message : string).

Arguments Answered {A} a.
Arguments Refused {A} status detail.
Arguments Escaped {A} message.

(** A value [json.loads] gives. *)
#[local] Unset Elimination Schemes.
Inductive json :=
  | JNull
  | JBool (b : bool)
  | JInt (n : Z)
  | JFloat (x : spec_float)
  | JString (s : string)
  | JList (items : list json)
  | JObject (fields : list (string * json)).
#[local] Set Elimination Schemes.

(** An entry of a conversation history. *)
Record message := {
  role : string;
  content : string;
  timestamp : string
}.

(** An entry of [interview_sessions]. *)
Record session := {
  user_id : Z;
  topic : string;
  stage : string;
  cv_skills : list string;
  history : list message;
  created_at : string
}.

(** The double quote. *)
Definition quote : ascii := ascii_of_nat 34.

(** [s.replace(old, "")] for a non-empty [old]: the occurrences are found
    from the left and do not overlap; [skip] counts the characters of an
    occurrence still to be dropped. *)
Fixpoint remove_from (old : string) (skip : nat) (s : string) : string :=
  match s with
  | EmptyString => EmptyString
  | String c rest =>
      match skip with
      | S k => remove_from old k rest
      | O =>
          match Text.strip_prefix old s with
          | Some _ => remove_from old (String.length old - 1) rest
          | None => String c (remove_from old 0 rest)
          end
      end
  end.

Definition remove_all (old s : string) : string := remove_from old 0 s.

(** The messages of one role: [[m for m in h if m.get("role") == r]]. *)
Definition of_role (r : string) (conversation_history : list message)
    : list message :=
  List.filter (fun m => String.eqb (role m) r) conversation_history.

Definition fallback_questions : list string :=
  [ "Tell me more about your background.";
    "What's your experience with the skills on your CV?";
    "Describe a challenging project you worked on.";
    "How do you handle difficult technical problems?";
    "What are your career goals?";
    "Can you elaborate on that?" ].

(** [generate_interview_question].  [ai] is the text the model answered to
    the prompt, or [None] when the model is not configured or the call
    raised; the candidate's answer and the skills only enter the prompt.
    The result is the question with the provider and the question
    number. *)
Definition generate_interview_question (ai : option string)
    (conversation_history : list message) : string * (string * Z) :=
  let question_count := length (of_role "assistant" conversation_history) in
  match ai with
  | Some answer =>
      let question := Text.strip answer in
      let question :=
        Text.strip
          (remove_all "Question:" (Text.remove_char quote question)) in
      (question, ("groq", Z.of_nat question_count + 1)%Z)
  | None =>
      let question :=
        nth (Nat.min question_count (length fallback_questions - 1))
          fallback_questions "" in
      (question, ("fallback", Z.of_nat question_count + 1)%Z)
  end.

(** [rate_interview].  [ai] is the object the model's answer parses to, or
    [None] when the model is not configured, the call raised or the answer
    is no JSON object. *)
Definition rate_interview (ai : option (gmap string json))
    (conversation_history : list message) : gmap string json :=
  let user_responses := of_role "user" conversation_history in
  if (length user_responses <? 3)%nat then
    list_to_map
      [("score", JNull);
       ("summary",
        JString "Interview too short. Answer at least 3 questions.");
       ("incomplete", JBool true)]
  else
    match ai with
    | Some rating => <["incomplete" := JBool false]> rating
    | None =>
        list_to_map
          [("score", JFloat (Float64.of_decimal false 65 (-1)));
           ("summary", JString "Interview completed. Keep practicing!");
           ("strengths", JList [JString "Engaged with questions"]);
           ("improvements",
            JList [JString "Provide more specific examples"]);
           ("incomplete", JBool false)]
    end.

(** [f"session_{user_id}_{int(datetime.now().timestamp())}"], for the
    second the clock shows. *)
Definition session_id_of (user seconds : Z) : string :=
  "session_" +:+ Text.str_of_int user +:+ "_" +:+ Text.str_of_int seconds.

Definition greeting_of (skills : list string) : string :=
  match skills with
  | _ :: _ =>
      "Hello! I've reviewed your CV and I'm impressed by your experience with "
      +:+ String.concat ", " (firstn 3 skills)
      +:+ ". Let's start - tell me about yourself and what "
      +:+ "excites you most about your work."
  | [] =>
      "Hello! I'm your AI interviewer. Let's begin - tell me about yourself "
      +:+ "and what interests you in your career."
  end.

(** What [start_interview] answers. *)
Record started := {
  started_session_id : string;
  started_message : string;
  started_cv_skills : list string
}.

(** [start_interview].  [cv_data] is how the [SELECT] ends: the exception
    it raises, no row, or a row with the skills its analysis holds, when
    the analysis can be read ([None] when reading it raises).  [seconds],
    [now_history] and [now_created] are the three readings of the clock. *)
Definition start_interview (interview_sessions : gmap string session)
    (request_topic : string) (request_cv_skills : list string)
    (current_user : Z)
    (cv_data : outcome (option (option (list string))))
    (seconds : Z) (now_history now_created : string)
    : http started * gmap string session :=
  match cv_data with
  | Raised e => (Escaped e, interview_sessions)
  | Returned row =>
      let skills :=
        match request_cv_skills, row with
        | [], Some (Some stored) => stored
        | _, _ => request_cv_skills
        end in
      let session_id := session_id_of current_user seconds in
      let greeting := greeting_of skills in
      (Answered {| started_session_id := session_id;
                   started_message := greeting;
                   started_cv_skills := skills |},
       <[session_id :=
           {| user_id := current_user;
              topic := request_topic;
              stage := "intro";
              cv_skills := skills;
              history := [ {| role := "assistant"; content := greeting;
                              timestamp := now_history |} ];
              created_at := now_created |}]> interview_sessions)
  end.

(** What [send_interview_message] answers. *)
Record answer := {
  reply : string;
  reply_stage : string;
  question_number : Z;
  provider : string
}.

(** [send_interview_message].  The session is the object the store holds,
    so the two appends show in the store; [now_user] and [now_reply] are
    the two readings of the clock. *)
Definition send_interview_message (interview_sessions : gmap string session)
    (request_session_id : option string) (request_message : string)
    (current_user : Z) (ai : option string) (now_user now_reply : string)
    : http answer * gmap string session :=
  match request_session_id with
  | None => (Refused 404 "Session not found", interview_sessions)
  | Some session_id =>
      match interview_sessions !! session_id with
      | None => (Refused 404 "Session not found", interview_sessions)
      | Some session =>
          if negb (user_id session =? current_user)%Z then
            (Refused 403 "Not authorized", interview_sessions)
          else
            let asked :=
              (history session
               ++ [ {| role := "user"; content := request_message;
                       timestamp := now_user |} ])%list in
            let '(ai_question, (provider, number)) :=
              generate_interview_question ai asked in
            let replied :=
              (asked
               ++ [ {| role := "assistant"; content := ai_question;
                       timestamp := now_reply |} ])%list in
            (Answered {| reply := ai_question;
                         reply_stage := stage session;
                         question_number := number;
                         provider := provider |},
             <[session_id :=
                 {| user_id := user_id session;
                    topic := topic session;
                    stage := stage session;
                    cv_skills := cv_skills session;
                    history := replied;
                    created_at := created_at session |}]> interview_sessions)
      end
  end.

(** [if key not in rating: rating[key] = value]. *)
Definition set_default (key : string) (value : json)
    (rating : gmap string json) : gmap string json :=
  match rating !! key with
  | Some _ => rating
  | None => <[key := value]> rating
  end.

(** What [end_interview] answers. *)
Record ended := {
  ended_message : string;
  ended_rating : gmap string json
}.

(** [end_interview].  [ai] is the model's rating as in [rate_interview];
    [saved] is how the [INSERT] and its commit end. *)
Definition end_interview (interview_sessions : gmap string session)
    (session_id : string) (current_user : Z)
    (ai : option (gmap string json)) (saved : outcome unit)
    : http ended * gmap string session :=
  match interview_sessions !! session_id with
  | None => (Refused 404 "Session not found", interview_sessions)
  | Some session =>
      if negb (user_id session =? current_user)%Z then
        (Refused 403 "Not authorized", interview_sessions)
      else
        let rating := rate_interview ai (history session) in
        let rating :=
          set_default "tips"
            (JList
               [JString "Practice STAR method (Situation, Task, Action, Result)";
                JString "Take time to think before answering";
                JString "Prepare specific examples from your experience"])
            rating in
        let rating :=
          set_default "strengths"
            (JList [JString "Completed the interview";
                    JString "Engaged with questions"])
            rating in
        let rating :=
          set_default "improvements"
            (JList [JString "Keep practicing to improve"]) rating in
        let rating :=
          set_default "weaknesses"
            (default (JList [JString "Keep practicing"])
               (rating !! "improvements"))
            rating in
        match saved with
        | Raised e => (Escaped e, interview_sessions)
        | Returned _ =>
            (Answered {| ended_message := "Interview ended";
                         ended_rating := rating |},
             delete session_id interview_sessions)
        end
  end.

End Interview.

Module InterviewFacts.
Import Interview.
#[local] Open Scope list_scope.

(** One exchange of a conversation: what the candidate says, what the
    model answers to the prompt, and the two readings of the clock. *)
Record turn := {
  said : string;
  model_answer : option string;
  at_said : string;
  at_reply : string
}.

(** The store after the owner of a session has sent the turns in order. *)
Definition talk (interview_sessions : gmap string session)
    (session_id : string) (user : Z) (turns : list turn)
    : gmap string session :=
  fold_left
    (fun sessions t =>
       snd (send_interview_message sessions (Some session_id) (said t) user
              (model_answer t) (at_said t) (at_reply t)))
    turns interview_sessions.

(** A request to one of the three endpoints. *)
Inductive request :=
  | Start (request_topic : string) (request_cv_skills : list string)
      (cv_data : outcome (option (option (list string))))
      (seconds : Z) (now_history now_created : string)
  | Send (request_session_id : option string) (request_message : string)
      (ai : option string) (now_user now_reply : string)
  | End (session_id : string) (ai : option (gmap string json))
      (saved : outcome unit).

(** The store after a user's request. *)
Definition serve (interview_sessions : gmap string session)
    (by_user : Z * request) : gmap string session :=
  match snd by_user with
  | Start request_topic request_cv_skills cv_data seconds t1 t2 =>
      snd (start_interview interview_sessions request_topic
             request_cv_skills (fst by_user) cv_data seconds t1 t2)
  | Send request_session_id request_message ai t1 t2 =>
      snd (send_interview_message interview_sessions request_session_id
             request_message (fst by_user) ai t1 t2)
  | End session_id ai saved =>
      snd (end_interview interview_sessions session_id (fst by_user) ai
             saved)
  end.

Definition serve_all (interview_sessions : gmap string session)
    (requests : list (Z * request)) : gmap string session :=
  fold_left serve requests interview_sessions.

Definition users (h : list message) : nat := length (of_role "user" h).
Definition assistants (h : list message) : nat :=
  length (of_role "assistant" h).

Lemma of_role_app (r : string) (h k : list message) :
  of_role r (h ++ k) = of_role r h ++ of_role r k.
Proof. apply List.filter_app. Qed.

(** The question and its number do not depend on the provider's part in
    the count. *)
Lemma question_metadata (ai : option string) (h : list message) :
  snd (generate_interview_question ai h)
  = (match ai with Some _ => "groq" | None => "fallback" end,
     (Z.of_nat (assistants h) + 1)%Z).
Proof. unfold generate_interview_question. now destruct ai. Qed.

(** A message of the owner is answered: the history gains the message and
    the question, in this order, and nothing else changes. *)
Lemma send_by_owner (interview_sessions : gmap string session)
    (session_id : string) (s : session) (message : string)
    (ai : option string) (t1 t2 : string) :
  interview_sessions !! session_id = Some s ->
  send_interview_message interview_sessions (Some session_id) message
    (user_id s) ai t1 t2
  = (let asked :=
       history s
       ++ [ {| role := "user"; content := message; timestamp := t1 |} ] in
     let q := generate_interview_question ai asked in
     (Answered {| reply := fst q; reply_stage := stage s;
                  question_number := snd (snd q);
                  provider := fst (snd q) |},
      <[session_id :=
          {| user_id := user_id s; topic := topic s; stage := stage s;
             cv_skills := cv_skills s;
             history :=
               asked
               ++ [ {| role := "assistant"; content := fst q;
                       timestamp := t2 |} ];
             created_at := created_at s |}]> interview_sessions)).
Proof.
  intros Hs. unfold send_interview_message. rewrite Hs, Z.eqb_refl.
  cbn [negb].
  destruct (generate_interview_question ai _) as [q [p n]]. reflexivity.
Qed.

(** After the turns, the session of the owner holds one more answer of the
    candidate and one more question for each turn. *)
Lemma talk_counts (turns : list turn) :
  forall (interview_sessions : gmap string session) (session_id : string)
         (s : session),
    interview_sessions !! session_id = Some s ->
    exists s',
      talk interview_sessions session_id (user_id s) turns !! session_id
      = Some s'
      /\ user_id s' = user_id s /\ stage s' = stage s
      /\ users (history s') = (users (history s) + length turns)%nat
      /\ assistants (history s')
         = (assistants (history s) + length turns)%nat.
Proof.
  induction turns as [|t turns IH]; intros sessions sid s Hs.
  - exists s. cbn. rewrite Hs. repeat split; lia.
  - unfold talk. cbn [fold_left].
    rewrite (send_by_owner sessions sid s _ _ _ _ Hs). cbn [snd].
    set (s1 := {| user_id := user_id s |}).
    destruct (IH (<[sid := s1]> sessions) sid s1) as (s' & H1 & H2 & H3 & H4 & H5).
    { apply lookup_insert_eq. }
    exists s'. subst s1. cbn [user_id stage history] in *.
    unfold talk in H1. rewrite H1. repeat split; try assumption.
    + rewrite H4. unfold users. rewrite !of_role_app, !length_app.
      cbn. lia.
    + rewrite H5. unfold assistants. rewrite !of_role_app, !length_app.
      cbn. lia.
Qed.

(** The session [start_interview] stores. *)
Lemma started_session (interview_sessions : gmap string session)
    (request_topic : string) (request_cv_skills : list string) (user : Z)
    (row : option (option (list string))) (seconds : Z) (t1 t2 : string) :
  exists s,
    snd (start_interview interview_sessions request_topic request_cv_skills
           user (Returned row) seconds t1 t2)
      !! session_id_of user seconds = Some s
    /\ user_id s = user /\ stage s = "intro"
    /\ users (history s) = 0%nat /\ assistants (history s) = 1%nat.
Proof.
  unfold start_interview. cbn [snd]. eexists. split.
  - apply lookup_insert_eq.
  - now repeat split.
Qed.

(** A conversation from its start: the session after the turns. *)
Lemma conversation_counts (interview_sessions : gmap string session)
    (request_topic : string) (request_cv_skills : list string) (user : Z)
    (row : option (option (list string))) (seconds : Z) (t1 t2 : string)
    (turns : list turn) :
  exists s,
    talk (snd (start_interview interview_sessions request_topic
                 request_cv_skills user (Returned row) seconds t1 t2))
      (session_id_of user seconds) user turns
      !! session_id_of user seconds = Some s
    /\ user_id s = user /\ stage s = "intro"
    /\ users (history s) = length turns
    /\ assistants (history s) = S (length turns).
Proof.
  destruct (started_session interview_sessions request_topic
              request_cv_skills user row seconds t1 t2)
    as (s0 & H0 & Hu & Hst & Hus & Has).
  destruct (talk_counts turns _ _ s0 H0) as (s & H1 & H2 & H3 & H4 & H5).
  exists s. rewrite Hu in H1. rewrite H1.
  repeat split; [congruence | congruence | lia | lia].
Qed.

Lemma set_default_other (key other : string) (value : json)
    (rating : gmap string json) :
  key <> other -> set_default key value rating !! other = rating !! other.
Proof.
  intros Hne. unfold set_default.
  destruct (rating !! key); [reflexivity | now apply lookup_insert_ne].
Qed.

Lemma set_default_key (key : string) (value : json)
    (rating : gmap string json) :
  is_Some (set_default key value rating !! key).
Proof.
  unfold set_default. destruct (rating !! key) eqn:E.
  - rewrite E. now eexists.
  - rewrite lookup_insert_eq. now eexists.
Qed.

Lemma set_default_keeps (key other : string) (value : json)
    (rating : gmap string json) :
  is_Some (rating !! other) -> is_Some (set_default key value rating !! other).
Proof.
  intros H. destruct (String.eqb_spec key other) as [-> | Hne].
  - apply set_default_key.
  - now rewrite set_default_other.
Qed.

(** Every rating says whether the interview was complete. *)
Lemma rate_incomplete (ai : option (gmap string json)) (h : list message) :
  rate_interview ai h !! "incomplete" = Some (JBool (users h <? 3)%nat).
Proof.
  unfold rate_interview, users. destruct (_ <? 3)%nat; [reflexivity |].
  destruct ai; [apply lookup_insert_eq | reflexivity].
Qed.

Lemma rate_score (ai : option (gmap string json)) (h : list message) :
  rate_interview ai h !! "score"
  = if (users h <? 3)%nat then Some JNull
    else match ai with
         | Some rating => rating !! "score"
         | None => Some (JFloat (Float64.of_decimal false 65 (-1)))
         end.
Proof.
  unfold rate_interview, users. destruct (_ <? 3)%nat; [reflexivity |].
  destruct ai; [now apply lookup_insert_ne | reflexivity].
Qed.

(** *** Session identifiers *)

Definition no_underscore (c : ascii) : bool := negb (Ascii.eqb c "_").

Lemma digit_no_underscore (c : ascii) :
  Text.is_digit c = true -> no_underscore c = true.
Proof. TextFacts.by_cases_on_char c. Qed.

Lemma str_of_int_no_underscore (n : Z) :
  Text.all_chars no_underscore (Text.str_of_int n) = true.
Proof.
  unfold Text.str_of_int.
  assert (Hu : forall u, Text.all_chars no_underscore
                           (NilZero.string_of_uint u) = true).
  { intros u. unfold NilZero.string_of_uint.
    destruct u; try reflexivity;
      apply (ValidatorFacts.all_chars_impl Text.is_digit);
      auto using digit_no_underscore, AverageFacts.uint_digits;
      apply (AverageFacts.uint_digits (_ u)). }
  destruct (Z.to_int n) as [u | u]; cbn [NilZero.string_of_int].
  - apply Hu.
  - cbn [Text.all_chars]. now rewrite Hu.
Qed.

(** Two texts without underscore, each followed by an underscore and a
    rest: equal wholes have equal parts. *)
Lemma split_at_underscore (a a' b b' : string) :
  Text.all_chars no_underscore a = true ->
  Text.all_chars no_underscore a' = true ->
  a +:+ "_" +:+ b = a' +:+ "_" +:+ b' -> a = a' /\ b = b'.
Proof.
  revert a'. induction a as [|c a IH]; intros [|c' a'] Ha Ha' H;
    cbn [String.append Text.all_chars] in *.
  - injection H as H. now split.
  - injection H as <- _. now apply andb_prop in Ha' as [? _].
  - injection H as -> _. now apply andb_prop in Ha as [? _].
  - injection H as -> H. apply andb_prop in Ha as [_ Ha].
    apply andb_prop in Ha' as [_ Ha'].
    destruct (IH a' Ha Ha' H) as [-> ->]. now split.
Qed.

Lemma session_id_of_inj (u t u' t' : Z) :
  session_id_of u t = session_id_of u' t' -> u = u' /\ t = t'.
Proof.
  unfold session_id_of. intros H.
  apply (TextFacts.append_inv_head "session_") in H.
  apply split_at_underscore in H; try apply str_of_int_no_underscore.
  destruct H as [Hu Ht]. split; now apply DigitsFacts.str_of_int_inj.
Qed.

(** A request of another user leaves a session where it is. *)
Lemma serve_other (interview_sessions : gmap string session)
    (owner seconds : Z) (s : session) (by_user : Z * request) :
  interview_sessions !! session_id_of owner seconds = Some s ->
  user_id s = owner ->
  fst by_user <> owner ->
  serve interview_sessions by_user !! session_id_of owner seconds = Some s.
Proof.
  intros Hs Hu Hne. destruct by_user as [user r]. cbn [fst] in Hne.
  unfold serve. cbn [fst snd]. destruct r.
  - unfold start_interview. destruct cv_data; cbn [snd]; [| exact Hs].
    rewrite lookup_insert_ne; [exact Hs |].
    intros E. apply session_id_of_inj in E as [E _]. contradiction.
  - unfold send_interview_message.
    destruct request_session_id as [sid|]; [| exact Hs].
    destruct (interview_sessions !! sid) as [s1|] eqn:E1; [| exact Hs].
    destruct (Z.eqb_spec (user_id s1) user) as [E | E]; cbn [negb];
      [| exact Hs].
    destruct (generate_interview_question _ _) as [q [p n]]. cbn [snd].
    rewrite lookup_insert_ne; [exact Hs |].
    intros ->. rewrite Hs in E1. injection E1 as <-. congruence.
  - unfold end_interview.
    destruct (interview_sessions !! session_id) as [s1|] eqn:E1; [| exact Hs].
    destruct (Z.eqb_spec (user_id s1) user) as [E | E]; cbn [negb];
      [| exact Hs].
    destruct saved; cbn [snd]; [| exact Hs].
    rewrite lookup_delete_ne; [exact Hs |].
    intros ->. rewrite Hs in E1. injection E1 as <-. congruence.
Qed.

End InterviewFacts.

(** A session identifier names its user and its second: two interviews
    share an identifier, and the later start replaces the earlier session
    in the store, only when the same user starts both within one second. *)
Theorem session_identifiers_collide_only_within_a_second
    (user seconds user' seconds' : Z) :
  Interview.session_id_of user seconds
  = Interview.session_id_of user' seconds'
  <-> user = user' /\ seconds = seconds'.
Proof.
  split.
  - apply InterviewFacts.session_id_of_inj.
  - now intros [-> ->].
Qed.

(** Whatever other users ask of the three endpoints, in any number and
    order, the session a user started stays in the store as it is. *)
Theorem other_users_cannot_change_a_session
    (interview_sessions : gmap string Interview.session)
    (owner seconds : Z) (s : Interview.session)
    (requests : list (Z * InterviewFacts.request)) :
  interview_sessions !! Interview.session_id_of owner seconds = Some s ->
  Interview.user_id s = owner ->
  Forall (fun by_user => fst by_user <> owner) requests ->
  InterviewFacts.serve_all interview_sessions requests
    !! Interview.session_id_of owner seconds = Some s.
Proof.
  intros Hs Hu Hothers. revert interview_sessions Hs.
  induction Hothers as [|r requests Hr _ IH]; intros sessions Hs.
  - exact Hs.
  - unfold InterviewFacts.serve_all. cbn [fold_left]. apply IH.
    now apply InterviewFacts.serve_other.
Qed.

Lemma other_users_cannot_change_a_session_witness :
  InterviewFacts.serve_all
    (snd (Interview.start_interview ∅ "Software Development" ["Python"] 7
            (Returned None) 1700000000 "t0" "t1"))
    [ (8%Z, InterviewFacts.Start "Software Development" [] (Returned None)
              1700000000 "t2" "t3");
      (8%Z, InterviewFacts.Send (Some "session_7_1700000000") "Hello"
              None "t4" "t5");
      (9%Z, InterviewFacts.End "session_7_1700000000" None (Returned tt)) ]
    !! "session_7_1700000000"
  = Some {| Interview.user_id := 7;
            Interview.topic := "Software Development";
            Interview.stage := "intro";
            Interview.cv_skills := ["Python"];
            Interview.history :=
              [ {| Interview.role := "assistant";
                   Interview.content := Interview.greeting_of ["Python"];
                   Interview.timestamp := "t0" |} ];
            Interview.created_at := "t1" |}.
Proof.
  apply (other_users_cannot_change_a_session _ 7 1700000000).
  - vm_compute. reflexivity.
  - reflexivity.
  - repeat constructor; cbn; lia.
Defined.

(** An interview ended after fewer than three answers is rated incomplete
    with no score, whatever the model says; from three answers on it is
    rated complete, with the model's score or the fallback 6.5.  Either
    way the session leaves the store. *)
Theorem interview_is_complete_from_three_answers
    (interview_sessions : gmap string Interview.session)
    (request_topic : string) (request_cv_skills : list string) (user : Z)
    (row : option (option (list string))) (seconds : Z) (t1 t2 : string)
    (turns : list InterviewFacts.turn)
    (ai : option (gmap string Interview.json)) :
  let session_id := Interview.session_id_of user seconds in
  let talked :=
    InterviewFacts.talk
      (snd (Interview.start_interview interview_sessions request_topic
              request_cv_skills user (Returned row) seconds t1 t2))
      session_id user turns in
  exists rating,
    Interview.end_interview talked session_id user ai (Returned tt)
    = (Interview.Answered
         {| Interview.ended_message := "Interview ended";
            Interview.ended_rating := rating |},
       delete session_id talked)
    /\ rating !! "incomplete"
       = Some (Interview.JBool (length turns <? 3)%nat)
    /\ rating !! "score"
       = if (length turns <? 3)%nat then Some Interview.JNull
         else match ai with
              | Some answer => answer !! "score"
              | None =>
                  Some (Interview.JFloat (Float64.of_decimal false 65 (-1)))
              end.
Proof.
  intros session_id talked.
  destruct (InterviewFacts.conversation_counts interview_sessions
              request_topic request_cv_skills user row seconds t1 t2 turns)
    as (s & Hs & Hu & _ & Husers & _).
  fold session_id in Hs. fold talked in Hs.
  unfold Interview.end_interview. rewrite Hs, Hu, Z.eqb_refl. cbn [negb].
  eexists. split; [reflexivity |]. split.
  - rewrite !InterviewFacts.set_default_other by discriminate.
    rewrite InterviewFacts.rate_incomplete. now rewrite Husers.
  - rewrite !InterviewFacts.set_default_other by discriminate.
    rewrite InterviewFacts.rate_score. now rewrite Husers.
Qed.

(** Without the model, the question that answers the n-th message of an
    interview is the fallback question at index n, the last one from the
    fifth message on, and it carries the number n + 1: the greeting counts
    as the first question, so the fallback question at index 0 is never
    asked. *)
Theorem fallback_question_follows_the_conversation
    (interview_sessions : gmap string Interview.session)
    (request_topic : string) (request_cv_skills : list string) (user : Z)
    (row : option (option (list string))) (seconds : Z) (t1 t2 : string)
    (turns : list InterviewFacts.turn) (message t3 t4 : string) :
  fst (Interview.send_interview_message
         (InterviewFacts.talk
            (snd (Interview.start_interview interview_sessions request_topic
                    request_cv_skills user (Returned row) seconds t1 t2))
            (Interview.session_id_of user seconds) user turns)
         (Some (Interview.session_id_of user seconds)) message user None
         t3 t4)
  = Interview.Answered
      {| Interview.reply :=
           nth (Nat.min (length turns + 1) 5) Interview.fallback_questions "";
         Interview.reply_stage := "intro";
         Interview.question_number := Z.of_nat (length turns) + 2;
         Interview.provider := "fallback" |}.
Proof.
  destruct (InterviewFacts.conversation_counts interview_sessions
              request_topic request_cv_skills user row seconds t1 t2 turns)
    as (s & Hs & Hu & Hstage & _ & Hassistants).
  pose proof (InterviewFacts.send_by_owner _ _ s message None t3 t4 Hs)
    as Hsend.
  rewrite Hu in Hsend. rewrite Hsend.
  cbn [fst]. unfold Interview.generate_interview_question.
  cbn [fst snd]. rewrite !InterviewFacts.of_role_app.
  cbn [Interview.of_role List.filter Interview.role String.eqb Ascii.eqb
       Bool.eqb]. rewrite app_nil_r.
  fold (InterviewFacts.assistants (Interview.history s)).
  rewrite Hassistants, Hstage. f_equal. f_equal; [| lia].
  f_equal. cbn [length Interview.fallback_questions Nat.sub]. lia.
Qed.

(** A rating that [end_interview] answers always holds tips, strengths,
    improvements, weaknesses and the completeness flag, whatever the model
    left out; and when the rating held no weaknesses, they are its
    improvements. *)
Theorem ended_interview_always_has_feedback
    (interview_sessions : gmap string Interview.session)
    (session_id : string) (current_user : Z)
    (ai : option (gmap string Interview.json)) (saved : outcome unit) :
  match fst (Interview.end_interview interview_sessions session_id
               current_user ai saved) with
  | Interview.Answered e =>
      let rating := Interview.ended_rating e in
      is_Some (rating !! "tips") /\ is_Some (rating !! "strengths")
      /\ is_Some (rating !! "improvements")
      /\ is_Some (rating !! "weaknesses")
      /\ is_Some (rating !! "incomplete")
      /\ match interview_sessions !! session_id with
         | Some s =>
             Interview.rate_interview ai (Interview.history s)
               !! "weaknesses" = None ->
             rating !! "weaknesses" = rating !! "improvements"
         | None => True
         end
  | _ => True
  end.
Proof.
  unfold Interview.end_interview.
  destruct (interview_sessions !! session_id) as [s|]; [| exact I].
  destruct (negb _); [exact I |]. destruct saved; [| exact I].
  cbn [fst Interview.ended_rating].
  set (r0 := Interview.rate_interview ai (Interview.history s)).
  assert (Hinc : is_Some (r0 !! "incomplete")).
  { unfold r0. rewrite InterviewFacts.rate_incomplete. now eexists. }
  repeat split.
  - do 3 apply InterviewFacts.set_default_keeps.
    apply InterviewFacts.set_default_key.
  - do 2 apply InterviewFacts.set_default_keeps.
    apply InterviewFacts.set_default_key.
  - apply InterviewFacts.set_default_keeps.
    apply InterviewFacts.set_default_key.
  - apply InterviewFacts.set_default_key.
  - now do 4 apply InterviewFacts.set_default_keeps.
  - intros Hnone.
    set (r3 := Interview.set_default "improvements" _ _).
    assert (H3 : r3 !! "weaknesses" = None).
    { unfold r3. now rewrite !InterviewFacts.set_default_other by discriminate. }
    assert (Himp : is_Some (r3 !! "improvements")).
    { apply InterviewFacts.set_default_key. }
    destruct Himp as [v Hv].
    unfold Interview.set_default at 1 2. rewrite H3.
    rewrite lookup_insert_eq, lookup_insert_ne by discriminate.
    now rewrite Hv.
Qed.

(** ** The endpoint of the runner: [run_code] *)

Module RunCode.
Import Interview.

(** The truth value of a field. *)
Definition truthy (v : pyval) : bool :=
  match v with
  | VBool b => b
  | VStr s => negb (String.eqb s "")
  | VNone => false
  end.

(** A field inside an f-string: [format(v)]. *)
Definition format_value (v : pyval) : string :=
  match v with
  | VBool true => "True"
  | VBool false => "False"
  | VStr s => s
  | VNone => "None"
  end.

Definition newline : string := String (ascii_of_nat 10) EmptyString.

(** What [run_code] answers. *)
Record verdict := {
  verdict_success : pyval;
  verdict_output : string;
  verdict_passed : pyval;
  verdict_score : Z;
  verdict_expected : pyval;
  verdict_actual : pyval;
  verdict_error : pyval
}.

Section Endpoint.

Variable I : Interpreter.

(** The two verdict lines of the report; each starts with a sign that is
    no character of the strings modelled here. *)
Variables correct_line incorrect_line : string.

(** [str(e)] for the [HTTPException] with status 404 that the handler
    raises for a missing problem. *)
Variable not_found_text : string.

(** [run_code].  [problem] is how reading the problem ends: the exception
    the query raises, no row, or a row and how reading the expected answer
    of its first test case ends.  The result is what the runner asked of
    the interpreter, and the answer. *)
Definition run_code (problem : outcome (option (outcome string)))
    (request_code request_language : string)
    : list event * http verdict :=
  match problem with
  | Raised e => ([], Refused 500 e)
  | Returned None => ([], Refused 500 not_found_text)
  | Returned (Some (Raised e)) => ([], Refused 500 e)
  | Returned (Some (Returned expected_answer)) =>
      let '(trace, result) :=
        execute_code_no_input I request_code expected_answer
          request_language in
      match result !! "passed" with
      | None => (trace, Refused 500 "'passed'")
      | Some passed =>
          let score := if truthy passed then 10%Z else 0%Z in
          let output_text :=
            "Expected: "
            +:+ format_value (default (VStr "") (result !! "expected"))
            +:+ newline in
          let output_text :=
            output_text +:+ "Your Output: "
            +:+ format_value (default (VStr "") (result !! "output"))
            +:+ newline +:+ newline in
          let output_text :=
            output_text
            +:+ (if truthy passed then correct_line else incorrect_line) in
          let output_text :=
            if truthy (default VNone (result !! "error")) then
              output_text +:+ newline +:+ "Error: "
              +:+ format_value (default VNone (result !! "error"))
              +:+ newline
            else output_text in
          match result !! "success" with
          | None => (trace, Refused 500 "'success'")
          | Some success =>
              (trace,
               Answered
                 {| verdict_success := success;
                    verdict_output := output_text;
                    verdict_passed := passed;
                    verdict_score := score;
                    verdict_expected :=
                      default (VStr "") (result !! "expected");
                    verdict_actual :=
                      default (VStr "") (result !! "output");
                    verdict_error := default VNone (result !! "error") |})
          end
      end
  end.

End Endpoint.

End RunCode.

Module RunCodeFacts.
Import Interview RunCode.

Section Verdicts.

Variable I : Interpreter.

(** A run either takes the success path, and its result is the one of
    that path, or it has neither succeeded nor passed. *)
Lemma run_verdict (code expected_answer language : string) :
  (exists actual name,
     success_path I code language actual
     /\ execute_code_no_input I code expected_answer language
        = ([EvExec code; EvLookup name; EvCall name],
           list_to_map
             [("success", VBool true); ("output", VStr actual);
              ("expected", VStr expected_answer); ("actual", VStr actual);
              ("error", VNone);
              ("passed", VBool (compare_answers actual expected_answer))]))
  \/ (snd (execute_code_no_input I code expected_answer language) !! "passed"
        = Some (VBool false)
      /\ snd (execute_code_no_input I code expected_answer language)
           !! "success" = Some (VBool false)).
Proof.
  unfold success_path.
  destruct (String.eqb language "python") eqn:Hl.
  2:{ right. unfold execute_code_no_input. rewrite Hl.
      destruct (String.eqb language "javascript");
        [| destruct (String.eqb language "java")]; split; reflexivity. }
  apply String.eqb_eq in Hl as ->.
  destruct (Regex.search Regex.match_def code) as [name|] eqn:Hs.
  2:{ right.
      rewrite (RunnerFacts.run_without_entry_point I code expected_answer Hs).
      split; reflexivity. }
  destruct (exec I code) as [ns | e] eqn:He.
  2:{ right.
      rewrite (RunnerFacts.run_not_compiled I code expected_answer name e
                 Hs He).
      split; reflexivity. }
  destruct (defines I ns name) eqn:Hd.
  2:{ right.
      rewrite (RunnerFacts.run_not_defined I code expected_answer name ns
                 Hs He Hd).
      split; reflexivity. }
  rewrite (RunnerFacts.run_called I code expected_answer name ns Hs He Hd).
  cbn [snd].
  destruct (completion (call I ns name)) as [result | e] eqn:Hc.
  2:{ right. apply RunnerFacts.runtime_error_fields. }
  destruct (String.eqb (Text.strip (diagnostics (call I ns name))) "")
    eqn:Hdiag.
  2:{ right. apply String.eqb_neq in Hdiag.
      now apply RunnerFacts.judge_diagnostics. }
  apply String.eqb_eq in Hdiag.
  destruct result as [|[actual | e]].
  - left. exists (Text.strip (printed (call I ns name))), name. split.
    + split; [reflexivity |]. exists name, ns, RNone. now repeat split.
    + f_equal. now apply RunnerFacts.judge_clean.
  - left. exists actual, name. split.
    + split; [reflexivity |]. exists name, ns, (RObject (Returned actual)).
      now repeat split.
    + f_equal. now apply RunnerFacts.judge_clean.
  - right. unfold judge. rewrite Hdiag. cbn [String.eqb negb py_str].
    apply RunnerFacts.runtime_error_fields.
Qed.

End Verdicts.

End RunCodeFacts.

(** Every refusal of [run_code] has status 500, also the one for a problem
    that does not exist, whose status 404 is caught and raised again; a
    submission is answered only for a problem whose expected answer could
    be read, and without one the interpreter is not asked anything. *)
Theorem missing_problem_is_reported_as_a_server_error
    (I : Interpreter) (correct_line incorrect_line not_found_text : string)
    (problem : outcome (option (outcome string)))
    (request_code request_language : string) :
  match RunCode.run_code I correct_line incorrect_line not_found_text
          problem request_code request_language with
  | (trace, Interview.Answered _) =>
      exists expected_answer,
        problem = Returned (Some (Returned expected_answer))
  | (trace, Interview.Refused status detail) =>
      status = 500%Z /\ trace = []
      /\ match problem with
         | Returned None => detail = not_found_text
         | Returned (Some (Returned _)) => False
         | _ => True
         end
  | (trace, Interview.Escaped _) => False
  end.
Proof.
  unfold RunCode.run_code.
  destruct problem as [[[expected_answer | e] |] | e]; try easy.
  destruct (RunCodeFacts.run_verdict I request_code expected_answer
              request_language)
    as [(actual & name & _ & Hrun) | [Hp Hs]].
  - rewrite Hrun. cbn. now exists expected_answer.
  - destruct (execute_code_no_input I request_code expected_answer
                request_language) as [trace result].
    cbn [snd] in Hp, Hs. rewrite Hp, Hs. now exists expected_answer.
Qed.

(** The score of a submission is 10 or 0, and it is 10 only when the run
    took the success path and the text it gave matches the expected
    answer; the answer then reports that text, success and no error. *)
Theorem full_score_only_for_a_matching_answer
    (I : Interpreter) (correct_line incorrect_line not_found_text : string)
    (expected_answer request_code request_language : string) :
  exists v,
    snd (RunCode.run_code I correct_line incorrect_line not_found_text
           (Returned (Some (Returned expected_answer)))
           request_code request_language)
    = Interview.Answered v
    /\ ((RunCode.verdict_score v = 10%Z
         /\ RunCode.verdict_passed v = VBool true
         /\ RunCode.verdict_success v = VBool true
         /\ RunCode.verdict_error v = VNone
         /\ exists actual,
              RunCode.verdict_actual v = VStr actual
              /\ success_path I request_code request_language actual
              /\ compare_answers actual expected_answer = true)
        \/ (RunCode.verdict_score v = 0%Z
            /\ RunCode.verdict_passed v = VBool false)).
Proof.
  unfold RunCode.run_code.
  destruct (RunCodeFacts.run_verdict I request_code expected_answer
              request_language)
    as [(actual & name & Hpath & Hrun) | [Hp Hs]].
  - rewrite Hrun.
    destruct (RunnerFacts.success_result_fields expected_answer actual
                (compare_answers actual expected_answer)) as [Hp Hs].
    rewrite Hp, Hs. cbn [snd]. eexists. split; [reflexivity |].
    cbn [RunCode.verdict_score RunCode.verdict_passed
         RunCode.verdict_success RunCode.verdict_error
         RunCode.verdict_actual RunCode.truthy].
    destruct (compare_answers actual expected_answer) eqn:Hcmp.
    + left. do 4 (split; [reflexivity |]).
      exists actual. split; [reflexivity |]. now split.
    + right. now split.
  - destruct (execute_code_no_input I request_code expected_answer
                request_language) as [trace result].
    cbn [snd] in Hp, Hs. rewrite Hp, Hs. cbn [snd].
    eexists. split; [reflexivity |]. right. now split.
Qed.

Module SubstringFacts.

(** A text that holds a text holds its parts. *)
Lemma contains_part (a b c hay : string) :
  Text.contains (a +:+ b +:+ c) hay = true -> Text.contains b hay = true.
Proof.
  rewrite !TextFacts.contains_spec. intros (pre & post & ->).
  exists (pre +:+ a), (c +:+ post).
  now rewrite !TextFacts.append_assoc.
Qed.

End SubstringFacts.

(** ** The analysis of a CV: [analyze_cv] of [ai.py] *)

Module Cv.

(** What [analyze_cv] returns. *)
Record analysis := {
  skills : list string;
  interview_questions : list string
}.

(** [skill_map], in the order of its keys. *)
Definition skill_map : list (string * string) :=
  [ ("python", "Python"); ("java", "Java"); ("javascript", "JavaScript");
    ("react", "React"); ("node", "Node.js"); ("sql", "SQL");
    ("aws", "AWS"); ("docker", "Docker"); ("git", "Git");
    ("html", "HTML"); ("css", "CSS") ].

(** The loop over [skill_map]: the names of the keywords the text holds. *)
Fixpoint extract (lower_text : string) (pairs : list (string * string))
    : list string :=
  match pairs with
  | [] => []
  | (keyword, skill_name) :: pairs' =>
      if Text.contains keyword lower_text
      then skill_name :: extract lower_text pairs'
      else extract lower_text pairs'
  end.

(** [analyze_cv].  [ai] holds the two lists of the model's answer, when
    the model is configured and its answer parses to an object with lists
    of strings (a missing list is empty); it is [None] when the model is
    not configured or anything in the attempt raises. *)
Definition analyze_cv (ai : option (list string * list string))
    (cv_text : string) : analysis :=
  if String.eqb cv_text ""
     || (String.length (Text.strip cv_text) <? 50)%nat
  then
    {| skills := ["Python"; "Communication"];
       interview_questions :=
         [ "Tell me about your professional background.";
           "What are your key technical skills?";
           "Describe a challenging project you've worked on.";
           "How do you approach problem-solving?";
           "What are you currently learning?" ] |}
  else
    match ai with
    | Some (found, questions) =>
        {| skills := firstn 8 found;
           interview_questions := firstn 5 questions |}
    | None =>
        let lower_text := Text.lower cv_text in
        let found := extract lower_text skill_map in
        let found :=
          match found with
          | [] => ["Software Development"; "Problem Solving"]
          | _ :: _ => found
          end in
        let questions :=
          [ match found with
            | first :: _ =>
                "Tell me about your experience with " +:+ first +:+ "."
            | [] => "Tell me about your background."
            end;
            "What's the most challenging project you've worked on?";
            "How do you approach debugging issues?";
            "Describe your teamwork style.";
            "What are you learning right now?" ] in
        {| skills := firstn 8 found; interview_questions := questions |}
    end.

End Cv.

Module CvFacts.
Import Cv.

Lemma extract_length (lower_text : string) (pairs : list (string * string)) :
  (length (extract lower_text pairs) <= length pairs)%nat.
Proof.
  induction pairs as [|[k n] pairs IH]; cbn [extract length]; [lia |].
  destruct (Text.contains k lower_text); cbn [length]; lia.
Qed.

(** A CV that is long enough is analysed. *)
Definition long_enough (cv_text : string) : Prop :=
  (50 <= String.length (Text.strip cv_text))%nat.

Lemma long_enough_test (cv_text : string) :
  long_enough cv_text ->
  String.eqb cv_text ""
  || (String.length (Text.strip cv_text) <? 50)%nat = false.
Proof.
  unfold long_enough. intros H.
  destruct (Nat.ltb_spec (String.length (Text.strip cv_text)) 50); [lia |].
  destruct cv_text; [cbn in H; lia | reflexivity].
Qed.

End CvFacts.

(** The analysis never lists more than eight skills or five questions.
    Without the model it lists at least one skill and exactly five
    questions, and for a CV of at least 50 characters the first question
    asks about the first skill listed. *)
Theorem analysis_is_bounded (ai : option (list string * list string))
    (cv_text : string) :
  (length (Cv.skills (Cv.analyze_cv ai cv_text)) <= 8)%nat
  /\ (length (Cv.interview_questions (Cv.analyze_cv ai cv_text)) <= 5)%nat
  /\ (1 <= length (Cv.skills (Cv.analyze_cv None cv_text)))%nat
  /\ length (Cv.interview_questions (Cv.analyze_cv None cv_text)) = 5%nat
  /\ (if String.eqb cv_text ""
         || (String.length (Text.strip cv_text) <? 50)%nat
      then Cv.analyze_cv ai cv_text = Cv.analyze_cv None cv_text
      else
        hd_error (Cv.interview_questions (Cv.analyze_cv None cv_text))
        = option_map
            (fun first =>
               "Tell me about your experience with " +:+ first +:+ ".")
            (hd_error (Cv.skills (Cv.analyze_cv None cv_text)))).
Proof.
  unfold Cv.analyze_cv.
  destruct (String.eqb cv_text "" || _).
  - cbn. repeat split; lia.
  - assert (Hnone :
      forall found : list string,
        (1 <= length
                (firstn 8
                   match found with
                   | [] => ["Software Development"; "Problem Solving"]
                   | _ :: _ => found
                   end))%nat).
    { intros [|x found]; cbn; lia. }
    split; [| split; [| split; [| split]]].
    + destruct ai as [[found questions] |]; cbn [Cv.skills];
        apply firstn_le_length.
    + destruct ai as [[found questions] |]; cbn [Cv.interview_questions];
        [apply firstn_le_length | cbn; lia].
    + cbn [Cv.skills]. apply Hnone.
    + reflexivity.
    + cbn [Cv.skills Cv.interview_questions hd_error].
      destruct (Cv.extract _ _); reflexivity.
Qed.

(** A CV that names JavaScript is credited with Java as well, since the
    keywords are looked for as parts of the text: without the model, both
    skills are listed. *)
Theorem javascript_is_also_counted_as_java (cv_text : string) :
  CvFacts.long_enough cv_text ->
  Text.contains "javascript" (Text.lower cv_text) = true ->
  In "Java" (Cv.skills (Cv.analyze_cv None cv_text))
  /\ In "JavaScript" (Cv.skills (Cv.analyze_cv None cv_text)).
Proof.
  intros Hlong Hjs. unfold Cv.analyze_cv.
  rewrite (CvFacts.long_enough_test cv_text Hlong).
  pose proof (SubstringFacts.contains_part "" "java" "script" _ Hjs) as Hjava.
  cbn [Cv.skills Cv.skill_map Cv.extract].
  rewrite Hjs, Hjava.
  destruct (Text.contains "python" (Text.lower cv_text));
    cbn [firstn In]; split; auto.
Qed.

Lemma javascript_is_also_counted_as_java_witness :
  In "Java"
    (Cv.skills
       (Cv.analyze_cv None
          "Frontend developer, five years of JavaScript and CSS for web shops"))
  /\ In "JavaScript"
       (Cv.skills
          (Cv.analyze_cv None
             "Frontend developer, five years of JavaScript and CSS for web shops")).
Proof.
  apply javascript_is_also_counted_as_java.
  - unfold CvFacts.long_enough. vm_compute. lia.
  - vm_compute. reflexivity.
Defined.

(** ** The fences around a model's answer

    [analyze_cv], [rate_interview] and [generate_coding_problem_no_input]
    take the text between Markdown fences out of the model's answer before
    they parse it. *)

Module Fence.

(** [s.split(sep)] for a non-empty [sep]: the occurrences are found from
    the left and do not overlap; [skip] counts the characters of an
    occurrence still to be passed.  The result is never empty. *)
Fixpoint split_from (sep : string) (skip : nat) (s : string) : list string :=
  match s with
  | EmptyString => [EmptyString]
  | String c rest =>
      match skip with
      | S k => split_from sep k rest
      | O =>
          match Text.strip_prefix sep s with
          | Some _ =>
              EmptyString :: split_from sep (String.length sep - 1) rest
          | None =>
              match split_from sep 0 rest with
              | x :: xs => String c x :: xs
              | [] => [String c EmptyString]
              end
          end
      end
  end.

Definition split_on (sep s : string) : list string := split_from sep 0 s.

(** The [if]/[elif] that takes the fenced text; [None] stands for the
    [IndexError] of an index out of range. *)
Definition unfence (result_text : string) : option string :=
  if Text.contains "```json" result_text then
    part ← nth_error (split_on "```json" result_text) 1;
    nth_error (split_on "```" part) 0
  else if Text.contains "```" result_text then
    part ← nth_error (split_on "```" result_text) 1;
    nth_error (split_on "```" part) 0
  else Some result_text.

End Fence.

Module FenceFacts.
Import Fence.

Definition tick : ascii := "`".

Definition no_tick (c : ascii) : bool := negb (Ascii.eqb c tick).

(** A fence: a separator that starts with a backtick. *)
Definition fence (sep : string) : Prop := exists sep', sep = String tick sep'.

Lemma split_from_nonempty (sep : string) (s : string) :
  forall skip, split_from sep skip s <> [].
Proof.
  induction s as [|c s IH]; intros skip; cbn [split_from]; [discriminate |].
  destruct skip; [| apply IH].
  destruct (Text.strip_prefix sep (String c s)); [discriminate |].
  destruct (split_from sep 0 s); discriminate.
Qed.

(** The first part. *)
Definition first_part (sep s : string) : string :=
  hd EmptyString (split_on sep s).

Lemma nth_error_first (sep s : string) :
  nth_error (split_on sep s) 0 = Some (first_part sep s).
Proof.
  unfold first_part, split_on.
  pose proof (split_from_nonempty sep s 0) as H.
  destruct (split_from sep 0 s); [contradiction | reflexivity].
Qed.

Lemma nth_error_second (x : string) (parts : list string) :
  nth_error (x :: parts) 1 = nth_error parts 0.
Proof. reflexivity. Qed.

Lemma nth_error_head (x : string) (parts : list string) :
  nth_error (x :: parts) 0 = Some x.
Proof. reflexivity. Qed.

(** Passing the rest of an occurrence. *)
Lemma split_from_skip (sep u r : string) :
  split_from sep (String.length u) (u +:+ r) = split_from sep 0 r.
Proof.
  induction u as [|c u IH]; cbn [String.length String.append split_from].
  - reflexivity.
  - exact IH.
Qed.

(** The text at an occurrence. *)
Lemma split_at_fence (sep r : string) :
  sep <> "" ->
  split_on sep (sep +:+ r) = EmptyString :: split_on sep r.
Proof.
  intros Hne. unfold split_on. destruct sep as [|a sep']; [congruence |].
  cbn [String.append split_from].
  change (String a (sep' +:+ r)) with (String a sep' +:+ r).
  rewrite TextFacts.strip_prefix_append.
  cbn [String.length Nat.sub]. rewrite Nat.sub_0_r.
  now rewrite split_from_skip.
Qed.

(** A text without backticks before the rest: it stays in the first
    part. *)
Lemma split_after_plain (sep p r : string) :
  fence sep -> Text.all_chars no_tick p = true ->
  split_on sep (p +:+ r)
  = (p +:+ first_part sep r) :: tl (split_on sep r).
Proof.
  intros [sep' ->] Hp. unfold split_on, first_part.
  induction p as [|c p IH]; cbn [String.append].
  - unfold split_on.
    pose proof (split_from_nonempty (String tick sep') r 0) as H.
    destruct (split_from (String tick sep') 0 r); [contradiction |].
    reflexivity.
  - cbn [Text.all_chars] in Hp. apply andb_prop in Hp as [Hc Hp].
    cbn [split_from Text.strip_prefix].
    unfold no_tick in Hc. apply negb_true_iff in Hc.
    rewrite Ascii.eqb_sym in Hc. rewrite Hc.
    rewrite (IH Hp). reflexivity.
Qed.

Lemma first_part_plain (sep p : string) :
  fence sep -> Text.all_chars no_tick p = true -> first_part sep p = p.
Proof.
  intros Hsep Hp. unfold first_part.
  rewrite <- (TextFacts.append_nil_r p) at 1.
  rewrite (split_after_plain sep p "" Hsep Hp). cbn.
  apply TextFacts.append_nil_r.
Qed.

Lemma first_part_at (sep s r : string) (c : ascii) :
  Text.strip_prefix sep (String c s) = Some r ->
  first_part sep (String c s) = "".
Proof.
  intros H. unfold first_part, split_on. cbn [split_from]. now rewrite H.
Qed.

Lemma first_part_step (sep s : string) (c : ascii) :
  Text.strip_prefix sep (String c s) = None ->
  first_part sep (String c s) = String c (first_part sep s).
Proof.
  intros H. unfold first_part, split_on. cbn [split_from]. rewrite H.
  pose proof (split_from_nonempty sep s 0) as Hne.
  destruct (split_from sep 0 s); [contradiction | reflexivity].
Qed.

(** What comes before the next opening fence, in a text that starts with
    a closing fence not followed by a backtick. *)
Lemma first_part_after_closing (post : string) :
  Text.strip_prefix "`" post = None ->
  first_part "```json" ("```" +:+ post) = ""
  \/ exists rest, first_part "```json" ("```" +:+ post) = "```" +:+ rest.
Proof.
  intros Hpost. destruct post as [|c post]; [right; now exists "" |].
  cbn [Text.strip_prefix] in Hpost.
  destruct (Ascii.eqb "`" c) eqn:Hc; [discriminate |].
  cbn [String.append].
  destruct (Text.strip_prefix "json" (String c post)) as [r|] eqn:Hj.
  - left. apply (first_part_at _ _ r).
    cbn [Text.strip_prefix] in Hj |- *. now rewrite !Ascii.eqb_refl.
  - right. exists (first_part "```json" (String c post)).
    rewrite first_part_step.
    2:{ cbn [Text.strip_prefix] in Hj |- *. now rewrite !Ascii.eqb_refl. }
    rewrite first_part_step.
    2:{ cbn [Text.strip_prefix]. now rewrite !Ascii.eqb_refl, Hc. }
    rewrite first_part_step.
    2:{ cbn [Text.strip_prefix]. now rewrite !Ascii.eqb_refl, Hc. }
    reflexivity.
Qed.

(** A text that holds a separator has a second part. *)
Lemma second_part_exists (sep s : string) :
  sep <> "" -> Text.contains sep s = true ->
  exists x y rest, split_on sep s = x :: y :: rest.
Proof.
  intros Hne. unfold split_on.
  induction s as [|c s IH]; cbn [Text.contains].
  - destruct (Text.strip_prefix sep "") eqn:E; [| discriminate].
    apply TextFacts.strip_prefix_Some in E.
    destruct sep; [congruence | discriminate].
  - cbn [split_from].
    destruct (Text.strip_prefix sep (String c s)) eqn:E.
    + intros _.
      pose proof (split_from_nonempty sep s (String.length sep - 1)) as H.
      destruct (split_from sep (String.length sep - 1) s) as [|y rest];
        [contradiction |].
      now exists "", y, rest.
    + intros H. destruct (IH H) as (x & y & rest & ->).
      now exists (String c x), y, rest.
Qed.

End FenceFacts.

(** Taking the fenced text never fails: an answer that holds a fence has a
    part after it, so neither index is out of range, and an answer without
    a fence is returned as it is. *)
Theorem fenced_text_is_always_found (result_text : string) :
  is_Some (Fence.unfence result_text)
  /\ (Text.contains "```" result_text = false ->
      Fence.unfence result_text = Some result_text).
Proof.
  unfold Fence.unfence. split.
  - destruct (Text.contains "```json" result_text) eqn:Hjson.
    + destruct (FenceFacts.second_part_exists "```json" result_text)
        as (x & y & rest & ->); [discriminate | exact Hjson |].
      rewrite FenceFacts.nth_error_second, FenceFacts.nth_error_head.
      cbn [mbind option_bind].
      rewrite FenceFacts.nth_error_first. now eexists.
    + destruct (Text.contains "```" result_text) eqn:Hplain; [| now eexists].
      destruct (FenceFacts.second_part_exists "```" result_text)
        as (x & y & rest & ->); [discriminate | exact Hplain |].
      rewrite FenceFacts.nth_error_second, FenceFacts.nth_error_head.
      cbn [mbind option_bind].
      rewrite FenceFacts.nth_error_first. now eexists.
  - intros Hplain.
    destruct (Text.contains "```json" result_text) eqn:Hjson.
    + apply (SubstringFacts.contains_part "" "```" "json") in Hjson. congruence.
    + now rewrite Hplain.
Qed.

(** An answer that wraps its JSON in a fence marked [json] gives the JSON
    back: for a text before the fence and a fenced text without backticks,
    and a text after the closing fence that does not start with one. *)
Theorem fenced_json_is_recovered (before body after : string) :
  Text.all_chars FenceFacts.no_tick before = true ->
  Text.all_chars FenceFacts.no_tick body = true ->
  Text.strip_prefix "`" after = None ->
  Fence.unfence (before +:+ "```json" +:+ body +:+ "```" +:+ after)
  = Some body.
Proof.
  intros Hbefore Hbody Hafter. unfold Fence.unfence.
  assert (Hjson : Text.contains "```json"
                    (before +:+ "```json" +:+ body +:+ "```" +:+ after)
                  = true).
  { apply TextFacts.contains_spec. now eexists _, _. }
  rewrite Hjson.
  assert (Hfence1 : FenceFacts.fence "```json") by now eexists.
  assert (Hfence2 : FenceFacts.fence "```") by now eexists.
  rewrite (FenceFacts.split_after_plain _ before _ Hfence1 Hbefore).
  rewrite FenceFacts.split_at_fence by discriminate.
  cbn [tl]. rewrite FenceFacts.nth_error_second.
  rewrite FenceFacts.nth_error_first. cbn [mbind option_bind].
  rewrite FenceFacts.nth_error_first. f_equal.
  unfold FenceFacts.first_part at 2.
  rewrite (FenceFacts.split_after_plain _ body _ Hfence1 Hbody). cbn [hd].
  unfold FenceFacts.first_part at 1.
  rewrite (FenceFacts.split_after_plain _ body _ Hfence2 Hbody). cbn [hd].
  destruct (FenceFacts.first_part_after_closing after Hafter)
    as [-> | [rest ->]].
  - cbn. apply TextFacts.append_nil_r.
  - unfold FenceFacts.first_part.
    rewrite FenceFacts.split_at_fence by discriminate. cbn [hd].
    apply TextFacts.append_nil_r.
Qed.

Lemma fenced_json_is_recovered_witness :
  Fence.unfence
    ("Here is the rating: " +:+ "```json" +:+ "{ score: 7.5 }" +:+ "```"
     +:+ " Good luck!")
  = Some "{ score: 7.5 }".
Proof.
  apply (fenced_json_is_recovered "Here is the rating: " "{ score: 7.5 }"
           " Good luck!"); reflexivity.
Defined.
